(** * An in-memory block file system: model and verification

    Shallow embedding of [src/main.py]: the three classes [BlockStorage],
    [FileDescriptor] and [FileSystem].  Python integers are [Z], byte strings
    are [list byte], text is the list of its code points, lists are Rocq
    lists indexed the Python way (negative indices count from the end,
    anything else out of range raises [IndexError]), dictionaries are [gmap]s.
    Every method is a function from the object's state to an outcome and the
    state it leaves behind, so that a call that raises after it has mutated
    the object returns the mutated state. *)

From Stdlib Require Import ZArith Lia.
From Stdlib Require Import Init.Byte.
From stdpp Require Import gmap strings list fin_maps.

Local Open Scope Z_scope.

(** ** Python values *)

Inductive exn : Type :=
| FileNotFoundError
| FileExistsError
| RuntimeError (msg : string)
| ValueError
| IndexError
| AttributeError
| ZeroDivisionError
| UnicodeDecodeError.

(** The result of a call: a value, an exception, or no result at all
    ([Diverge]: the loop of the call has not finished within the number
    of iterations that suffices whenever blocks have a positive size). *)
Inductive outcome (A : Type) : Type :=
| Ret (a : A)
| Raise (e : exn)
| Diverge.
Arguments Ret {A} a.
Arguments Raise {A} e.
Arguments Diverge {A}.

Module Py.

(** [l[i]]: the position an index denotes in a list of length [len]. *)
Definition norm (len : nat) (i : Z) : option nat :=
  if 0 <=? i then
    if i <? Z.of_nat len then Some (Z.to_nat i) else None
  else
    if - Z.of_nat len <=? i then Some (Z.to_nat (Z.of_nat len + i)) else None.

Definition get {A} (l : list A) (i : Z) : option A :=
  match norm (length l) i with
  | Some n => l !! n
  | None => None
  end.

(** [l[i] = v] *)
Definition set {A} (l : list A) (i : Z) (v : A) : option (list A) :=
  match norm (length l) i with
  | Some n => Some (<[n := v]> l)
  | None => None
  end.

(** A slice bound, clamped into [0 .. len]. *)
Definition bound (len : nat) (i : Z) : nat :=
  if 0 <=? i then Nat.min (Z.to_nat i) len
  else Z.to_nat (Z.of_nat len + i).

(** [l[:n]], [l[n:]] and [l[a:b]] *)
Definition slice_to {A} (l : list A) (n : Z) : list A :=
  take (bound (length l) n) l.
Definition slice_from {A} (l : list A) (n : Z) : list A :=
  drop (bound (length l) n) l.
Definition slice {A} (l : list A) (a b : Z) : list A :=
  take (bound (length l) b - bound (length l) a) (drop (bound (length l) a) l).

(** [buf[:len(data)] = data] on a bytearray *)
Definition store_prefix {A} (buf data : list A) : list A :=
  data ++ drop (length data) buf.

(** [bytearray(n)] *)
Definition bytearray (n : Z) : outcome (list byte) :=
  if n <? 0 then Raise ValueError else Ret (replicate (Z.to_nat n) x00).

(** [a // b] and [a % b] *)
Definition floordiv (a b : Z) : outcome Z :=
  if b =? 0 then Raise ZeroDivisionError else Ret (a / b).
Definition modulo (a b : Z) : outcome Z :=
  if b =? 0 then Raise ZeroDivisionError else Ret (a mod b).

(** [bytearray.decode()]: the bytes are decoded as UTF-8, strictly.  A
    [str] is the list of its code points.  A byte sequence that is not
    well-formed UTF-8 (a stray or missing continuation byte, an overlong
    form, a surrogate, a code point above U+10FFFF) raises
    [UnicodeDecodeError]. *)
Definition code (b : byte) : Z := Z.of_N (Byte.to_N b).

Definition between (lo hi : Z) (b : byte) : bool := (lo <=? code b) && (code b <=? hi).

Definition cons_char (c : Z) (r : outcome (list Z)) : outcome (list Z) :=
  match r with
  | Ret t => Ret (c :: t)
  | Raise e => Raise e
  | Diverge => Diverge
  end.

Fixpoint decode (l : list byte) : outcome (list Z) :=
  match l with
  | [] => Ret []
  | b0 :: r0 =>
      if code b0 <? 128 then cons_char (code b0) (decode r0)
      else if between 194 223 b0 then
        match r0 with
        | b1 :: r1 =>
            if between 128 191 b1
            then cons_char ((code b0 - 192) * 64 + (code b1 - 128)) (decode r1)
            else Raise UnicodeDecodeError
        | _ => Raise UnicodeDecodeError
        end
      else if between 224 239 b0 then
        match r0 with
        | b1 :: b2 :: r2 =>
            if between (if code b0 =? 224 then 160 else 128)
                       (if code b0 =? 237 then 159 else 191) b1
               && between 128 191 b2
            then cons_char ((code b0 - 224) * 4096 + (code b1 - 128) * 64
                            + (code b2 - 128)) (decode r2)
            else Raise UnicodeDecodeError
        | _ => Raise UnicodeDecodeError
        end
      else if between 240 244 b0 then
        match r0 with
        | b1 :: b2 :: b3 :: r3 =>
            if between (if code b0 =? 240 then 144 else 128)
                       (if code b0 =? 244 then 143 else 191) b1
               && between 128 191 b2 && between 128 191 b3
            then cons_char ((code b0 - 240) * 262144 + (code b1 - 128) * 4096
                            + (code b2 - 128) * 64 + (code b3 - 128)) (decode r3)
            else Raise UnicodeDecodeError
        | _ => Raise UnicodeDecodeError
        end
      else Raise UnicodeDecodeError
  end.

End Py.

(** ** class BlockStorage *)

Record BlockStorage : Type := mkBlockStorage {
  block_size : Z;
  num_blocks : Z;
  blocks : list (list byte);
  bitmap : list Z
}.

Definition set_blocks (st : BlockStorage) (bl : list (list byte)) : BlockStorage :=
  mkBlockStorage (block_size st) (num_blocks st) bl (bitmap st).
Definition set_bitmap (st : BlockStorage) (bm : list Z) : BlockStorage :=
  mkBlockStorage (block_size st) (num_blocks st) (blocks st) bm.

(** [BlockStorage(num_blocks, block_size)]; [bytearray] refuses a negative
    size as soon as one block is built. *)
Definition BlockStorage_init (nb bs : Z) : outcome BlockStorage :=
  if (0 <? nb) && (bs <? 0) then Raise ValueError
  else Ret (mkBlockStorage bs nb
              (replicate (Z.to_nat nb) (replicate (Z.to_nat bs) x00))
              (replicate (Z.to_nat nb) 0)).

(** The scan of [allocate_block]: [k] indices are left, starting at [i]. *)
Fixpoint allocate_scan (bm : list Z) (i : Z) (k : nat) : outcome Z :=
  match k with
  | O => Raise (RuntimeError "No free blocks available")
  | S k' =>
      match Py.get bm i with
      | None => Raise IndexError
      | Some v => if v =? 0 then Ret i else allocate_scan bm (i + 1) k'
      end
  end.

Definition allocate_block (st : BlockStorage) : outcome Z * BlockStorage :=
  match allocate_scan (bitmap st) 0 (Z.to_nat (num_blocks st)) with
  | Ret i =>
      match Py.set (bitmap st) i 1 with
      | Some bm' => (Ret i, set_bitmap st bm')
      | None => (Raise IndexError, st)
      end
  | Raise e => (Raise e, st)
  | Diverge => (Diverge, st)
  end.

Definition free_block (block_index : Z) (st : BlockStorage) : outcome unit * BlockStorage :=
  match Py.get (bitmap st) block_index with
  | None => (Raise IndexError, st)
  | Some v =>
      if v =? 1 then
        match Py.set (bitmap st) block_index 0 with
        | None => (Raise IndexError, st)
        | Some bm' =>
            let st1 := set_bitmap st bm' in
            match Py.bytearray (block_size st) with
            | Ret zeros =>
                match Py.set (blocks st1) block_index zeros with
                | Some bl' => (Ret tt, set_blocks st1 bl')
                | None => (Raise IndexError, st1)
                end
            | Raise e => (Raise e, st1)
            | Diverge => (Diverge, st1)
            end
        end
      else (Ret tt, st)
  end.

Definition write_block (block_index : Z) (data : list byte) (st : BlockStorage)
  : outcome unit * BlockStorage :=
  if block_size st <? Z.of_nat (length data) then (Raise ValueError, st)
  else
    match Py.get (blocks st) block_index with
    | None => (Raise IndexError, st)
    | Some buf =>
        match Py.set (blocks st) block_index (Py.store_prefix buf data) with
        | Some bl' => (Ret tt, set_blocks st bl')
        | None => (Raise IndexError, st)
        end
    end.

Definition read_block (block_index : Z) (st : BlockStorage) : outcome (list byte) :=
  match Py.get (blocks st) block_index with
  | Some buf => Ret buf
  | None => Raise IndexError
  end.

(** ** class FileDescriptor *)

Record FileDescriptor : Type := mkFileDescriptor {
  file_type : string;
  hard_links : Z;
  size : Z;
  direct_blocks : list Z;
  indirect_block : Z
}.

Definition set_hard_links (d : FileDescriptor) (n : Z) : FileDescriptor :=
  mkFileDescriptor (file_type d) n (size d) (direct_blocks d) (indirect_block d).
Definition set_size (d : FileDescriptor) (n : Z) : FileDescriptor :=
  mkFileDescriptor (file_type d) (hard_links d) n (direct_blocks d) (indirect_block d).
Definition set_direct_blocks (d : FileDescriptor) (l : list Z) : FileDescriptor :=
  mkFileDescriptor (file_type d) (hard_links d) (size d) l (indirect_block d).

Definition max_direct_blocks_default : Z := 10.

Definition FileDescriptor_init (ft : string) (max_direct_blocks : Z) : FileDescriptor :=
  mkFileDescriptor ft 1 0 (replicate (Z.to_nat max_direct_blocks) (-1)) (-1).

(** The loop of [add_block]: the first slot that holds [-1] takes the block. *)
Fixpoint fill_first_empty (l : list Z) (block_index : Z) : option (list Z) :=
  match l with
  | [] => None
  | x :: t =>
      if x =? -1 then Some (block_index :: t)
      else option_map (cons x) (fill_first_empty t block_index)
  end.

Definition add_block (block_index : Z) (d : FileDescriptor) : outcome unit * FileDescriptor :=
  match fill_first_empty (direct_blocks d) block_index with
  | Some l' => (Ret tt, set_direct_blocks d l')
  | None => (Raise (RuntimeError "No free direct blocks, indirect block needed"), d)
  end.

Definition get_blocks (d : FileDescriptor) : list Z :=
  filter (λ b, b ≠ -1) (direct_blocks d).

(** ** class FileSystem *)

Record FileSystem : Type := mkFileSystem {
  block_storage : BlockStorage;
  max_files : Z;
  file_descriptors : list (option FileDescriptor);
  directory : gmap string Z;
  open_files : gmap Z (Z * Z);
  next_fd : Z
}.

Definition set_block_storage (s : FileSystem) (st : BlockStorage) : FileSystem :=
  mkFileSystem st (max_files s) (file_descriptors s) (directory s) (open_files s) (next_fd s).
Definition set_file_descriptors (s : FileSystem) (fds : list (option FileDescriptor)) : FileSystem :=
  mkFileSystem (block_storage s) (max_files s) fds (directory s) (open_files s) (next_fd s).
Definition set_directory (s : FileSystem) (dir : gmap string Z) : FileSystem :=
  mkFileSystem (block_storage s) (max_files s) (file_descriptors s) dir (open_files s) (next_fd s).
Definition set_open_files (s : FileSystem) (o : gmap Z (Z * Z)) : FileSystem :=
  mkFileSystem (block_storage s) (max_files s) (file_descriptors s) (directory s) o (next_fd s).
Definition set_next_fd (s : FileSystem) (n : Z) : FileSystem :=
  mkFileSystem (block_storage s) (max_files s) (file_descriptors s) (directory s) (open_files s) n.

(** The descriptor object of slot [i] is mutated in place: the slot takes
    its new state.  The slot exists wherever this is used. *)
Definition put_slot (s : FileSystem) (i : Z) (d : option FileDescriptor) : FileSystem :=
  match Py.set (file_descriptors s) i d with
  | Some fds => set_file_descriptors s fds
  | None => s
  end.

Definition FileSystem_init (nb bs mf : Z) : outcome FileSystem :=
  match BlockStorage_init nb bs with
  | Ret st => Ret (mkFileSystem st mf (replicate (Z.to_nat mf) None) ∅ ∅ 0)
  | Raise e => Raise e
  | Diverge => Diverge
  end.

Definition mkfs (num_descriptors : Z) (s : FileSystem) : outcome unit * FileSystem :=
  match FileSystem_init (num_blocks (block_storage s)) (block_size (block_storage s))
          num_descriptors with
  | Ret s' => (Ret tt, s')
  | Raise e => (Raise e, s)
  | Diverge => (Diverge, s)
  end.

(** [stat] hands out the descriptor object of the name ([None] when the
    slot is empty). *)
Definition stat (name : string) (s : FileSystem) : outcome (option FileDescriptor) :=
  match directory s !! name with
  | None => Raise FileNotFoundError
  | Some fd_index =>
      match Py.get (file_descriptors s) fd_index with
      | Some fd => Ret fd
      | None => Raise IndexError
      end
  end.

Definition ls (s : FileSystem) : gmap string Z := directory s.

(** The scan of [create] for an empty slot. *)
Fixpoint create_scan (fds : list (option FileDescriptor)) (i : Z) (k : nat) : outcome Z :=
  match k with
  | O => Raise (RuntimeError "Maximum number of files reached")
  | S k' =>
      match Py.get fds i with
      | None => Raise IndexError
      | Some None => Ret i
      | Some (Some _) => create_scan fds (i + 1) k'
      end
  end.

Definition create (name : string) (s : FileSystem) : outcome unit * FileSystem :=
  match directory s !! name with
  | Some _ => (Raise FileExistsError, s)
  | None =>
      match create_scan (file_descriptors s) 0 (Z.to_nat (max_files s)) with
      | Ret i =>
          let fd := FileDescriptor_init "regular" max_direct_blocks_default in
          match Py.set (file_descriptors s) i (Some fd) with
          | Some fds =>
              (Ret tt, set_directory (set_file_descriptors s fds) (<[name := i]> (directory s)))
          | None => (Raise IndexError, s)
          end
      | Raise e => (Raise e, s)
      | Diverge => (Diverge, s)
      end
  end.

Definition open (name : string) (s : FileSystem) : outcome Z * FileSystem :=
  match directory s !! name with
  | None => (Raise FileNotFoundError, s)
  | Some fd_index =>
      (Ret (next_fd s),
       set_next_fd (set_open_files s (<[next_fd s := (fd_index, 0)]> (open_files s)))
         (next_fd s + 1))
  end.

Definition close (fd : Z) (s : FileSystem) : outcome unit * FileSystem :=
  match open_files s !! fd with
  | Some _ => (Ret tt, set_open_files s (delete fd (open_files s)))
  | None => (Ret tt, s)
  end.

Definition seek (fd offset : Z) (s : FileSystem) : outcome unit * FileSystem :=
  match open_files s !! fd with
  | Some (fd_index, _) =>
      (Ret tt, set_open_files s (<[fd := (fd_index, offset)]> (open_files s)))
  | None => (Raise FileNotFoundError, s)
  end.

(** The [while size > 0] loop of [read]; it returns [file_data] and
    [current_offset]. *)
Fixpoint read_loop (fuel : nat) (st : BlockStorage) (blks : list Z)
    (sz current_offset : Z) (file_data : list byte) : outcome (list byte * Z) :=
  if sz <=? 0 then Ret (file_data, current_offset)
  else
    match fuel with
    | O => Diverge
    | S fuel' =>
        match Py.floordiv current_offset (block_size st),
              Py.modulo current_offset (block_size st) with
        | Ret block_index, Ret block_offset =>
            let bytes_to_read := Z.min sz (block_size st - block_offset) in
            match Py.get blks block_index with
            | None => Raise IndexError
            | Some b =>
                match read_block b st with
                | Ret block_data =>
                    read_loop fuel' st blks (sz - bytes_to_read)
                      (current_offset + bytes_to_read)
                      (file_data ++
                       Py.slice block_data block_offset (block_offset + bytes_to_read))
                | Raise e => Raise e
                | Diverge => Diverge
                end
            end
        | Raise e, _ => Raise e
        | _, Raise e => Raise e
        | _, _ => Diverge
        end
    end.

(** [read] up to its [return]: the bytes gathered in [file_data].  The
    cursor is stored before the result is decoded. *)
Definition read_bytes (fd sz : Z) (s : FileSystem) : outcome (list byte) * FileSystem :=
  match open_files s !! fd with
  | None => (Raise FileNotFoundError, s)
  | Some (fd_index, offset) =>
      match Py.get (file_descriptors s) fd_index with
      | None => (Raise IndexError, s)
      | Some None => (Raise AttributeError, s)
      | Some (Some d) =>
          let total_size := size d in
          let sz := if total_size <? offset + sz then total_size - offset else sz in
          match read_loop (Z.to_nat sz) (block_storage s) (get_blocks d) sz offset [] with
          | Ret (file_data, current_offset) =>
              (Ret file_data, set_open_files s (<[fd := (fd_index, current_offset)]> (open_files s)))
          | Raise e => (Raise e, s)
          | Diverge => (Diverge, s)
          end
      end
  end.

(** [read]: what it returns is [file_data.decode()], the text the bytes
    gathered encode; the cursor has been stored by then. *)
Definition read (fd sz : Z) (s : FileSystem) : outcome (list Z) * FileSystem :=
  match read_bytes fd sz s with
  | (Ret file_data, s') => (Py.decode file_data, s')
  | (Raise e, s') => (Raise e, s')
  | (Diverge, s') => (Diverge, s')
  end.

(** The test of [write] for a missing block, then [allocate_block] and
    [add_block]. *)
Definition ensure_block (block_index : Z) (st : BlockStorage) (d : FileDescriptor)
  : outcome unit * (BlockStorage * FileDescriptor) :=
  let missing :=
    if Z.of_nat (length (direct_blocks d)) <=? block_index then Ret true
    else match Py.get (direct_blocks d) block_index with
         | Some b => Ret (b =? -1)
         | None => Raise IndexError
         end in
  match missing with
  | Ret true =>
      match allocate_block st with
      | (Ret new_block, st1) =>
          match add_block new_block d with
          | (Ret _, d1) => (Ret tt, (st1, d1))
          | (Raise e, d1) => (Raise e, (st1, d1))
          | (Diverge, d1) => (Diverge, (st1, d1))
          end
      | (Raise e, st1) => (Raise e, (st1, d))
      | (Diverge, st1) => (Diverge, (st1, d))
      end
  | Ret false => (Ret tt, (st, d))
  | Raise e => (Raise e, (st, d))
  | Diverge => (Diverge, (st, d))
  end.

(** One turn of the [while data] loop of [write]: the data left and the
    new [current_offset]. *)
Definition write_chunk (data : list byte) (current_offset : Z)
    (st : BlockStorage) (d : FileDescriptor)
  : outcome (list byte * Z) * (BlockStorage * FileDescriptor) :=
  match Py.floordiv current_offset (block_size st),
        Py.modulo current_offset (block_size st) with
  | Ret block_index, Ret block_offset =>
      match ensure_block block_index st d with
      | (Ret _, (st1, d1)) =>
          let block_data := Py.slice_to data (block_size st1 - block_offset) in
          match Py.get (direct_blocks d1) block_index with
          | None => (Raise IndexError, (st1, d1))
          | Some b =>
              match write_block b block_data st1 with
              | (Ret _, st2) =>
                  (Ret (Py.slice_from data (Z.of_nat (length block_data)),
                        current_offset + Z.of_nat (length block_data)),
                   (st2, d1))
              | (Raise e, st2) => (Raise e, (st2, d1))
              | (Diverge, st2) => (Diverge, (st2, d1))
              end
          end
      | (Raise e, sd) => (Raise e, sd)
      | (Diverge, sd) => (Diverge, sd)
      end
  | Raise e, _ => (Raise e, (st, d))
  | _, Raise e => (Raise e, (st, d))
  | _, _ => (Diverge, (st, d))
  end.

Fixpoint write_loop (fuel : nat) (data : list byte) (current_offset : Z)
    (st : BlockStorage) (d : FileDescriptor)
  : outcome Z * (BlockStorage * FileDescriptor) :=
  match data with
  | [] => (Ret current_offset, (st, d))
  | _ :: _ =>
      match fuel with
      | O => (Diverge, (st, d))
      | S fuel' =>
          match write_chunk data current_offset st d with
          | (Ret (data', current_offset'), (st1, d1)) =>
              write_loop fuel' data' current_offset' st1 d1
          | (Raise e, sd) => (Raise e, sd)
          | (Diverge, sd) => (Diverge, sd)
          end
      end
  end.

Definition write (fd : Z) (data : list byte) (s : FileSystem) : outcome unit * FileSystem :=
  match open_files s !! fd with
  | None => (Raise FileNotFoundError, s)
  | Some (fd_index, offset) =>
      match Py.get (file_descriptors s) fd_index with
      | None => (Raise IndexError, s)
      | Some None =>
          match data with
          | [] => (Raise AttributeError, s)
          | _ :: _ =>
              if block_size (block_storage s) =? 0 then (Raise ZeroDivisionError, s)
              else (Raise AttributeError, s)
          end
      | Some (Some fd_obj) =>
          match write_loop (length data) data offset (block_storage s) fd_obj with
          | (Ret current_offset, (st, d)) =>
              let d' := set_size d (Z.max (size d) current_offset) in
              (Ret tt,
               set_open_files (put_slot (set_block_storage s st) fd_index (Some d'))
                 (<[fd := (fd_index, current_offset)]> (open_files s)))
          | (Raise e, (st, d)) =>
              (Raise e, put_slot (set_block_storage s st) fd_index (Some d))
          | (Diverge, (st, d)) =>
              (Diverge, put_slot (set_block_storage s st) fd_index (Some d))
          end
      end
  end.

Definition link (name1 name2 : string) (s : FileSystem) : outcome unit * FileSystem :=
  match directory s !! name1 with
  | None => (Raise FileNotFoundError, s)
  | Some fd_index =>
      match directory s !! name2 with
      | Some _ => (Raise FileExistsError, s)
      | None =>
          match Py.get (file_descriptors s) fd_index with
          | None => (Raise IndexError, s)
          | Some None => (Raise AttributeError, s)
          | Some (Some d) =>
              (Ret tt,
               set_directory (put_slot s fd_index (Some (set_hard_links d (hard_links d + 1))))
                 (<[name2 := fd_index]> (directory s)))
          end
      end
  end.

(** [desc[0] for desc in self.open_files.values()] *)
Definition handle_targets (o : gmap Z (Z * Z)) : list Z :=
  (λ kv : Z * (Z * Z), kv.2.1) <$> map_to_list o.

(** [for block in ...: free_block(block)] *)
Fixpoint free_blocks (l : list Z) (st : BlockStorage) : outcome unit * BlockStorage :=
  match l with
  | [] => (Ret tt, st)
  | b :: l' =>
      match free_block b st with
      | (Ret _, st1) => free_blocks l' st1
      | (Raise e, st1) => (Raise e, st1)
      | (Diverge, st1) => (Diverge, st1)
      end
  end.

Definition unlink (name : string) (s : FileSystem) : outcome unit * FileSystem :=
  match directory s !! name with
  | None => (Raise FileNotFoundError, s)
  | Some fd_index =>
      let s1 := set_directory s (delete name (directory s)) in
      match Py.get (file_descriptors s1) fd_index with
      | None => (Raise IndexError, s1)
      | Some None => (Raise AttributeError, s1)
      | Some (Some fd_obj) =>
          let d := set_hard_links fd_obj (hard_links fd_obj - 1) in
          let s2 := put_slot s1 fd_index (Some d) in
          if (hard_links d =? 0) && negb (bool_decide (fd_index ∈ handle_targets (open_files s2)))
          then
            match free_blocks (get_blocks d) (block_storage s2) with
            | (Ret _, st) => (Ret tt, put_slot (set_block_storage s2 st) fd_index None)
            | (Raise e, st) => (Raise e, set_block_storage s2 st)
            | (Diverge, st) => (Diverge, set_block_storage s2 st)
            end
          else (Ret tt, s2)
      end
  end.

(** [for _ in range(k): add_block(allocate_block())] *)
Fixpoint grow_blocks (k : nat) (st : BlockStorage) (d : FileDescriptor)
  : outcome unit * (BlockStorage * FileDescriptor) :=
  match k with
  | O => (Ret tt, (st, d))
  | S k' =>
      match allocate_block st with
      | (Ret new_block, st1) =>
          match add_block new_block d with
          | (Ret _, d1) => grow_blocks k' st1 d1
          | (Raise e, d1) => (Raise e, (st1, d1))
          | (Diverge, d1) => (Diverge, (st1, d1))
          end
      | (Raise e, st1) => (Raise e, (st1, d))
      | (Diverge, st1) => (Diverge, (st1, d))
      end
  end.

Definition truncate (name : string) (sz : Z) (s : FileSystem) : outcome unit * FileSystem :=
  match directory s !! name with
  | None => (Raise FileNotFoundError, s)
  | Some fd_index =>
      match Py.get (file_descriptors s) fd_index with
      | None => (Raise IndexError, s)
      | Some None => (Raise AttributeError, s)
      | Some (Some fd_obj) =>
          let bs := block_size (block_storage s) in
          if size fd_obj <? sz then
            let current_blocks := Z.of_nat (length (get_blocks fd_obj)) in
            match Py.floordiv (sz + bs - 1) bs with
            | Ret blocks_needed =>
                match grow_blocks (Z.to_nat (blocks_needed - current_blocks))
                        (block_storage s) fd_obj with
                | (Ret _, (st, d)) =>
                    (Ret tt, put_slot (set_block_storage s st) fd_index (Some (set_size d sz)))
                | (Raise e, (st, d)) =>
                    (Raise e, put_slot (set_block_storage s st) fd_index (Some d))
                | (Diverge, (st, d)) =>
                    (Diverge, put_slot (set_block_storage s st) fd_index (Some d))
                end
            | Raise e => (Raise e, s)
            | Diverge => (Diverge, s)
            end
          else if sz <? size fd_obj then
            match Py.floordiv (sz + bs - 1) bs with
            | Ret blocks_to_keep =>
                let blocks_to_free := Py.slice_from (get_blocks fd_obj) blocks_to_keep in
                match free_blocks blocks_to_free (block_storage s) with
                | (Ret _, st) =>
                    let d := set_direct_blocks fd_obj
                               (Py.slice_to (direct_blocks fd_obj) blocks_to_keep) in
                    (Ret tt, put_slot (set_block_storage s st) fd_index (Some (set_size d sz)))
                | (Raise e, st) => (Raise e, set_block_storage s st)
                | (Diverge, st) => (Diverge, set_block_storage s st)
                end
            | Raise e => (Raise e, s)
            | Diverge => (Diverge, s)
            end
          else (Ret tt, s)
      end
  end.

(** * Vocabulary of the properties *)

(** ** Blocks and bytes *)

(** The bit of a block in the bitmap. *)
Definition used (st : BlockStorage) (b : Z) : Prop := Py.get (bitmap st) b = Some 1.
Definition is_free (st : BlockStorage) (b : Z) : Prop := Py.get (bitmap st) b = Some 0.

(** The number of free blocks. *)
Definition free_count (st : BlockStorage) : nat :=
  length (filter (λ v, v = 0) (bitmap st)).

(** A block of zero bytes, and the fact that every buffer has [block_size]
    bytes. *)
Definition zero_block (st : BlockStorage) : list byte :=
  replicate (Z.to_nat (block_size st)) x00.

Definition blocks_sized (st : BlockStorage) : Prop :=
  Forall (λ buf, length buf = Z.to_nat (block_size st)) (blocks st).

(** Bitmap and blocks run in parallel and a block can be zero-filled. *)
Definition storage_shape (st : BlockStorage) : Prop :=
  length (blocks st) = length (bitmap st)
  ∧ (0 ≤ block_size st ∨ bitmap st = []).

(** Moreover the free blocks are zero-filled. *)
Definition storage_inv (st : BlockStorage) : Prop :=
  storage_shape st
  ∧ ∀ n, bitmap st !! n = Some 0 → blocks st !! n = Some (zero_block st).

(** Blocks have a positive size, the bitmap has [num_blocks] entries and
    runs in parallel with the blocks, and every buffer is a full block. *)
Definition storage_ok (st : BlockStorage) : Prop :=
  0 < block_size st
  ∧ length (bitmap st) = Z.to_nat (num_blocks st)
  ∧ length (blocks st) = length (bitmap st)
  ∧ blocks_sized st.

(** The byte at position [p] of a file whose block list is [blks], found
    the way [read] finds it: block [p // block_size] of the list, offset
    [p % block_size] in its buffer. *)
Definition file_byte (st : BlockStorage) (blks : list Z) (p : Z) : option byte :=
  b ← Py.get blks (p / block_size st);
  buf ← Py.get (blocks st) b;
  Py.get buf (p mod block_size st).

(** [ceil(a / b)] as [truncate] computes it. *)
Definition ceil_div (a b : Z) : Z := (a + b - 1) / b.

(** The descriptor in a slot, and the descriptor bound to a name. *)
Definition slot (s : FileSystem) (i : Z) : option FileDescriptor :=
  match Py.get (file_descriptors s) i with
  | Some (Some d) => Some d
  | _ => None
  end.

Definition descriptor_of (name : string) (s : FileSystem) : option FileDescriptor :=
  match stat name s with
  | Ret (Some d) => Some d
  | _ => None
  end.

(** ** Sequences of calls on the block storage *)

Inductive storage_call : Type :=
| Allocate
| Free (block_index : Z)
| WriteBlock (block_index : Z) (data : list byte).

Definition storage_step (st : BlockStorage) (c : storage_call) : BlockStorage :=
  match c with
  | Allocate => (allocate_block st).2
  | Free b => (free_block b st).2
  | WriteBlock b data => (write_block b data st).2
  end.

Definition storage_run (st : BlockStorage) (cs : list storage_call) : BlockStorage :=
  foldl storage_step st cs.

(** The writes of a sequence go to blocks that are allocated when they are
    written. *)
Fixpoint writes_allocated (st : BlockStorage) (cs : list storage_call) : Prop :=
  match cs with
  | [] => True
  | c :: cs' =>
      match c with
      | WriteBlock b _ => used st b
      | _ => True
      end ∧ writes_allocated (storage_step st c) cs'
  end.

(** ** Sequences of calls on the file system *)

Inductive call : Type :=
| Mkfs (num_descriptors : Z)
| Stat (name : string)
| Ls
| Create (name : string)
| Open (name : string)
| Close (fd : Z)
| Seek (fd offset : Z)
| Read (fd sz : Z)
| Write (fd : Z) (data : list byte)
| Link (name1 name2 : string)
| Unlink (name : string)
| Truncate (name : string) (sz : Z).

(** The state a call leaves, whether it returns or raises ([read] leaves
    the state [read_bytes] leaves). *)
Definition step (s : FileSystem) (c : call) : FileSystem :=
  match c with
  | Mkfs n => (mkfs n s).2
  | Stat _ => s
  | Ls => s
  | Create name => (create name s).2
  | Open name => (open name s).2
  | Close fd => (close fd s).2
  | Seek fd offset => (seek fd offset s).2
  | Read fd sz => (read_bytes fd sz s).2
  | Write fd data => (write fd data s).2
  | Link name1 name2 => (link name1 name2 s).2
  | Unlink name => (unlink name s).2
  | Truncate name sz => (truncate name sz s).2
  end.

Definition run (s : FileSystem) (cs : list call) : FileSystem := foldl step s cs.

(** Calls whose [truncate] sizes are not negative, and calls other than
    [mkfs]. *)
Definition sane_call (c : call) : Prop :=
  match c with
  | Truncate _ sz => 0 ≤ sz
  | _ => True
  end.

Definition not_mkfs (c : call) : Prop :=
  match c with
  | Mkfs _ => False
  | _ => True
  end.

(** ** The invariant of the file system *)

(** The number of names bound to descriptor index [i]. *)
Definition links_to (dir : gmap string Z) (i : Z) : nat :=
  length (filter (λ kv : string * Z, kv.2 = i) (map_to_list dir)).

(** What every state reached from a fresh file system satisfies, as long as
    no [truncate] was given a negative size: names are bound to occupied
    slots, [hard_links] counts the names of a descriptor, the blocks of a
    descriptor are distinct allocated blocks that no other descriptor holds,
    and handles carry indices that are not negative. *)
Record fs_inv (s : FileSystem) : Prop := mk_fs_inv {
  inv_shape : storage_shape (block_storage s);
  inv_names : ∀ name j, directory s !! name = Some j →
      0 ≤ j ∧ ∃ dj, file_descriptors s !! Z.to_nat j = Some (Some dj);
  inv_links : ∀ n dn, file_descriptors s !! n = Some (Some dn) →
      Z.of_nat (links_to (directory s) (Z.of_nat n)) = hard_links dn;
  inv_blocks : ∀ n dn, file_descriptors s !! n = Some (Some dn) →
      NoDup (get_blocks dn)
      ∧ ∀ b, b ∈ get_blocks dn → 0 ≤ b ∧ bitmap (block_storage s) !! Z.to_nat b = Some 1;
  inv_disjoint : ∀ n n' dn dn', n ≠ n' →
      file_descriptors s !! n = Some (Some dn) →
      file_descriptors s !! n' = Some (Some dn') →
      ∀ b, b ∈ get_blocks dn → b ∉ get_blocks dn';
  inv_handles : ∀ h j off, open_files s !! h = Some (j, off) → 0 ≤ j
}.

(** Descriptor [d] sits in slot [i] with no name bound to it and no open
    handle on it (names and handles carry indices that are not negative); its
    blocks are allocated, and no other descriptor holds one of them. *)
Record orphan_inv (s : FileSystem) (i : Z) (d : FileDescriptor) : Prop := mk_orphan_inv {
  orph_shape : storage_shape (block_storage s);
  orph_index : 0 ≤ i;
  orph_slot : file_descriptors s !! Z.to_nat i = Some (Some d);
  orph_names : ∀ name j, directory s !! name = Some j → 0 ≤ j ∧ j ≠ i;
  orph_handles : ∀ h j off, open_files s !! h = Some (j, off) → 0 ≤ j ∧ j ≠ i;
  orph_blocks : ∀ b, b ∈ get_blocks d →
      0 ≤ b ∧ bitmap (block_storage s) !! Z.to_nat b = Some 1;
  orph_others : ∀ n d', n ≠ Z.to_nat i →
      file_descriptors s !! n = Some (Some d') →
      ∀ b, b ∈ get_blocks d' → 0 ≤ b ∧ b ∉ get_blocks d
}.

(** How a loop that allocates blocks for a descriptor moves the storage and
    the descriptor: bits of the bitmap only go from 0 to 1, and the blocks the
    descriptor gains are among those whose bit did. *)
Definition extends (st : BlockStorage) (d : FileDescriptor)
    (st' : BlockStorage) (d' : FileDescriptor) : Prop :=
  (∀ m, bitmap st' !! m = bitmap st !! m
        ∨ (bitmap st !! m = Some 0 ∧ bitmap st' !! m = Some 1))
  ∧ (∃ news, get_blocks d' ≡ₚ news ++ get_blocks d
       ∧ NoDup news
       ∧ ∀ b, b ∈ news → 0 ≤ b ∧ bitmap st !! Z.to_nat b = Some 0
                         ∧ bitmap st' !! Z.to_nat b = Some 1)
  ∧ storage_shape st'
  ∧ hard_links d' = hard_links d.

(** ** Small file systems used as examples *)

(** The state [FileSystem(num_blocks, block_size, max_files)] builds when
    the constructor accepts the geometry. *)
Definition fresh (nb bs mf : Z) : FileSystem :=
  mkFileSystem
    (mkBlockStorage bs nb
       (replicate (Z.to_nat nb) (replicate (Z.to_nat bs) x00))
       (replicate (Z.to_nat nb) 0))
    mf (replicate (Z.to_nat mf) None) ∅ ∅ 0.

Definition bytes_of_string (t : string) : list byte :=
  String.list_byte_of_string t.

(** One file ["a"] open on handle 0: over four blocks of four bytes, and
    over twelve blocks of one byte. *)
Definition one_open_file : FileSystem := run (fresh 4 4 2) [Create "a"; Open "a"].
Definition one_open_file_small_blocks : FileSystem := run (fresh 12 1 1) [Create "a"; Open "a"].

(** The file ["a"] with six bytes in two blocks and its descriptor, and the
    calls that leave this file without a name and without a handle. *)
Definition two_block_file : FileSystem :=
  run one_open_file [Write 0 (bytes_of_string "abcdef")].
Definition two_block_descriptor : FileDescriptor :=
  mkFileDescriptor "regular" 1 6 [0; 1; -1; -1; -1; -1; -1; -1; -1; -1] (-1).
Definition closed_orphan_script : list call :=
  [Create "a"; Open "a"; Write 0 (bytes_of_string "abcdef"); Unlink "a"; Close 0].

(** ** More vocabulary *)

(** [add_block] called for the blocks of a list, one after the other, up
    to the first call that raises. *)
Fixpoint add_blocks (l : list Z) (d : FileDescriptor) : outcome unit * FileDescriptor :=
  match l with
  | [] => (Ret tt, d)
  | b :: l' =>
      match add_block b d with
      | (Ret _, d1) => add_blocks l' d1
      | (Raise e, d1) => (Raise e, d1)
      | (Diverge, d1) => (Diverge, d1)
      end
  end.

(** The states a file system goes through: from its construction, by any
    calls, and by calls whose [truncate] sizes are not negative. *)
Definition reachable (s : FileSystem) : Prop :=
  ∃ nb bs mf s0 cs, FileSystem_init nb bs mf = Ret s0 ∧ s = run s0 cs.

Definition reachable_sane (s : FileSystem) : Prop :=
  ∃ nb bs mf s0 cs,
    FileSystem_init nb bs mf = Ret s0 ∧ Forall sane_call cs ∧ s = run s0 cs.

(** Every open handle was handed out by [open]: its id is below the next
    one. *)
Definition handles_below (s : FileSystem) : Prop :=
  ∀ h x, open_files s !! h = Some x → h < next_fd s.

(** The geometry of a storage: block size and number of blocks. *)
Definition geometry (st : BlockStorage) : Z * Z := (num_blocks st, block_size st).

(** What [create] gives every descriptor and no call takes away: the type
    ["regular"], no indirect block, and at most [max_direct_blocks] entries
    in [direct_blocks]. *)
Definition descriptor_shape (d : FileDescriptor) : Prop :=
  file_type d = "regular"
  ∧ indirect_block d = -1
  ∧ (length (direct_blocks d) ≤ Z.to_nat max_direct_blocks_default)%nat.

Definition descriptors_shaped (s : FileSystem) : Prop :=
  Forall (λ o, ∀ d, o = Some d → descriptor_shape d) (file_descriptors s).

(** * Properties *)

(** ** Python indexing *)

Lemma norm_lt len i n : Py.norm len i = Some n → (n < len)%nat.
Proof.
  unfold Py.norm. repeat case_match; intros [= <-]; lia.
Qed.

Lemma norm_nonneg len i : 0 ≤ i → i < Z.of_nat len → Py.norm len i = Some (Z.to_nat i).
Proof.
  intros H1 H2. unfold Py.norm.
  destruct (Z.leb_spec 0 i); [|lia]. destruct (Z.ltb_spec i (Z.of_nat len)); [done|lia].
Qed.

Lemma get_nonneg {A} (l : list A) i : 0 ≤ i → Py.get l i = l !! Z.to_nat i.
Proof.
  intros H. unfold Py.get, Py.norm.
  destruct (Z.leb_spec 0 i); [|lia].
  destruct (Z.ltb_spec i (Z.of_nat (length l))); [done|].
  symmetry. apply lookup_ge_None. lia.
Qed.

Lemma get_Some {A} (l : list A) i x :
  Py.get l i = Some x → ∃ n, Py.norm (length l) i = Some n ∧ l !! n = Some x.
Proof.
  unfold Py.get. destruct (Py.norm (length l) i) as [n|]; [|done]. eauto.
Qed.

Lemma set_nonneg {A} (l : list A) i v :
  0 ≤ i → i < Z.of_nat (length l) → Py.set l i v = Some (<[Z.to_nat i := v]> l).
Proof.
  intros H1 H2. unfold Py.set. by rewrite norm_nonneg.
Qed.

Lemma get_is_Some_set {A} (l : list A) i x v :
  Py.get l i = Some x → ∃ n, Py.norm (length l) i = Some n ∧ Py.set l i v = Some (<[n := v]> l).
Proof.
  intros (n & Hn & _)%get_Some. exists n. split; [done|]. unfold Py.set. by rewrite Hn.
Qed.

Lemma set_length {A} (l l' : list A) i v : Py.set l i v = Some l' → length l' = length l.
Proof.
  unfold Py.set. case_match; [|done]. intros [= <-]. apply length_insert.
Qed.

Lemma get_set_eq {A} (l l' : list A) i v : Py.set l i v = Some l' → Py.get l' i = Some v.
Proof.
  intros H. pose proof (set_length _ _ _ _ H) as Hlen. revert H.
  unfold Py.set, Py.get. rewrite Hlen.
  destruct (Py.norm (length l) i) as [n|] eqn:Hn; [|done]. intros [= <-].
  apply list_lookup_insert_eq. by apply norm_lt in Hn.
Qed.

Lemma bound_nonneg len i : 0 ≤ i → Py.bound len i = Nat.min (Z.to_nat i) len.
Proof. intros H. unfold Py.bound. destruct (Z.leb_spec 0 i); [done|lia]. Qed.

Lemma slice_length {A} (l : list A) a b :
  0 ≤ a → a ≤ b → b ≤ Z.of_nat (length l) → length (Py.slice l a b) = Z.to_nat (b - a).
Proof.
  intros Ha Hab Hb. unfold Py.slice.
  rewrite !bound_nonneg by lia. rewrite length_take, length_drop. lia.
Qed.

Lemma slice_take_drop {A} (l : list A) a b :
  0 ≤ a → a ≤ b → b ≤ Z.of_nat (length l) →
  Py.slice l a b = take (Z.to_nat (b - a)) (drop (Z.to_nat a) l).
Proof.
  intros Ha Hab Hb. unfold Py.slice. rewrite !bound_nonneg by lia.
  f_equal; [lia|]. f_equal. lia.
Qed.

(** ** Reading *)

Lemma get_blocks_set_size d n : get_blocks (set_size d n) = get_blocks d.
Proof. done. Qed.

Lemma put_slot_get s i d0 d :
  Py.get (file_descriptors s) i = Some d0 →
  Py.get (file_descriptors (put_slot s i d)) i = Some d.
Proof.
  intros H. unfold put_slot.
  destruct (get_is_Some_set _ _ _ d H) as (n & Hn & Hset). rewrite Hset. simpl.
  by apply get_set_eq in Hset.
Qed.

Lemma put_slot_block_storage s i d : block_storage (put_slot s i d) = block_storage s.
Proof. unfold put_slot. by destruct (Py.set _ _ _). Qed.

Lemma put_slot_open_files s i d : open_files (put_slot s i d) = open_files s.
Proof. unfold put_slot. by destruct (Py.set _ _ _). Qed.

Lemma put_slot_directory s i d : directory (put_slot s i d) = directory s.
Proof. unfold put_slot. by destruct (Py.set _ _ _). Qed.

(** A read that starts at or after the end of the block list raises
    [IndexError] on its first block. *)
Lemma read_loop_past_blocks fuel st blks sz cur acc :
  0 < block_size st → 0 < sz → (0 < fuel)%nat →
  Z.of_nat (length blks) * block_size st ≤ cur →
  read_loop fuel st blks sz cur acc = Raise IndexError.
Proof.
  intros Hbs Hsz Hfuel Hcur. destruct fuel as [|fuel]; [lia|]. simpl.
  destruct (Z.leb_spec sz 0); [lia|].
  unfold Py.floordiv, Py.modulo. destruct (Z.eqb_spec (block_size st) 0); [lia|].
  assert (Z.of_nat (length blks) ≤ cur / block_size st) as Hq.
  { apply Z.div_le_lower_bound; lia. }
  rewrite get_nonneg by lia.
  rewrite (lookup_ge_None_2 blks) by lia. done.
Qed.

(** C10: a write of no bytes allocates nothing and stores nothing, yet sets
    the size to [max(size, cursor)]; with the cursor beyond the end of the
    file the size grows without blocks behind it, and a read that then
    starts past the blocks the descriptor holds raises [IndexError]. *)
Theorem empty_write_grows_size_without_blocks s h i c d :
  open_files s !! h = Some (i, c) →
  Py.get (file_descriptors s) i = Some (Some d) →
  ∃ s', write h [] s = (Ret tt, s')
    ∧ block_storage s' = block_storage s
    ∧ open_files s' = open_files s
    ∧ Py.get (file_descriptors s') i = Some (Some (set_size d (Z.max (size d) c)))
    ∧ get_blocks (set_size d (Z.max (size d) c)) = get_blocks d
    ∧ (0 < block_size (block_storage s) →
       ∀ p sz, 0 < sz →
         Z.of_nat (length (get_blocks d)) * block_size (block_storage s) ≤ p →
         p < Z.max (size d) c →
         read_bytes h sz (seek h p s').2 = (Raise IndexError, (seek h p s').2)).
Proof.
  intros Hh Hd. unfold write. rewrite Hh, Hd. simpl.
  eexists. split; [reflexivity|]. simpl.
  assert (Py.get (file_descriptors
            (put_slot (set_block_storage s (block_storage s)) i
               (Some (set_size d (Z.max (size d) c))))) i
          = Some (Some (set_size d (Z.max (size d) c)))) as Hget.
  { eapply put_slot_get. simpl. exact Hd. }
  split_and!.
  - by rewrite put_slot_block_storage.
  - by apply insert_id.
  - exact Hget.
  - done.
  - intros Hbs p sz Hsz Hp Hlt.
    unfold seek. cbn [open_files set_open_files]. rewrite lookup_insert_eq.
    unfold read_bytes. cbn [snd open_files set_open_files file_descriptors block_storage].
    rewrite lookup_insert_eq, Hget. cbn [size set_size].
    assert (block_storage (put_slot (set_block_storage s (block_storage s)) i
               (Some (set_size d (Z.max (size d) c)))) = block_storage s) as Hst.
    { by rewrite put_slot_block_storage. }
    rewrite Hst.
    set (sz' := if Z.max (size d) c <? p + sz then Z.max (size d) c - p else sz).
    assert (0 < sz') as Hsz'.
    { unfold sz'. case_match; lia. }
    rewrite read_loop_past_blocks; [done|done|done|lia|].
    by rewrite get_blocks_set_size.
Qed.

Lemma read_block_sized st b buf :
  blocks_sized st → read_block b st = Ret buf → length buf = Z.to_nat (block_size st).
Proof.
  intros Hsz. unfold read_block. destruct (Py.get (blocks st) b) as [x|] eqn:Hg; [|done].
  intros [= <-]. apply get_Some in Hg as (n & _ & Hn).
  unfold blocks_sized in Hsz. rewrite Forall_lookup in Hsz. by eapply Hsz.
Qed.

(** The loop of [read] gathers exactly [max 0 sz] bytes and moves the
    offset by as many. *)
Lemma read_loop_length fuel st blks : ∀ sz cur acc out cur',
  0 < block_size st → blocks_sized st →
  read_loop fuel st blks sz cur acc = Ret (out, cur') →
  Z.of_nat (length out) = Z.of_nat (length acc) + Z.max 0 sz ∧ cur' = cur + Z.max 0 sz.
Proof.
  induction fuel as [|fuel IH]; intros sz cur acc out cur' Hbs Hsized; simpl.
  - destruct (Z.leb_spec sz 0); [|done]. intros [= <- <-]. lia.
  - destruct (Z.leb_spec sz 0); [intros [= <- <-]; lia|].
    unfold Py.floordiv, Py.modulo. destruct (Z.eqb_spec (block_size st) 0); [lia|].
    destruct (Py.get blks (cur / block_size st)) as [b|]; [|done].
    destruct (read_block b st) as [buf| |] eqn:Hrd; [|done|done].
    intros Hloop. apply IH in Hloop as [Hlen ->]; [|done|done].
    pose proof (read_block_sized _ _ _ Hsized Hrd) as Hbuf.
    pose proof (Z.mod_pos_bound cur (block_size st) Hbs) as Hmod.
    rewrite length_app, slice_length in Hlen by lia. lia.
Qed.

Lemma read_loop_terminates fuel st blks : ∀ sz cur acc,
  0 < block_size st → (Z.to_nat sz ≤ fuel)%nat →
  read_loop fuel st blks sz cur acc ≠ Diverge.
Proof.
  induction fuel as [|fuel IH]; intros sz cur acc Hbs Hfuel; simpl.
  - destruct (Z.leb_spec sz 0); [done|lia].
  - destruct (Z.leb_spec sz 0); [done|].
    unfold Py.floordiv, Py.modulo. destruct (Z.eqb_spec (block_size st) 0); [lia|].
    destruct (Py.get blks (cur / block_size st)) as [b|]; [|done].
    destruct (read_block b st) as [buf| |] eqn:Hrd; [|done|].
    + apply IH; [done|].
      pose proof (Z.mod_pos_bound cur (block_size st) Hbs). lia.
    + unfold read_block in Hrd. by destruct (Py.get (blocks st) b).
Qed.

Lemma set_open_files_id s : set_open_files s (open_files s) = s.
Proof. by destruct s. Qed.

(** [read] up to its [return] fails with [FileNotFoundError] on an unknown
    handle; with the cursor at or past the size of the file it gathers no byte
    and leaves the cursor; and whenever it gets to its [return], it has
    gathered exactly [max 0 (min sz (size - cursor))] bytes, never reaching
    past the size of the file, and the cursor has advanced by that number.
    It never runs forever. *)
Lemma read_bytes_clamped s h sz :
  0 < block_size (block_storage s) →
  blocks_sized (block_storage s) →
  (open_files s !! h = None → read_bytes h sz s = (Raise FileNotFoundError, s))
  ∧ (∀ i off d,
       open_files s !! h = Some (i, off) →
       Py.get (file_descriptors s) i = Some (Some d) →
       (size d ≤ off → read_bytes h sz s = (Ret [], s))
       ∧ (read_bytes h sz s).1 ≠ Diverge
       ∧ (∀ data s', read_bytes h sz s = (Ret data, s') →
            Z.of_nat (length data) = Z.max 0 (Z.min sz (size d - off))
            ∧ (0 < Z.of_nat (length data) → off + Z.of_nat (length data) ≤ size d)
            ∧ s' = set_open_files s (<[h := (i, off + Z.of_nat (length data))]> (open_files s)))).
Proof.
  intros Hbs Hsized. split.
  - intros Hh. unfold read_bytes. by rewrite Hh.
  - intros i off d Hh Hd. unfold read_bytes. rewrite Hh, Hd.
    set (sz' := if size d <? off + sz then size d - off else sz).
    assert (sz' = Z.min sz (size d - off)) as Hsz'.
    { unfold sz'. destruct (Z.ltb_spec (size d) (off + sz)); lia. }
    split_and!.
    + intros Hpast. assert (sz' ≤ 0) as Hle by lia.
      destruct (Z.to_nat sz'); simpl; destruct (Z.leb_spec sz' 0); try lia;
        by rewrite insert_id, set_open_files_id.
    + pose proof (read_loop_terminates (Z.to_nat sz') (block_storage s) (get_blocks d)
                    sz' off [] Hbs ltac:(lia)) as Hnd.
      destruct (read_loop _ _ _ _ _ _) as [[out cur']| |]; simpl; done.
    + intros data s'.
      destruct (read_loop _ _ _ _ _ _) as [[out cur']| |] eqn:Hloop; [|done|done].
      intros [= <- <-].
      apply read_loop_length in Hloop as [Hlen ->]; [|done|done]. simpl in Hlen.
      split_and!; [lia|lia|]. do 2 f_equal. f_equal. lia.
Qed.

(** ** The block storage *)

Lemma storage_inv_init nb bs st : BlockStorage_init nb bs = Ret st → storage_inv st.
Proof.
  unfold BlockStorage_init. destruct (andb _ _) eqn:Hneg; [done|]. intros [= <-].
  unfold storage_inv, storage_shape. split_and!; simpl.
  - by rewrite !length_replicate.
  - apply andb_false_iff in Hneg as [H|H].
    + right. apply Z.ltb_ge in H. by replace (Z.to_nat nb) with 0%nat by lia.
    + left. by apply Z.ltb_ge in H.
  - intros n [_ Hn]%lookup_replicate. by apply lookup_replicate_2.
Qed.

Lemma allocate_scan_Ret bm k : ∀ i j,
  allocate_scan bm i k = Ret j → i ≤ j ∧ Py.get bm j = Some 0.
Proof.
  induction k as [|k IH]; intros i j; simpl; [done|].
  destruct (Py.get bm i) as [v|] eqn:Hg; [|done].
  destruct (Z.eqb_spec v 0) as [->|].
  - intros [= <-]. split; [lia|done].
  - intros H%IH. split; [lia|tauto].
Qed.

Lemma allocate_scan_not_diverge bm k i : allocate_scan bm i k ≠ Diverge.
Proof.
  revert i. induction k as [|k IH]; intros i; simpl; [done|].
  destruct (Py.get bm i) as [v|]; [|done]. by destruct (v =? 0).
Qed.

(** What [allocate_block] does when it returns: the block was free, is
    now used, and nothing else has changed. *)
Lemma allocate_block_Ret st b st' :
  allocate_block st = (Ret b, st') →
  0 ≤ b ∧ is_free st b
  ∧ ∃ n, Py.norm (length (bitmap st)) b = Some n
       ∧ st' = set_bitmap st (<[n := 1]> (bitmap st)).
Proof.
  unfold allocate_block.
  destruct (allocate_scan _ _ _) as [j| |] eqn:Hscan; [|done|done].
  apply allocate_scan_Ret in Hscan as [Hj Hfree].
  destruct (get_is_Some_set _ _ _ 1 Hfree) as (n & Hn & ->).
  intros [= <- <-]. split_and!; [done|done|]. eauto.
Qed.

Lemma allocate_block_fail st r st' :
  allocate_block st = (r, st') → (∀ b, r ≠ Ret b) → st' = st.
Proof.
  unfold allocate_block.
  destruct (allocate_scan _ _ _) as [j| |] eqn:Hscan.
  - destruct (Py.set _ _ _); intros [= <- <-] Hr; [by destruct (Hr j)|done].
  - by intros [= <- <-].
  - by intros [= <- <-].
Qed.

Lemma allocate_block_inv st : storage_inv st → storage_inv (allocate_block st).2.
Proof.
  intros [[Hlen Hbs] Hzero].
  destruct (allocate_block st) as [r st'] eqn:Halloc. simpl.
  destruct r as [b| |].
  - apply allocate_block_Ret in Halloc as (_ & _ & n & Hn & ->).
    unfold storage_inv, storage_shape. split_and!; simpl.
    + by rewrite length_insert.
    + destruct Hbs as [?|Hnil]; [by left|]. right. by rewrite Hnil.
    + intros m Hm. destruct (decide (n = m)) as [->|Hne].
      * apply norm_lt in Hn. rewrite list_lookup_insert_eq in Hm by done. done.
      * rewrite list_lookup_insert_ne in Hm by done. by apply Hzero.
  - apply allocate_block_fail in Halloc as ->; done.
  - apply allocate_block_fail in Halloc as ->; done.
Qed.

(** What [free_block] does to an allocated block of a well-formed
    storage. *)
Lemma free_block_used st b :
  storage_shape st → used st b →
  ∃ n, Py.norm (length (bitmap st)) b = Some n
     ∧ free_block b st =
         (Ret tt, set_blocks (set_bitmap st (<[n := 0]> (bitmap st)))
                    (<[n := zero_block st]> (blocks st))).
Proof.
  intros [Hlen Hbs] Hused. unfold used in Hused.
  destruct (get_is_Some_set _ _ _ 0 Hused) as (n & Hn & Hset).
  exists n. split; [done|]. unfold free_block. rewrite Hused, Hset. simpl.
  unfold Py.bytearray.
  destruct Hbs as [Hbs|Hnil]; [|apply norm_lt in Hn; rewrite Hnil in Hn; simpl in Hn; lia].
  destruct (Z.ltb_spec (block_size st) 0); [lia|].
  unfold Py.set. simpl. by rewrite Hlen, Hn.
Qed.

Lemma free_block_not_used st b v :
  Py.get (bitmap st) b = Some v → v ≠ 1 → free_block b st = (Ret tt, st).
Proof.
  intros Hg Hv. unfold free_block. rewrite Hg.
  by destruct (Z.eqb_spec v 1).
Qed.

Lemma free_block_inv st b : storage_inv st → storage_inv (free_block b st).2.
Proof.
  intros Hinv.
  destruct (Py.get (bitmap st) b) as [v|] eqn:Hg.
  - destruct (decide (v = 1)) as [->|Hv].
    + destruct (free_block_used st b (proj1 Hinv) Hg) as (n & Hn & ->). simpl.
      destruct Hinv as [[Hlen Hbs] Hzero].
      unfold storage_inv, storage_shape. split_and!; simpl.
      * by rewrite !length_insert.
      * destruct Hbs as [?|Hnil]; [by left|]. right. by rewrite Hnil.
      * intros m Hm. unfold zero_block. simpl.
        destruct (decide (n = m)) as [->|Hne].
        -- apply list_lookup_insert_eq. rewrite Hlen. by apply norm_lt in Hn.
        -- rewrite list_lookup_insert_ne in Hm by done.
           rewrite list_lookup_insert_ne by done. by apply Hzero.
    + by rewrite (free_block_not_used st b v).
  - unfold free_block. by rewrite Hg.
Qed.

Lemma write_block_used_inv st b data :
  storage_inv st → used st b → storage_inv (write_block b data st).2.
Proof.
  intros [[Hlen Hbs] Hzero] Hused. unfold write_block.
  destruct (block_size st <? Z.of_nat (length data)); [done|].
  destruct (Py.get (blocks st) b) as [buf|] eqn:Hg; [|done].
  destruct (get_is_Some_set _ _ _ (Py.store_prefix buf data) Hg) as (n & Hn & ->).
  simpl. unfold storage_inv, storage_shape. split_and!; simpl.
  - by rewrite length_insert.
  - done.
  - intros m Hm. rewrite list_lookup_insert_ne; [by apply Hzero|].
    intros <-. apply get_Some in Hused as (n' & Hn' & Hbit).
    rewrite Hlen in Hn. congruence.
Qed.

Lemma storage_run_inv cs : ∀ st,
  storage_inv st → writes_allocated st cs → storage_inv (storage_run st cs).
Proof.
  induction cs as [|c cs IH]; intros st Hinv Hw; [done|].
  destruct Hw as [Hc Hw]. simpl. apply IH; [|done].
  destruct c as [|b|b data]; simpl.
  - by apply allocate_block_inv.
  - by apply free_block_inv.
  - by apply write_block_used_inv.
Qed.

(** C9: in every state the block storage reaches from its construction by
    allocating, freeing and writing allocated blocks, [free_block] of a free
    block changes nothing, [free_block] of an allocated block marks it free
    and zero-fills it, and every free block reads back as [block_size] zero
    bytes. *)
Theorem freed_blocks_read_zero nb bs st0 cs st :
  BlockStorage_init nb bs = Ret st0 →
  writes_allocated st0 cs →
  st = storage_run st0 cs →
  (∀ b, is_free st b → free_block b st = (Ret tt, st))
  ∧ (∀ b, used st b →
       ∃ st', free_block b st = (Ret tt, st') ∧ is_free st' b
              ∧ read_block b st' = Ret (zero_block st'))
  ∧ (∀ b, is_free st b → read_block b st = Ret (zero_block st)).
Proof.
  intros Hinit Hw ->.
  pose proof (storage_run_inv cs st0 (storage_inv_init _ _ _ Hinit) Hw) as Hinv.
  set (st := storage_run st0 cs) in *.
  assert (∀ st1 b, storage_inv st1 → is_free st1 b →
            read_block b st1 = Ret (zero_block st1)) as Hread.
  { intros st1 b [[Hlen _] Hzero] (n & Hn & Hbit)%get_Some.
    unfold read_block, Py.get. rewrite Hlen, Hn. by rewrite (Hzero n Hbit). }
  split_and!.
  - intros b Hfree. by apply (free_block_not_used st b 0).
  - intros b Hused.
    pose proof (free_block_inv st b Hinv) as Hinv'.
    destruct (free_block_used st b (proj1 Hinv) Hused) as (n & Hn & Heq).
    rewrite Heq in Hinv' |- *. simpl in Hinv'.
    eexists. split; [done|].
    assert (is_free (set_blocks (set_bitmap st (<[n:=0]> (bitmap st)))
                       (<[n:=zero_block st]> (blocks st))) b) as Hfree.
    { unfold is_free, Py.get. simpl. rewrite length_insert, Hn.
      apply list_lookup_insert_eq. by apply norm_lt in Hn. }
    split; [done|]. by apply Hread.
  - intros b Hfree. by apply Hread.
Qed.

(** ** Freeing the blocks of a descriptor *)

Lemma free_block_effect st b :
  storage_shape st → used st b ∨ is_free st b →
  ∃ st', free_block b st = (Ret tt, st')
    ∧ storage_shape st' ∧ is_free st' b
    ∧ block_size st' = block_size st ∧ num_blocks st' = num_blocks st
    ∧ length (bitmap st') = length (bitmap st)
    ∧ (∀ m, bitmap st !! m = Some 0 → bitmap st' !! m = Some 0)
    ∧ (∀ m, Py.norm (length (bitmap st)) b ≠ Some m →
         bitmap st' !! m = bitmap st !! m ∧ blocks st' !! m = blocks st !! m).
Proof.
  intros Hshape [Hused|Hfree].
  - destruct (free_block_used st b Hshape Hused) as (n & Hn & Heq).
    eexists. split; [exact Heq|].
    pose proof (norm_lt _ _ _ Hn) as Hlt. destruct Hshape as [Hlen Hbs].
    unfold storage_shape. split_and!; simpl; try done.
    + by rewrite !length_insert.
    + destruct Hbs as [?|Hnil]; [by left|]. right. by rewrite Hnil.
    + unfold is_free, Py.get. simpl. rewrite length_insert, Hn.
      by apply list_lookup_insert_eq.
    + by rewrite length_insert.
    + intros m Hm. destruct (decide (n = m)) as [->|Hne].
      * by apply list_lookup_insert_eq.
      * by rewrite list_lookup_insert_ne.
    + intros m Hm. assert (n ≠ m) by congruence.
      by rewrite !list_lookup_insert_ne.
  - exists st. split; [by apply (free_block_not_used st b 0)|].
    split_and!; done.
Qed.

Lemma is_free_mono st st' b :
  length (bitmap st') = length (bitmap st) →
  (∀ m, bitmap st !! m = Some 0 → bitmap st' !! m = Some 0) →
  is_free st b → is_free st' b.
Proof.
  intros Hlen Hmono (n & Hn & Hbit)%get_Some.
  unfold is_free, Py.get. rewrite Hlen, Hn. by apply Hmono.
Qed.

Lemma free_blocks_effect l : ∀ st,
  storage_shape st → (∀ b, b ∈ l → used st b ∨ is_free st b) →
  ∃ st', free_blocks l st = (Ret tt, st')
    ∧ storage_shape st' ∧ (∀ b, b ∈ l → is_free st' b)
    ∧ block_size st' = block_size st ∧ num_blocks st' = num_blocks st
    ∧ length (bitmap st') = length (bitmap st)
    ∧ (∀ m, bitmap st !! m = Some 0 → bitmap st' !! m = Some 0)
    ∧ (∀ m, (∀ b, b ∈ l → Py.norm (length (bitmap st)) b ≠ Some m) →
         bitmap st' !! m = bitmap st !! m ∧ blocks st' !! m = blocks st !! m).
Proof.
  induction l as [|b l IH]; intros st Hinv Hl; simpl.
  - exists st. split_and!; try done. intros b Hb. by apply elem_of_nil in Hb.
  - destruct (free_block_effect st b Hinv) as
      (st1 & -> & Hinv1 & Hfree1 & Hbs1 & Hnb1 & Hlen1 & Hmono1 & Hsame1).
    { apply Hl. by left. }
    destruct (IH st1 Hinv1) as (st2 & -> & Hinv2 & Hfree2 & Hbs2 & Hnb2 & Hlen2 & Hmono2 & Hsame2).
    { intros b' Hb'. destruct (Hl b') as [Hu|Hf]; [by right| |].
      - destruct (get_Some _ _ _ Hu) as (n & Hn & Hbit).
        destruct (decide (Py.norm (length (bitmap st)) b = Some n)) as [Heq|Hne].
        + right. destruct (get_Some _ _ _ Hfree1) as (n1 & Hn1 & Hbit1).
          rewrite Hlen1, Heq in Hn1. injection Hn1 as <-.
          unfold is_free, Py.get. by rewrite Hlen1, Hn.
        + left. unfold used, Py.get. rewrite Hlen1, Hn.
          destruct (Hsame1 n Hne) as [-> _]. done.
      - right. by apply (is_free_mono st). }
    exists st2. split_and!; try done; try congruence.
    + intros b' [->|Hb']%elem_of_cons; [|by apply Hfree2].
      by apply (is_free_mono st1).
    + intros m Hm. by apply Hmono2, Hmono1.
    + intros m Hm. destruct (Hsame2 m) as [-> ->].
      { intros b' Hb'. rewrite Hlen1. apply Hm. by right. }
      apply Hsame1, Hm. by left.
Qed.

Lemma elem_of_handle_targets (o : gmap Z (Z * Z)) i :
  i ∈ handle_targets o ↔ ∃ h off, o !! h = Some (i, off).
Proof.
  unfold handle_targets. rewrite list_elem_of_fmap. split.
  - intros ([h [j off]] & -> & Hin). apply elem_of_map_to_list in Hin. eauto.
  - intros (h & off & Hh). exists (h, (i, off)). split; [done|].
    by apply elem_of_map_to_list.
Qed.

(** C5: [unlink] of an absent name raises [FileNotFoundError]; otherwise it
    removes the name and decrements [hard_links]; when the count reaches 0
    and no open handle references the descriptor, every block of the
    descriptor is freed and the slot is cleared; in every other case, and in
    particular while a handle is open, the descriptor stays in its slot and
    the storage is untouched. *)
Theorem unlink_reclaims_iff_unreferenced s name :
  (directory s !! name = None → unlink name s = (Raise FileNotFoundError, s))
  ∧ (∀ i d,
       directory s !! name = Some i →
       Py.get (file_descriptors s) i = Some (Some d) →
       storage_shape (block_storage s) →
       (∀ b, b ∈ get_blocks d → used (block_storage s) b) →
       ∃ s', unlink name s = (Ret tt, s')
         ∧ directory s' = delete name (directory s)
         ∧ open_files s' = open_files s
         ∧ (hard_links d - 1 = 0 ∧ ¬ (∃ h off, open_files s !! h = Some (i, off)) →
              Py.get (file_descriptors s') i = Some None
              ∧ ∀ b, b ∈ get_blocks d → is_free (block_storage s') b)
         ∧ (¬ (hard_links d - 1 = 0 ∧ ¬ (∃ h off, open_files s !! h = Some (i, off))) →
              Py.get (file_descriptors s') i = Some (Some (set_hard_links d (hard_links d - 1)))
              ∧ block_storage s' = block_storage s)).
Proof.
  split.
  - intros Hn. unfold unlink. by rewrite Hn.
  - intros i d Hn Hd Hinv Hused. unfold unlink. rewrite Hn.
    cbn [file_descriptors set_directory]. rewrite Hd.
    set (s1 := set_directory s (delete name (directory s))).
    set (d' := set_hard_links d (hard_links d - 1)).
    assert (Py.get (file_descriptors (put_slot s1 i (Some d'))) i = Some (Some d')) as Hget.
    { by apply (put_slot_get s1 i (Some d)). }
    rewrite put_slot_open_files. cbn [hard_links set_hard_links d'].
    destruct (Z.eqb_spec (hard_links d - 1) 0) as [Hz|Hnz]; cbn [andb].
    + destruct (bool_decide_reflect (i ∈ handle_targets (open_files s1))) as [Hin|Hnin];
        cbn [negb].
      * eexists. split; [done|]. rewrite put_slot_directory, put_slot_open_files.
        split_and!; [done|done| |].
        -- intros [_ Hno]. apply elem_of_handle_targets in Hin. by destruct Hno.
        -- intros _. by rewrite put_slot_block_storage.
      * rewrite put_slot_block_storage. cbn [block_storage s1 set_directory].
        destruct (free_blocks_effect (get_blocks d') (block_storage s) Hinv)
          as (st' & -> & _ & Hfree & _).
        { intros b Hb. left. by apply Hused. }
        eexists. split; [done|].
        rewrite put_slot_directory, put_slot_open_files. cbn [directory open_files set_block_storage].
        rewrite put_slot_directory, put_slot_open_files.
        split_and!; [done|done| |].
        -- intros _. split.
           ++ eapply put_slot_get. cbn [file_descriptors set_block_storage]. exact Hget.
           ++ rewrite put_slot_block_storage. exact Hfree.
        -- intros Hnot. exfalso. apply Hnot. split; [done|].
           intros Hex. apply Hnin. by apply elem_of_handle_targets.
    + eexists. split; [done|]. rewrite put_slot_directory, put_slot_open_files.
      split_and!; [done|done| |].
      * intros [Hz _]. done.
      * intros _. by rewrite put_slot_block_storage.
Qed.

(** ** Writing away from the start of a block *)

(** C1 (the code departs from it): with ["abcd"] in the file and the cursor
    moved to 2 by [seek], writing ["xy"] puts the two bytes at the start of
    the block, not at offset 2: the file then reads ["xycd"], so bytes 2..3
    are not the data written and bytes 0..1 have been overwritten. *)
Theorem write_ignores_offset_in_block :
  let s := run one_open_file [Write 0 (bytes_of_string "abcd"); Seek 0 2] in
  open_files s !! 0 = Some (0, 2)
  ∧ (write 0 (bytes_of_string "xy") s).1 = Ret tt
  ∧ let s' := run s [Write 0 (bytes_of_string "xy"); Seek 0 0] in
    (read_bytes 0 4 s').1 = Ret (bytes_of_string "xycd")
    ∧ (read_bytes 0 4 s').1 ≠ Ret (bytes_of_string "abxy").
Proof. vm_compute. split_and!; done. Qed.

(** ** The length of [direct_blocks] *)

(** C3 (the code departs from it): a file of two blocks truncated to two
    bytes is left with a [direct_blocks] list of length 1, not 10; the file
    can then not grow again, although it holds a single block. *)
Theorem truncate_shortens_direct_blocks :
  let s := run one_open_file [Write 0 (bytes_of_string "abcdef")] in
  let s' := run s [Truncate "a" 2] in
  (length ∘ direct_blocks) <$> descriptor_of "a" s = Some 10%nat
  ∧ (truncate "a" 2 s).1 = Ret tt
  ∧ (length ∘ direct_blocks) <$> descriptor_of "a" s' = Some 1%nat
  ∧ (truncate "a" 8 s').1 = Raise (RuntimeError "No free direct blocks, indirect block needed").
Proof. vm_compute. split_and!; done. Qed.

(** ** A write that fails *)

Lemma get_after_set {A} (l l' : list A) i j v :
  Py.set l i v = Some l' →
  Py.get l' j = if decide (Py.norm (length l) j = Py.norm (length l) i)
                then Some v else Py.get l j.
Proof.
  intros H. pose proof (set_length _ _ _ _ H) as Hlen. revert H.
  unfold Py.set, Py.get. rewrite Hlen.
  destruct (Py.norm (length l) i) as [n|] eqn:Hn; [|done]. intros [= <-].
  destruct (Py.norm (length l) j) as [m|] eqn:Hm.
  - case_decide as Heq.
    + injection Heq as ->. apply list_lookup_insert_eq. by apply norm_lt in Hn.
    + apply list_lookup_insert_ne. congruence.
  - by case_decide.
Qed.

Lemma add_block_fields b d r d' :
  add_block b d = (r, d') →
  size d' = size d ∧ hard_links d' = hard_links d ∧ file_type d' = file_type d.
Proof.
  unfold add_block. destruct (fill_first_empty _ _); by intros [= <- <-].
Qed.

Lemma ensure_block_fields bi st d r st' d' :
  ensure_block bi st d = (r, (st', d')) →
  size d' = size d ∧ hard_links d' = hard_links d ∧ file_type d' = file_type d.
Proof.
  unfold ensure_block.
  destruct (if Z.of_nat (length (direct_blocks d)) <=? bi then _ else _) as [[]| |];
    try by intros [= <- <- <-].
  destruct (allocate_block st) as [[nb| |] st1]; try by intros [= <- <- <-].
  destruct (add_block nb d) as [[[]| |] d1] eqn:Hadd;
    intros [= <- <- <-]; by apply add_block_fields in Hadd.
Qed.

Lemma write_chunk_fields data cur st d r st' d' :
  write_chunk data cur st d = (r, (st', d')) →
  size d' = size d ∧ hard_links d' = hard_links d ∧ file_type d' = file_type d.
Proof.
  unfold write_chunk.
  destruct (Py.floordiv cur (block_size st)) as [bi| |],
           (Py.modulo cur (block_size st)) as [bo| |]; try by intros [= <- <- <-].
  destruct (ensure_block bi st d) as [[[]| |] [st1 d1]] eqn:Hens;
    apply ensure_block_fields in Hens; try by intros [= <- <- <-].
  destruct (Py.get (direct_blocks d1) bi) as [b|]; [|by intros [= <- <- <-]].
  destruct (write_block b _ st1) as [[[]| |] st2]; by intros [= <- <- <-].
Qed.

Lemma write_loop_fields fuel : ∀ data cur st d r st' d',
  write_loop fuel data cur st d = (r, (st', d')) →
  size d' = size d ∧ hard_links d' = hard_links d ∧ file_type d' = file_type d.
Proof.
  induction fuel as [|fuel IH]; intros data cur st d r st' d'; simpl.
  - destruct data; by intros [= <- <- <-].
  - destruct data as [|x data]; [by intros [= <- <- <-]|].
    destruct (write_chunk (x :: data) cur st d) as [[[data1 cur1]| |] [st1 d1]] eqn:Hchunk;
      apply write_chunk_fields in Hchunk as (? & ? & ?).
    + intros (? & ? & ?)%IH. split_and!; congruence.
    + by intros [= <- <- <-].
    + by intros [= <- <- <-].
Qed.

Lemma slot_put_slot s i j d0 d1 :
  slot s i = Some d0 → size d1 = size d0 →
  size <$> slot (put_slot s i (Some d1)) j = size <$> slot s j.
Proof.
  unfold slot, put_slot. intros Hi Hsz.
  destruct (Py.get (file_descriptors s) i) as [[d|]|] eqn:Hg; [|done|done].
  injection Hi as ->.
  destruct (get_is_Some_set _ _ _ (Some d1) Hg) as (n & Hn & Hset). rewrite Hset.
  cbn [file_descriptors set_file_descriptors].
  rewrite (get_after_set _ _ _ j _ Hset). case_decide as Heq; [|done].
  unfold Py.get. rewrite Heq, Hn.
  apply get_Some in Hg as (n' & Hn' & Hl). assert (n' = n) as -> by congruence.
  rewrite Hl. simpl. by rewrite Hsz.
Qed.

(** A write that raises leaves the handle table, and so the cursor, and
    the size of every descriptor as they were before the call; when it raises
    inside the loop, the storage and the descriptor are left in the state the
    loop had reached. *)
Lemma failed_write_frame s h data e s' :
  write h data s = (Raise e, s') →
  open_files s' = open_files s
  ∧ directory s' = directory s
  ∧ (∀ j, size <$> slot s' j = size <$> slot s j)
  ∧ (s' = s
     ∨ ∃ i off d st d1,
         open_files s !! h = Some (i, off)
         ∧ slot s i = Some d
         ∧ write_loop (length data) data off (block_storage s) d = (Raise e, (st, d1))
         ∧ block_storage s' = st
         ∧ slot s' i = Some d1).
Proof.
  unfold write.
  destruct (open_files s !! h) as [[i off]|] eqn:Hh; [|intros [= <- <-]; tauto].
  destruct (Py.get (file_descriptors s) i) as [[d|]|] eqn:Hd.
  - destruct (write_loop _ _ _ _ _) as [[cur| |] [st d1]] eqn:Hloop; [done| |done].
    intros [= <- <-].
    pose proof (write_loop_fields _ _ _ _ _ _ _ _ Hloop) as (Hsz & _).
    assert (slot (set_block_storage s st) i = Some d) as Hslot.
    { unfold slot. cbn [file_descriptors set_block_storage]. by rewrite Hd. }
    rewrite put_slot_open_files, put_slot_directory. split_and!; [done|done| |].
    + intros j. by rewrite (slot_put_slot _ i j d d1).
    + right. exists i, off, d, st, d1. split_and!; try done.
      * by rewrite put_slot_block_storage.
      * unfold slot. erewrite put_slot_get; [done|].
        cbn [file_descriptors set_block_storage]. exact Hd.
  - destruct data; [|destruct (_ =? _)]; intros [= <- <-]; tauto.
  - intros [= <- <-]; tauto.
Qed.

(** C4 as the claim words it fails: twelve bytes written to a fresh file over
    blocks of one byte fill the ten direct blocks, then [add_block] raises;
    the ten chunks stay in their blocks, but neither the size nor the
    cursor is at the partly advanced value 10: both are still 0. *)
Lemma failed_write_does_not_advance :
  let r := write 0 (bytes_of_string "abcdefghijkl") one_open_file_small_blocks in
  r.1 = Raise (RuntimeError "No free direct blocks, indirect block needed")
  ∧ take 10 (blocks (block_storage r.2)) = (λ x, [x]) <$> bytes_of_string "abcdefghij"
  ∧ ¬ (size <$> slot r.2 0 = Some 10 ∧ open_files r.2 !! 0 = Some (0, 10))
  ∧ size <$> slot r.2 0 = Some 0 ∧ open_files r.2 !! 0 = Some (0, 0).
Proof. vm_compute. split_and!; try done. intros [[=] _]. Qed.

(** ** Allocation *)

Lemma norm_nonneg_inv len b n :
  0 ≤ b → Py.norm len b = Some n → n = Z.to_nat b ∧ b < Z.of_nat len.
Proof.
  intros Hb. unfold Py.norm. destruct (Z.leb_spec 0 b); [|lia].
  destruct (Z.ltb_spec b (Z.of_nat len)); [|done]. by intros [= <-].
Qed.

Lemma allocate_scan_success bm k : ∀ i,
  0 ≤ i → (Z.to_nat i + k = length bm)%nat →
  (∃ n, (Z.to_nat i ≤ n)%nat ∧ bm !! n = Some 0) →
  ∃ j, allocate_scan bm i k = Ret j.
Proof.
  induction k as [|k IH]; intros i Hi Hlen (n & Hn & Hbit).
  - apply lookup_lt_Some in Hbit. lia.
  - simpl. rewrite get_nonneg by done.
    destruct (bm !! Z.to_nat i) as [v|] eqn:Hv.
    + destruct (Z.eqb_spec v 0) as [->|Hne]; [eauto|].
      apply IH; [lia|lia|]. exists n. split; [|done].
      assert (n ≠ Z.to_nat i) by (intros ->; congruence). lia.
    + apply lookup_ge_None in Hv. lia.
Qed.

Lemma free_count_pos st : (0 < free_count st)%nat → ∃ n, bitmap st !! n = Some 0.
Proof.
  unfold free_count. destruct (filter _ (bitmap st)) as [|v l] eqn:Hf; simpl; [lia|].
  intros _. assert (v ∈ filter (λ v, v = 0) (bitmap st)) as Hin by (rewrite Hf; left).
  apply list_elem_of_filter in Hin as [-> Hin]. by apply list_elem_of_lookup.
Qed.

Lemma filter_zero_insert (l : list Z) : ∀ n,
  l !! n = Some 0 →
  S (length (filter (λ v, v = 0) (<[n := 1]> l))) = length (filter (λ v, v = 0) l).
Proof.
  induction l as [|x l IH]; intros [|n]; simpl; try done.
  - intros [= ->]. rewrite filter_cons_False by done. by rewrite filter_cons_True.
  - intros Hn. destruct (decide (x = 0)) as [->|Hx].
    + rewrite !filter_cons_True by done. simpl. f_equal. by apply IH.
    + rewrite !filter_cons_False by done. by apply IH.
Qed.

Lemma storage_ok_shape st : storage_ok st → storage_shape st.
Proof. intros (Hbs & _ & Hlen & _). split; [done|left; lia]. Qed.

(** With a free block left, [allocate_block] returns one. *)
Lemma allocate_block_success st :
  storage_ok st → (0 < free_count st)%nat →
  ∃ b, allocate_block st = (Ret b, set_bitmap st (<[Z.to_nat b := 1]> (bitmap st)))
     ∧ 0 ≤ b ∧ b < Z.of_nat (length (bitmap st))
     ∧ bitmap st !! Z.to_nat b = Some 0
     ∧ S (free_count (set_bitmap st (<[Z.to_nat b := 1]> (bitmap st)))) = free_count st
     ∧ storage_ok (set_bitmap st (<[Z.to_nat b := 1]> (bitmap st))).
Proof.
  intros (Hbs & Hnb & Hlen & Hsized) Hfree.
  destruct (free_count_pos st Hfree) as (n & Hn).
  destruct (allocate_scan_success (bitmap st) (Z.to_nat (num_blocks st)) 0) as [j Hscan];
    [lia|lia|exists n; split; [lia|done]|].
  destruct (allocate_block st) as [r st'] eqn:Halloc.
  assert (r = Ret j) as ->.
  { revert Halloc. unfold allocate_block. rewrite Hscan.
    apply allocate_scan_Ret in Hscan as [_ Hj].
    destruct (get_is_Some_set _ _ _ 1 Hj) as (m & _ & ->). by intros [= <- _]. }
  apply allocate_block_Ret in Halloc as (Hj & Hjfree & m & Hm & ->).
  apply norm_nonneg_inv in Hm as [-> Hlt]; [|done].
  exists j. unfold is_free in Hjfree. rewrite get_nonneg in Hjfree by done.
  split_and!; try done.
  - unfold free_count. simpl. by apply filter_zero_insert.
  - unfold storage_ok. simpl. rewrite length_insert. split_and!; done.
Qed.

Lemma fill_first_empty_app (bl rest : list Z) b :
  (∀ x, x ∈ bl → x ≠ -1) →
  fill_first_empty (bl ++ (-1) :: rest) b = Some (bl ++ b :: rest).
Proof.
  induction bl as [|x bl IH]; intros Hbl; simpl; [done|].
  destruct (Z.eqb_spec x (-1)) as [->|_].
  - exfalso. apply (Hbl (-1)); [left|done].
  - rewrite IH; [done|]. intros y Hy. apply Hbl. by right.
Qed.

Lemma filter_blocks_app (bl : list Z) m :
  (∀ x, x ∈ bl → x ≠ -1) →
  filter (λ b, b ≠ -1) (bl ++ replicate m (-1)) = bl.
Proof.
  intros Hbl. rewrite filter_app.
  assert (filter (λ b : Z, b ≠ -1) (replicate m (-1)) = []) as ->.
  { induction m as [|m IH]; simpl; [done|]. by rewrite filter_cons_False by (intros H; done). }
  rewrite app_nil_r. induction bl as [|x bl IH]; [done|].
  rewrite filter_cons_True by (apply Hbl; left). f_equal. apply IH.
  intros y Hy. apply Hbl. by right.
Qed.

(** ** Writing a fresh file from its start *)

Lemma take_min_length {A} (l : list A) n : take (Nat.min n (length l)) l = take n l.
Proof.
  destruct (Nat.le_ge_cases n (length l)).
  - by rewrite Nat.min_l.
  - rewrite Nat.min_r by done. by rewrite !take_ge.
Qed.

Lemma slice_to_take {A} (l : list A) n : 0 ≤ n → Py.slice_to l n = take (Z.to_nat n) l.
Proof.
  intros Hn. unfold Py.slice_to. rewrite bound_nonneg by done. apply take_min_length.
Qed.

Lemma slice_from_drop {A} (l : list A) n :
  (n ≤ length l)%nat → Py.slice_from l (Z.of_nat n) = drop n l.
Proof.
  intros Hn. unfold Py.slice_from. rewrite bound_nonneg by lia. f_equal. lia.
Qed.

(** ** The loop of [write] comes to an end *)

Lemma allocate_block_block_size st r st' :
  allocate_block st = (r, st') → block_size st' = block_size st ∧ r ≠ Diverge.
Proof.
  unfold allocate_block.
  pose proof (allocate_scan_not_diverge (bitmap st) (Z.to_nat (num_blocks st)) 0) as Hnd.
  destruct (allocate_scan _ _ _) as [j| |]; [| |done].
  - destruct (Py.set _ _ _); by intros [= <- <-].
  - by intros [= <- <-].
Qed.

Lemma ensure_block_block_size bi st d r st' d' :
  ensure_block bi st d = (r, (st', d')) → block_size st' = block_size st ∧ r ≠ Diverge.
Proof.
  unfold ensure_block.
  destruct (Z.of_nat (length (direct_blocks d)) <=? bi).
  - destruct (allocate_block st) as [r1 st1] eqn:Halloc.
    apply allocate_block_block_size in Halloc as [Hbs Hnd].
    destruct r1 as [nb| |]; [|by intros [= <- <- <-]|done].
    unfold add_block. destruct (fill_first_empty _ _); by intros [= <- <- <-].
  - destruct (Py.get (direct_blocks d) bi) as [b|]; [|by intros [= <- <- <-]].
    destruct (b =? -1); [|by intros [= <- <- <-]].
    destruct (allocate_block st) as [r1 st1] eqn:Halloc.
    apply allocate_block_block_size in Halloc as [Hbs Hnd].
    destruct r1 as [nb| |]; [|by intros [= <- <- <-]|done].
    unfold add_block. destruct (fill_first_empty _ _); by intros [= <- <- <-].
Qed.

Lemma write_block_block_size b data st r st' :
  write_block b data st = (r, st') → block_size st' = block_size st ∧ r ≠ Diverge.
Proof.
  unfold write_block. destruct (_ <? _); [by intros [= <- <-]|].
  destruct (Py.get _ _); [|by intros [= <- <-]].
  destruct (Py.set _ _ _); by intros [= <- <-].
Qed.

(** With blocks of a positive size a turn of the loop never runs forever,
    and when it returns it has consumed at least one byte. *)
Lemma write_chunk_progress data cur st d r st' d' :
  0 < block_size st → data ≠ [] →
  write_chunk data cur st d = (r, (st', d')) →
  block_size st' = block_size st
  ∧ r ≠ Diverge
  ∧ ∀ data' cur', r = Ret (data', cur') → (length data' < length data)%nat.
Proof.
  intros Hbs Hdata. unfold write_chunk, Py.floordiv, Py.modulo.
  destruct (Z.eqb_spec (block_size st) 0); [lia|].
  pose proof (Z.mod_pos_bound cur (block_size st) Hbs) as Hmod.
  destruct (ensure_block _ st d) as [r1 [st1 d1]] eqn:Hens.
  apply ensure_block_block_size in Hens as [Hbs1 Hnd1].
  destruct r1 as [[]| |]; [|by intros [= <- <- <-]|done].
  destruct (Py.get (direct_blocks d1) _) as [b|]; [|by intros [= <- <- <-]].
  destruct (write_block b _ st1) as [r2 st2] eqn:Hwb.
  apply write_block_block_size in Hwb as [Hbs2 Hnd2].
  destruct r2 as [[]| |];
    [|intros [= <- <- <-]; split_and!; [congruence|done|done]|done].
  intros [= <- <- <-]. split_and!; [congruence|done|].
  intros data' cur' [= <- _].
  rewrite slice_to_take by lia.
  assert (0 < length data)%nat by (destruct data; [done|simpl; lia]).
  rewrite slice_from_drop by (rewrite length_take; lia).
  rewrite length_drop, length_take. lia.
Qed.

Lemma write_loop_terminates fuel : ∀ data cur st d,
  0 < block_size st → (length data ≤ fuel)%nat →
  (write_loop fuel data cur st d).1 ≠ Diverge.
Proof.
  induction fuel as [|fuel IH]; intros data cur st d Hbs Hfuel.
  { destruct data; [done|simpl in Hfuel; lia]. }
  destruct data as [|x data0] eqn:Hdata; [done|]. rewrite <- Hdata in *.
  assert (data ≠ []) as Hne by (by rewrite Hdata).
  assert (write_loop (S fuel) data cur st d =
          match write_chunk data cur st d with
          | (Ret (data', cur'), (st1, d1)) => write_loop fuel data' cur' st1 d1
          | (Raise e, sd) => (Raise e, sd)
          | (Diverge, sd) => (Diverge, sd)
          end) as -> by (by rewrite Hdata).
  destruct (write_chunk data cur st d) as [r [st1 d1]] eqn:Hchunk.
  apply write_chunk_progress in Hchunk as (Hbs1 & Hnd & Hlen); [|done|done].
  destruct r as [[data' cur']| |]; [|done|done].
  apply IH; [lia|]. specialize (Hlen data' cur' eq_refl). lia.
Qed.

(** [write] returns or raises whenever blocks have a positive size. *)
Lemma write_terminates fd data s :
  0 < block_size (block_storage s) → (write fd data s).1 ≠ Diverge.
Proof.
  intros Hbs. unfold write.
  destruct (open_files s !! fd) as [[j off]|]; [|done].
  destruct (Py.get (file_descriptors s) j) as [[dj|]|]; [| |done].
  - pose proof (write_loop_terminates (length data) data off (block_storage s) dj Hbs
                  ltac:(lia)) as Hnd.
    by destruct (write_loop _ _ _ _ _) as [[cur| |] [st d1]].
  - destruct data; [done|]. by destruct (_ =? _).
Qed.

(** One turn of the loop of [write] at the start of the first block the
    descriptor does not hold yet: a block is allocated, takes the first empty
    slot, and receives the chunk. *)
Lemma write_chunk_append st d bl m data :
  storage_ok st →
  direct_blocks d = bl ++ replicate (S m) (-1) →
  (∀ b, b ∈ bl → 0 ≤ b) →
  data ≠ [] → (0 < free_count st)%nat →
  let cur := Z.of_nat (length bl) * block_size st in
  let chunk := take (Z.to_nat (block_size st)) data in
  ∃ b buf,
    0 ≤ b ∧ bitmap st !! Z.to_nat b = Some 0 ∧ blocks st !! Z.to_nat b = Some buf
    ∧ write_chunk data cur st d =
        (Ret (drop (length chunk) data, cur + Z.of_nat (length chunk)),
         (set_blocks (set_bitmap st (<[Z.to_nat b := 1]> (bitmap st)))
            (<[Z.to_nat b := chunk ++ drop (length chunk) buf]> (blocks st)),
          set_direct_blocks d (bl ++ b :: replicate m (-1)))).
Proof.
  intros Hok Hd Hbl Hdata Hfree cur chunk.
  pose proof Hok as (Hbs & Hnb & Hlen & Hsized).
  destruct (allocate_block_success st Hok Hfree) as (b & Halloc & Hb0 & Hblt & Hbit & _ & _).
  destruct (lookup_lt_is_Some_2 (blocks st) (Z.to_nat b)) as [buf Hbuf]; [lia|].
  exists b, buf. split_and!; [done|done|done|].
  assert (∀ x, x ∈ bl → x ≠ -1) as Hne.
  { intros x Hx%Hbl. lia. }
  unfold write_chunk, Py.floordiv, Py.modulo.
  destruct (Z.eqb_spec (block_size st) 0); [lia|].
  subst cur. rewrite Z.div_mul, Z.mod_mul by lia.
  unfold ensure_block. rewrite Hd, length_app, length_replicate.
  destruct (Z.leb_spec (Z.of_nat (length bl + S m)) (Z.of_nat (length bl))); [lia|].
  rewrite get_nonneg by lia. rewrite Nat2Z.id, lookup_app_r by lia.
  rewrite Nat.sub_diag. cbn [replicate lookup list_lookup]. rewrite Z.eqb_refl.
  rewrite Halloc. unfold add_block. rewrite Hd. cbn [replicate].
  rewrite fill_first_empty_app by done.
  cbn [direct_blocks set_direct_blocks block_size set_bitmap].
  rewrite get_nonneg by lia. rewrite Nat2Z.id, lookup_app_r by lia.
  rewrite Nat.sub_diag. cbn [lookup list_lookup].
  rewrite Z.sub_0_r, slice_to_take by lia. fold chunk.
  assert (length chunk ≤ Z.to_nat (block_size st))%nat as Hchunk.
  { unfold chunk. rewrite length_take. lia. }
  assert (length chunk ≤ length data)%nat as Hchunk'.
  { unfold chunk. rewrite length_take. lia. }
  unfold write_block. cbn [block_size set_bitmap blocks].
  destruct (Z.ltb_spec (block_size st) (Z.of_nat (length chunk))); [lia|].
  rewrite get_nonneg, Hbuf by done.
  rewrite set_nonneg by lia. by rewrite slice_from_drop.
Qed.

Lemma div_mod_block q r bs :
  0 < bs → 0 ≤ r < bs → (q * bs + r) / bs = q ∧ (q * bs + r) mod bs = r.
Proof.
  intros Hbs Hr. split.
  - symmetry. apply (Z.div_unique_pos _ _ _ r); lia.
  - symmetry. apply (Z.mod_unique_pos _ _ q); lia.
Qed.

(** The bytes below the end of the blocks [bl] are still found when the
    block list is extended and the buffers of [bl] are kept. *)
Lemma file_byte_prefix st st' bl ext p :
  0 < block_size st → block_size st' = block_size st →
  0 ≤ p < Z.of_nat (length bl) * block_size st →
  (∀ b, b ∈ bl → 0 ≤ b ∧ blocks st' !! Z.to_nat b = blocks st !! Z.to_nat b) →
  file_byte st' (bl ++ ext) p = file_byte st bl p.
Proof.
  intros Hbs Heq Hp Hbl. unfold file_byte. rewrite Heq.
  assert (0 ≤ p / block_size st < Z.of_nat (length bl)) as Hq.
  { split; [apply Z.div_pos; lia|apply Z.div_lt_upper_bound; lia]. }
  rewrite !get_nonneg by lia. rewrite lookup_app_l by lia.
  destruct (bl !! Z.to_nat (p / block_size st)) as [b|] eqn:Hb; [|done]. simpl.
  apply list_elem_of_lookup_2 in Hb. destruct (Hbl b Hb) as [Hb0 Hsame].
  rewrite !get_nonneg by done. by rewrite Hsame.
Qed.

(** The chunk written to the block appended last is found at the positions
    it was written for. *)
Lemma file_byte_last_block st bl b (chunk tail : list byte) k :
  0 < block_size st → 0 ≤ b →
  blocks st !! Z.to_nat b = Some (chunk ++ tail) →
  (k < length chunk)%nat → Z.of_nat (length chunk) ≤ block_size st →
  file_byte st (bl ++ [b]) (Z.of_nat (length bl) * block_size st + Z.of_nat k) = chunk !! k.
Proof.
  intros Hbs Hb Hbuf Hk Hchunk. unfold file_byte.
  destruct (div_mod_block (Z.of_nat (length bl)) (Z.of_nat k) (block_size st)) as [-> ->];
    [done|lia|].
  rewrite get_nonneg by lia. rewrite Nat2Z.id, lookup_app_r by lia.
  rewrite Nat.sub_diag. simpl.
  rewrite get_nonneg, Hbuf by done. simpl.
  rewrite get_nonneg by lia. rewrite Nat2Z.id. by apply lookup_app_l.
Qed.

(** The loop of [write] on a descriptor whose blocks [bl] are full and
    followed by [m] empty slots, with room for the data in the slots and in
    the storage: it returns, the blocks of the descriptor are extended, and
    the data is in the file from the old end of the blocks on. *)
Lemma write_loop_append fuel : ∀ data st d bl m,
  storage_ok st →
  direct_blocks d = bl ++ replicate m (-1) →
  NoDup bl →
  (∀ b, b ∈ bl → 0 ≤ b ∧ bitmap st !! Z.to_nat b = Some 1) →
  (length data ≤ fuel)%nat →
  Z.of_nat (length data) ≤ Z.of_nat m * block_size st →
  Z.of_nat (length data) ≤ Z.of_nat (free_count st) * block_size st →
  ∃ st' ext m',
    write_loop fuel data (Z.of_nat (length bl) * block_size st) st d =
      (Ret (Z.of_nat (length bl) * block_size st + Z.of_nat (length data)),
       (st', set_direct_blocks d ((bl ++ ext) ++ replicate m' (-1))))
    ∧ storage_ok st' ∧ block_size st' = block_size st
    ∧ NoDup (bl ++ ext)
    ∧ (∀ b, b ∈ bl ++ ext → 0 ≤ b ∧ bitmap st' !! Z.to_nat b = Some 1)
    ∧ (∀ b, b ∈ bl → blocks st' !! Z.to_nat b = blocks st !! Z.to_nat b)
    ∧ (∀ k, (k < length data)%nat →
         file_byte st' (bl ++ ext)
           (Z.of_nat (length bl) * block_size st + Z.of_nat k) = data !! k).
Proof.
  induction fuel as [|fuel IH]; intros data st d bl m Hok Hd Hnd Hbl Hfuel Hm Hfc.
  { destruct data; [|simpl in Hfuel; lia]. exists st, [], m. simpl.
    rewrite Z.add_0_r, app_nil_r, <- Hd. split_and!; try done.
    - by destruct d.
    - intros k Hk. lia. }
  destruct data as [|x data0] eqn:Hdata.
  { exists st, [], m. simpl.
    rewrite Z.add_0_r, app_nil_r, <- Hd. split_and!; try done.
    - by destruct d.
    - intros k Hk. lia. }
  rewrite <- Hdata in *. assert (data ≠ []) as Hne by (by rewrite Hdata).
  assert (0 < length data)%nat as Hpos by (rewrite Hdata; simpl; lia).
  pose proof Hok as (Hbs & Hnb & Hlen & Hsized).
  destruct m as [|m0]; [lia|].
  assert (0 < free_count st)%nat as Hfree by nia.
  destruct (write_chunk_append st d bl m0 data Hok Hd) as (b & buf & Hb0 & Hbit & Hbuf & Hchunk);
    [intros b' Hb'; by apply Hbl|done|done|].
  set (chunk := take (Z.to_nat (block_size st)) data) in *.
  set (st1 := set_blocks (set_bitmap st (<[Z.to_nat b:=1]> (bitmap st)))
                (<[Z.to_nat b:=chunk ++ drop (length chunk) buf]> (blocks st))) in *.
  set (d1 := set_direct_blocks d (bl ++ b :: replicate m0 (-1))) in *.
  assert (write_loop (S fuel) data (Z.of_nat (length bl) * block_size st) st d =
          write_loop fuel (drop (length chunk) data)
            (Z.of_nat (length bl) * block_size st + Z.of_nat (length chunk)) st1 d1) as ->.
  { rewrite Hdata. cbn [write_loop]. rewrite <- Hdata. by rewrite Hchunk. }
  assert (length chunk = Nat.min (Z.to_nat (block_size st)) (length data)) as Hlc.
  { unfold chunk. by rewrite length_take. }
  assert (Z.to_nat b < length (bitmap st))%nat as Hblt by (by eapply lookup_lt_Some).
  assert (length buf = Z.to_nat (block_size st)) as Hbuflen.
  { unfold blocks_sized in Hsized. rewrite Forall_lookup in Hsized. by eapply Hsized. }
  assert (b ∉ bl) as Hnotin.
  { intros Hin. destruct (Hbl b Hin) as [_ Hone]. congruence. }
  assert (storage_ok st1) as Hok1.
  { unfold storage_ok, st1. cbn. rewrite !length_insert. split_and!; try done.
    unfold blocks_sized. cbn. apply Forall_insert; [done|].
    rewrite length_app, length_drop. lia. }
  assert (S (free_count st1) = free_count st) as Hfc1.
  { unfold free_count, st1. cbn. by apply filter_zero_insert. }
  assert (∀ b', b' ∈ bl ++ [b] → 0 ≤ b' ∧ bitmap st1 !! Z.to_nat b' = Some 1) as Hbl1.
  { intros b' [Hb'|Hb']%elem_of_app.
    - destruct (Hbl b' Hb') as [? ?]. split; [done|]. unfold st1. cbn.
      rewrite list_lookup_insert_ne; [done|]. intros Heq.
      assert (b = b') by lia. congruence.
    - apply list_elem_of_singleton in Hb' as ->. split; [done|]. unfold st1. cbn.
      by apply list_lookup_insert_eq. }
  assert (∀ b', b' ∈ bl → blocks st1 !! Z.to_nat b' = blocks st !! Z.to_nat b') as Hsame1.
  { intros b' Hb'. destruct (Hbl b' Hb') as [? ?]. unfold st1. cbn.
    apply list_lookup_insert_ne. intros Heq. assert (b = b') by lia. congruence. }
  assert (blocks st1 !! Z.to_nat b = Some (chunk ++ drop (length chunk) buf)) as Hbuf1.
  { unfold st1. cbn. apply list_lookup_insert_eq. lia. }
  assert (NoDup (bl ++ [b])) as Hnd1.
  { apply NoDup_app. split_and!; [done| |apply NoDup_singleton].
    intros y Hy ->%list_elem_of_singleton. done. }
  assert (∀ k, (k < length chunk)%nat →
            file_byte st1 (bl ++ [b]) (Z.of_nat (length bl) * block_size st + Z.of_nat k)
            = data !! k) as Hfirst.
  { intros k Hk. etrans.
    - apply (file_byte_last_block st1 bl b chunk (drop (length chunk) buf) k);
        [done|done|done|done|cbn; lia].
    - unfold chunk. apply lookup_take_lt. lia. }
  destruct (Nat.le_gt_cases (length data) (Z.to_nat (block_size st))) as [Hshort|Hlong].
  - (* the chunk is all the data *)
    assert (length chunk = length data) as Hall by lia.
    rewrite Hall, drop_all.
    exists st1, [b], m0.
    assert (∀ f c, write_loop f [] c st1 d1 = (Ret c, (st1, d1))) as Hnil by (by intros []).
    rewrite Hnil. split_and!; try done.
    + unfold d1. by rewrite <- (assoc_L (++)).
    + intros k Hk. apply Hfirst. lia.
  - (* a full block, then the rest *)
    assert (length chunk = Z.to_nat (block_size st)) as Hfull by lia.
    assert (Z.of_nat (length bl) * block_size st + Z.of_nat (length chunk)
            = Z.of_nat (length (bl ++ [b])) * block_size st1) as Hcur.
    { rewrite length_app. cbn. lia. }
    rewrite Hcur.
    assert (direct_blocks d1 = (bl ++ [b]) ++ replicate m0 (-1)) as Hd1.
    { unfold d1. cbn. by rewrite <- (assoc_L (++)). }
    assert (block_size st1 = block_size st) as Hbs1 by done.
    assert (length (drop (length chunk) data) ≤ fuel)%nat as Hfuel1.
    { rewrite length_drop. lia. }
    assert (Z.of_nat (length (drop (length chunk) data)) ≤ Z.of_nat m0 * block_size st1) as Hm1.
    { rewrite length_drop, Hbs1. nia. }
    assert (Z.of_nat (length (drop (length chunk) data))
            ≤ Z.of_nat (free_count st1) * block_size st1) as Hfc1'.
    { rewrite length_drop, Hbs1. nia. }
    destruct (IH (drop (length chunk) data) st1 d1 (bl ++ [b]) m0 Hok1 Hd1 Hnd1 Hbl1
                Hfuel1 Hm1 Hfc1') as
      (st' & ext & m' & Hloop & Hok' & Hbs' & Hnd' & Hbl' & Hsame' & Hbytes').
    exists st', ([b] ++ ext), m'. rewrite (assoc_L (++)).
    rewrite Hloop. split_and!; try done.
    + rewrite length_drop, length_app. cbn. do 2 f_equal. lia.
    + intros b' Hb'. rewrite Hsame'; [by apply Hsame1|]. apply elem_of_app. by left.
    + intros k Hk. destruct (Nat.lt_ge_cases k (length chunk)) as [Hlt|Hge].
      * rewrite <- Hfirst by done.
        apply file_byte_prefix; [done|done| |].
        -- rewrite length_app. cbn. lia.
        -- intros b' Hb'. split; [by apply Hbl1|by apply Hsame'].
      * specialize (Hbytes' (k - length chunk)%nat).
        rewrite length_drop, lookup_drop in Hbytes'.
        replace (length chunk + (k - length chunk))%nat with k in Hbytes' by lia.
        rewrite <- Hbytes' by lia. f_equal.
        rewrite length_app. cbn. lia.
Qed.

(** ** Reading back *)

(** When the bytes of [data] are in the file from [cur] on, the loop of
    [read] returns them. *)
Lemma read_loop_gathers fuel : ∀ st blks sz cur acc data,
  0 < block_size st → blocks_sized st →
  Z.of_nat (length data) = sz → (length data ≤ fuel)%nat →
  (∀ k, (k < length data)%nat → file_byte st blks (cur + Z.of_nat k) = data !! k) →
  read_loop fuel st blks sz cur acc = Ret (acc ++ data, cur + sz).
Proof.
  induction fuel as [|fuel IH]; intros st blks sz cur acc data Hbs Hsized Hsz Hfuel Hbytes.
  { destruct data; [|simpl in Hfuel; lia]. simpl in Hsz. subst sz. simpl.
    by rewrite app_nil_r, Z.add_0_r. }
  destruct data as [|x data0] eqn:Hdata.
  { simpl in Hsz. subst sz. simpl. by rewrite app_nil_r, Z.add_0_r. }
  rewrite <- Hdata in *.
  assert (0 < length data)%nat as Hpos by (rewrite Hdata; simpl; lia).
  pose proof (Z.mod_pos_bound cur (block_size st) Hbs) as Hr.
  pose proof (Z.div_mod cur (block_size st) ltac:(lia)) as Hcur.
  set (q := cur / block_size st) in *. set (r := cur mod block_size st) in *.
  set (n := Z.min sz (block_size st - r)).
  assert (∀ k, 0 ≤ k → r + k < block_size st →
            (cur + k) / block_size st = q ∧ (cur + k) mod block_size st = r + k) as Hdm.
  { intros k Hk0 Hk.
    replace (cur + k) with (q * block_size st + (r + k)) by lia.
    apply div_mod_block; lia. }
  (* the block and the buffer of the first byte *)
  pose proof (Hbytes 0%nat Hpos) as H0. unfold file_byte in H0.
  destruct (Hdm 0) as [Hq0 Hr0]; [lia|lia|]. rewrite Z.add_0_r in Hq0, Hr0.
  change (Z.of_nat 0) with 0 in H0. rewrite Z.add_0_r in H0.
  fold q in H0.
  destruct (Py.get blks q) as [b|] eqn:Hb; [|by rewrite Hdata in H0].
  simpl in H0.
  destruct (Py.get (blocks st) b) as [buf|] eqn:Hbuf; [|by rewrite Hdata in H0].
  assert (length buf = Z.to_nat (block_size st)) as Hbuflen.
  { apply (read_block_sized st b); [done|]. unfold read_block. by rewrite Hbuf. }
  cbn [read_loop]. destruct (Z.leb_spec sz 0); [lia|].
  unfold Py.floordiv, Py.modulo. destruct (Z.eqb_spec (block_size st) 0); [lia|].
  fold q r n. rewrite Hb. unfold read_block. rewrite Hbuf.
  assert (0 < n ≤ sz ∧ r + n ≤ block_size st) as Hn by (unfold n; lia).
  assert (Py.slice buf r (r + n) = take (Z.to_nat n) data) as ->.
  { rewrite slice_take_drop by lia. replace (r + n - r) with n by lia.
    apply list_eq. intros k.
    destruct (Nat.lt_ge_cases k (Z.to_nat n)) as [Hlt|Hge].
    - rewrite !lookup_take_lt by done. rewrite lookup_drop.
      rewrite <- Hbytes by lia. unfold file_byte.
      destruct (Hdm (Z.of_nat k)) as [-> ->]; [lia|lia|].
      rewrite Hb. simpl. rewrite Hbuf. simpl.
      rewrite get_nonneg by lia. f_equal. lia.
    - by rewrite !lookup_take_ge. }
  rewrite (IH st blks (sz - n) (cur + n) _ (drop (Z.to_nat n) data)); try done.
  - rewrite <- (assoc_L (++)), take_drop. do 2 f_equal. lia.
  - rewrite length_drop. lia.
  - rewrite length_drop. lia.
  - intros k Hk. rewrite length_drop in Hk. rewrite lookup_drop.
    rewrite <- Hbytes by lia. f_equal. lia.
Qed.

Lemma read_loop_bytes fuel st blks sz cur acc data :
  storage_ok st →
  Z.of_nat (length data) = sz → (length data ≤ fuel)%nat →
  (∀ k, (k < length data)%nat → file_byte st blks (cur + Z.of_nat k) = data !! k) →
  read_loop fuel st blks sz cur acc = Ret (acc ++ data, cur + sz).
Proof. intros (Hbs & _ & _ & Hsized). by apply read_loop_gathers. Qed.

(** ** Creating and opening *)

Lemma create_scan_Ret fds k : ∀ i j,
  create_scan fds i k = Ret j → i ≤ j ∧ Py.get fds j = Some None.
Proof.
  induction k as [|k IH]; intros i j; simpl; [done|].
  destruct (Py.get fds i) as [[d|]|] eqn:Hg; [|by intros [= <-]|done].
  intros H%IH. split; [lia|tauto].
Qed.

Lemma create_Ret name s s1 :
  create name s = (Ret tt, s1) →
  ∃ i n, 0 ≤ i ∧ Py.norm (length (file_descriptors s)) i = Some n
    ∧ directory s !! name = None
    ∧ file_descriptors s !! n = Some None
    ∧ s1 = set_directory
             (set_file_descriptors s
                (<[n := Some (FileDescriptor_init "regular" max_direct_blocks_default)]>
                   (file_descriptors s)))
             (<[name := i]> (directory s)).
Proof.
  unfold create. destruct (directory s !! name) eqn:Hname; [done|].
  destruct (create_scan _ _ _) as [i| |] eqn:Hscan; [|done|done].
  apply create_scan_Ret in Hscan as [Hi Hnone].
  destruct (get_is_Some_set _ _ _
              (Some (FileDescriptor_init "regular" max_direct_blocks_default)) Hnone)
    as (n & Hn & ->).
  intros [= <-]. exists i, n. split_and!; try done.
  apply get_Some in Hnone as (n' & Hn' & Hl). congruence.
Qed.

(** ** Round trip *)

(** Data written at offset 0 to a file that has just been created and
    opened is gathered unchanged by a read of [len(data)] bytes from offset 0,
    whatever its length against the size of a block, provided the data fits
    in the ten direct blocks and in the free blocks of the storage. *)
Lemma write_then_read_bytes s name data s1 h s2 :
  storage_ok (block_storage s) →
  create name s = (Ret tt, s1) →
  open name s1 = (Ret h, s2) →
  Z.of_nat (length data) ≤ max_direct_blocks_default * block_size (block_storage s) →
  Z.of_nat (length data) ≤ Z.of_nat (free_count (block_storage s)) * block_size (block_storage s) →
  ∃ s3 s4 s5,
    write h data s2 = (Ret tt, s3)
    ∧ seek h 0 s3 = (Ret tt, s4)
    ∧ read_bytes h (Z.of_nat (length data)) s4 = (Ret data, s5).
Proof.
  intros Hok Hcreate Hopen Hcap Hfree.
  apply create_Ret in Hcreate as (i & n & Hi & Hn & Hname & Hslot & ->).
  revert Hopen. unfold open. cbn [directory set_directory].
  rewrite lookup_insert_eq. cbn [next_fd set_directory set_file_descriptors open_files].
  intros [= <- <-].
  set (fresh_fd := FileDescriptor_init "regular" max_direct_blocks_default).
  set (fds1 := <[n := Some fresh_fd]> (file_descriptors s)).
  assert (Py.get fds1 i = Some (Some fresh_fd)) as Hget1.
  { unfold Py.get, fds1. rewrite length_insert, Hn.
    apply list_lookup_insert_eq. by apply norm_lt in Hn. }
  destruct (write_loop_append (length data) data (block_storage s) fresh_fd [] 10)
    as (st' & ext & m' & Hloop & Hok' & Hbs' & Hnd' & Hbl' & _ & Hbytes');
    [done|done|apply NoDup_nil_2| |done|done|done|].
  { intros b Hb. by apply elem_of_nil in Hb. }
  cbn [length app] in Hloop, Hbytes', Hbl', Hnd'.
  change (Z.of_nat 0 * block_size (block_storage s)) with 0 in Hloop, Hbytes'.
  rewrite Z.add_0_l in Hloop.
  set (h := next_fd s).
  set (s2 := set_next_fd (set_open_files
               (set_directory (set_file_descriptors s fds1) (<[name:=i]> (directory s)))
               (<[h:=(i, 0)]> (open_files s))) (h + 1)).
  set (d' := set_size (set_direct_blocks fresh_fd (ext ++ replicate m' (-1)))
               (Z.max (size (set_direct_blocks fresh_fd (ext ++ replicate m' (-1))))
                  (Z.of_nat (length data)))).
  assert (get_blocks d' = ext) as Hblocks.
  { unfold get_blocks, d'. cbn [direct_blocks set_size set_direct_blocks].
    apply filter_blocks_app. intros x Hx%Hbl'. lia. }
  assert (size d' = Z.of_nat (length data)) as Hsize.
  { unfold d'. cbn [size set_size set_direct_blocks fresh_fd FileDescriptor_init]. lia. }
  set (s3 := set_open_files (put_slot (set_block_storage s2 st') i (Some d'))
               (<[h := (i, Z.of_nat (length data))]> (open_files s2))).
  set (s4 := set_open_files s3 (<[h := (i, 0)]> (open_files s3))).
  set (s5 := set_open_files s4 (<[h := (i, 0 + Z.of_nat (length data))]> (open_files s4))).
  assert (write h data s2 = (Ret tt, s3)) as Hwrite.
  { unfold write, s2. cbn [open_files set_next_fd set_open_files file_descriptors
                            set_directory set_file_descriptors block_storage].
    by rewrite lookup_insert_eq, Hget1, Hloop. }
  assert (seek h 0 s3 = (Ret tt, s4)) as Hseek.
  { unfold seek, s3. cbn [open_files set_open_files]. by rewrite lookup_insert_eq. }
  assert (read_bytes h (Z.of_nat (length data)) s4 = (Ret data, s5)) as Hread.
  { unfold read_bytes. unfold s4 at 1. cbn [open_files set_open_files].
    rewrite lookup_insert_eq.
    assert (Py.get (file_descriptors s4) i = Some (Some d')) as ->.
    { unfold s4, s3. cbn [file_descriptors set_open_files].
      by apply (put_slot_get _ i (Some fresh_fd)). }
    assert (block_storage s4 = st') as ->.
    { unfold s4, s3. cbn [block_storage set_open_files].
      by rewrite put_slot_block_storage. }
    rewrite Hblocks, Hsize, Z.add_0_l, Z.ltb_irrefl.
    rewrite (read_loop_bytes _ st' ext _ 0 [] data); [done|done|done|lia|].
    intros k Hk. rewrite Z.add_0_l. rewrite <- Hbytes' by done.
    unfold file_byte. by rewrite Hbs'. }
  by exists s3, s4, s5.
Qed.

(** ** Truncation *)

Lemma ceil_div_spec a b : 0 < b → a ≤ ceil_div a b * b ∧ ceil_div a b * b < a + b.
Proof.
  intros Hb. unfold ceil_div.
  pose proof (Z.div_mod (a + b - 1) b ltac:(lia)).
  pose proof (Z.mod_pos_bound (a + b - 1) b Hb). nia.
Qed.

(** The loop of the growing branch: [k] blocks are allocated and take the
    next [k] empty slots. *)
Lemma grow_blocks_append k : ∀ st d bl m,
  storage_ok st →
  direct_blocks d = bl ++ replicate m (-1) →
  NoDup bl →
  (∀ b, b ∈ bl → 0 ≤ b ∧ bitmap st !! Z.to_nat b = Some 1) →
  (k ≤ m)%nat → (k ≤ free_count st)%nat →
  ∃ news st',
    grow_blocks k st d =
      (Ret tt, (st', set_direct_blocks d ((bl ++ news) ++ replicate (m - k) (-1))))
    ∧ length news = k
    ∧ storage_ok st'
    ∧ NoDup (bl ++ news)
    ∧ (∀ b, b ∈ bl ++ news → 0 ≤ b ∧ bitmap st' !! Z.to_nat b = Some 1)
    ∧ (∀ b, b ∈ news → bitmap st !! Z.to_nat b = Some 0)
    ∧ (free_count st' + k = free_count st)%nat
    ∧ blocks st' = blocks st ∧ block_size st' = block_size st.
Proof.
  induction k as [|k IH]; intros st d bl m Hok Hd Hnd Hbl Hm Hfc.
  { exists [], st. simpl. rewrite app_nil_r, Nat.sub_0_r, <- Hd.
    split_and!; try done; try lia; [by destruct d|].
    intros b Hb. by apply elem_of_nil in Hb. }
  destruct m as [|m0]; [lia|].
  destruct (allocate_block_success st Hok) as (b & Halloc & Hb0 & Hblt & Hbit & Hfc1 & Hok1);
    [lia|].
  set (st1 := set_bitmap st (<[Z.to_nat b:=1]> (bitmap st))) in *.
  set (d1 := set_direct_blocks d (bl ++ b :: replicate m0 (-1))).
  assert (grow_blocks (S k) st d = grow_blocks k st1 d1) as ->.
  { cbn [grow_blocks]. rewrite Halloc. unfold add_block. rewrite Hd. cbn [replicate].
    rewrite fill_first_empty_app; [done|]. intros x Hx%Hbl. lia. }
  assert (b ∉ bl) as Hnotin.
  { intros Hin. destruct (Hbl b Hin) as [_ Hone]. congruence. }
  assert (direct_blocks d1 = (bl ++ [b]) ++ replicate m0 (-1)) as Hd1.
  { unfold d1. cbn. by rewrite <- (assoc_L (++)). }
  assert (NoDup (bl ++ [b])) as Hnd1.
  { apply NoDup_app. split_and!; [done| |apply NoDup_singleton].
    intros y Hy ->%list_elem_of_singleton. done. }
  assert (∀ b', b' ∈ bl ++ [b] → 0 ≤ b' ∧ bitmap st1 !! Z.to_nat b' = Some 1) as Hbl1.
  { intros b' [Hb'|Hb']%elem_of_app.
    - destruct (Hbl b' Hb') as [? ?]. split; [done|]. unfold st1. cbn.
      rewrite list_lookup_insert_ne; [done|]. intros Heq.
      assert (b = b') by lia. congruence.
    - apply list_elem_of_singleton in Hb' as ->. split; [done|]. unfold st1. cbn.
      apply list_lookup_insert_eq. lia. }
  destruct (IH st1 d1 (bl ++ [b]) m0 Hok1 Hd1 Hnd1 Hbl1) as
    (news & st' & Hgrow & Hlen & Hok' & Hnd' & Hbl' & Hfree' & Hfc' & Hblocks' & Hbs');
    [lia|lia|].
  exists (b :: news), st'. rewrite Hgrow.
  replace ((bl ++ [b]) ++ news) with (bl ++ b :: news) in * by (by rewrite <- (assoc_L (++))).
  split_and!; try done.
  - simpl. lia.
  - intros b' [->|Hb']%elem_of_cons; [done|].
    specialize (Hfree' b' Hb'). unfold st1 in Hfree'. cbn in Hfree'.
    destruct (decide (Z.to_nat b = Z.to_nat b')) as [Heq|Hne].
    + rewrite <- Heq, list_lookup_insert_eq in Hfree' by lia. done.
    + by rewrite list_lookup_insert_ne in Hfree'.
  - lia.
Qed.

Lemma drop_min_length {A} (l : list A) n : drop (Nat.min n (length l)) l = drop n l.
Proof.
  destruct (Nat.le_ge_cases n (length l)).
  - by rewrite Nat.min_l.
  - rewrite Nat.min_r by done. by rewrite !drop_ge.
Qed.

Lemma slice_from_nonneg {A} (l : list A) n : 0 ≤ n → Py.slice_from l n = drop (Z.to_nat n) l.
Proof.
  intros Hn. unfold Py.slice_from. rewrite bound_nonneg by done. apply drop_min_length.
Qed.

Lemma filter_blocks_take (bl : list Z) m k :
  (∀ x, x ∈ bl → x ≠ -1) →
  filter (λ b, b ≠ -1) (take k (bl ++ replicate m (-1))) = take k bl.
Proof.
  intros Hbl. rewrite take_app. rewrite take_replicate, filter_app.
  assert (∀ j, filter (λ b : Z, b ≠ -1) (replicate j (-1)) = []) as ->.
  { induction j as [|j IH]; simpl; [done|]. by rewrite filter_cons_False by (intros H; done). }
  rewrite app_nil_r.
  assert (∀ l : list Z, (∀ x, x ∈ l → x ≠ -1) → filter (λ b, b ≠ -1) l = l) as Hall.
  { induction l as [|x l IH]; intros Hl; [done|].
    rewrite filter_cons_True by (apply Hl; left). f_equal. apply IH.
    intros y Hy. apply Hl. by right. }
  apply Hall. intros x (j & Hj & _)%elem_of_take. apply Hbl.
  by eapply list_elem_of_lookup_2.
Qed.

Lemma elem_of_drop {A} (l : list A) n x :
  x ∈ drop n l → ∃ j, l !! j = Some x ∧ (n ≤ j)%nat.
Proof.
  intros (j & Hj)%list_elem_of_lookup. rewrite lookup_drop in Hj.
  exists (n + j)%nat. split; [done|lia].
Qed.

Lemma get_blocks_prefix d (bl : list Z) m :
  direct_blocks d = bl ++ replicate m (-1) → (∀ b, b ∈ bl → 0 ≤ b) → get_blocks d = bl.
Proof.
  intros Hd Hbl. unfold get_blocks. rewrite Hd. apply filter_blocks_app.
  intros x Hx%Hbl. lia.
Qed.

(** On a file whose descriptor holds the blocks [bl] followed by empty
    slots, with a size that is not negative: growing allocates exactly
    [ceil(new_size / block_size) - len(bl)] blocks (when that many slots and
    free blocks exist), appends them in order and sets the size; shrinking
    frees every block after the first [ceil(new_size / block_size)], keeps the
    others allocated and sets the size; an equal size changes nothing. *)
Lemma truncate_grows_and_shrinks s name new i d bl m :
  directory s !! name = Some i →
  Py.get (file_descriptors s) i = Some (Some d) →
  storage_ok (block_storage s) →
  direct_blocks d = bl ++ replicate m (-1) →
  NoDup bl →
  (∀ b, b ∈ bl → 0 ≤ b ∧ used (block_storage s) b) →
  0 ≤ new →
  let st := block_storage s in
  let needed := ceil_div new (block_size st) in
  (new ≤ needed * block_size st ∧ needed * block_size st < new + block_size st)
  ∧ (size d < new →
     let k := Z.to_nat (needed - Z.of_nat (length (get_blocks d))) in
     (k ≤ m)%nat → (k ≤ free_count st)%nat →
     ∃ news s' d',
       truncate name new s = (Ret tt, s')
       ∧ Py.get (file_descriptors s') i = Some (Some d')
       ∧ length news = k
       ∧ get_blocks d' = get_blocks d ++ news
       ∧ size d' = new
       ∧ (∀ b, b ∈ news → is_free st b ∧ used (block_storage s') b)
       ∧ (free_count (block_storage s') + k = free_count st)%nat
       ∧ blocks (block_storage s') = blocks st)
  ∧ (new < size d →
     ∃ s' d',
       truncate name new s = (Ret tt, s')
       ∧ Py.get (file_descriptors s') i = Some (Some d')
       ∧ size d' = new
       ∧ get_blocks d' = take (Z.to_nat needed) (get_blocks d)
       ∧ (∀ b, b ∈ drop (Z.to_nat needed) (get_blocks d) → is_free (block_storage s') b)
       ∧ (∀ b, b ∈ take (Z.to_nat needed) (get_blocks d) → used (block_storage s') b))
  ∧ (new = size d → truncate name new s = (Ret tt, s)).
Proof.
  intros Hname Hd Hok Hdir Hnd Hbl Hnew. cbv zeta.
  set (st := block_storage s) in *. set (needed := ceil_div new (block_size st)).
  pose proof Hok as (Hbs & Hnb & Hlen & Hsized).
  assert (get_blocks d = bl) as Hgb.
  { apply (get_blocks_prefix d bl m); [done|]. intros b Hb. by apply Hbl. }
  assert (∀ b, b ∈ bl → 0 ≤ b ∧ bitmap st !! Z.to_nat b = Some 1) as Hbl'.
  { intros b Hb. destruct (Hbl b Hb) as [Hb0 Hu]. split; [done|].
    unfold used in Hu. by rewrite get_nonneg in Hu. }
  assert (Py.floordiv (new + block_size st - 1) (block_size st) = Ret needed) as Hdiv.
  { unfold Py.floordiv. destruct (Z.eqb_spec (block_size st) 0); [lia|done]. }
  assert (0 ≤ needed) as Hneeded.
  { unfold needed, ceil_div. apply Z.div_pos; lia. }
  split; [by apply ceil_div_spec|]. split_and!.
  - (* growing *)
    rewrite Hgb. set (k := Z.to_nat (needed - Z.of_nat (length bl))).
    intros Hgrow Hkm Hkf.
    destruct (grow_blocks_append k st d bl m Hok Hdir Hnd Hbl' Hkm Hkf) as
      (news & st' & Hloop & Hlen' & Hok' & Hnd' & Hbl'' & Hfree' & Hfc' & Hblocks' & Hbs').
    set (d' := set_size (set_direct_blocks d ((bl ++ news) ++ replicate (m - k) (-1))) new).
    exists news, (put_slot (set_block_storage s st') i (Some d')), d'.
    split_and!.
    + unfold truncate. rewrite Hname, Hd.
      destruct (Z.ltb_spec (size d) new); [|lia].
      fold st. rewrite Hdiv, Hgb. fold k. by rewrite Hloop.
    + by apply (put_slot_get _ i (Some d)).
    + done.
    + apply (get_blocks_prefix d' (bl ++ news) (m - k)); [done|].
      intros b Hb. by apply Hbl''.
    + done.
    + intros b Hb. rewrite put_slot_block_storage. cbn [block_storage set_block_storage].
      assert (0 ≤ b) as Hb0.
      { apply Hbl''. apply elem_of_app. by right. }
      unfold is_free, used. rewrite !get_nonneg by done. split; [by apply Hfree'|].
      apply Hbl''. apply elem_of_app. by right.
    + by rewrite put_slot_block_storage.
    + by rewrite put_slot_block_storage.
  - (* shrinking *)
    intros Hshrink.
    destruct (free_blocks_effect (drop (Z.to_nat needed) bl) st (storage_ok_shape _ Hok))
      as (st' & Hfree & _ & Hfreed & _ & _ & Hlen' & _ & Hsame).
    { intros b Hb. left. apply Hbl. apply elem_of_drop in Hb as (j & Hj & _).
      by eapply list_elem_of_lookup_2. }
    set (d' := set_size (set_direct_blocks d (take (Z.to_nat needed) (direct_blocks d))) new).
    exists (put_slot (set_block_storage s st') i (Some d')), d'.
    split_and!.
    + unfold truncate. rewrite Hname, Hd.
      destruct (Z.ltb_spec (size d) new); [lia|].
      destruct (Z.ltb_spec new (size d)); [|lia].
      fold st. rewrite Hdiv, Hgb, slice_from_nonneg, Hfree by done.
      by rewrite slice_to_take.
    + by apply (put_slot_get _ i (Some d)).
    + done.
    + rewrite Hgb. unfold get_blocks, d'. cbn [direct_blocks set_size set_direct_blocks].
      rewrite Hdir. apply filter_blocks_take. intros x Hx%Hbl. lia.
    + rewrite Hgb, put_slot_block_storage. exact Hfreed.
    + rewrite Hgb, put_slot_block_storage. cbn [block_storage set_block_storage].
      intros b (j & Hj & Hjlt)%elem_of_take.
      assert (b ∈ bl) as Hin by (by eapply list_elem_of_lookup_2).
      destruct (Hbl' b Hin) as [Hb0 Hbit].
      unfold used. rewrite get_nonneg by done.
      destruct (Hsame (Z.to_nat b)) as [-> _]; [|done].
      intros b' (j' & Hj' & Hjge)%elem_of_drop Hnorm.
      assert (b' ∈ bl) as Hin' by (by eapply list_elem_of_lookup_2).
      destruct (Hbl' b' Hin') as [Hb0' _].
      apply norm_nonneg_inv in Hnorm as [Heq _]; [|done].
      assert (b' = b) as -> by lia.
      assert (j' = j) by (by eapply NoDup_lookup). lia.
  - (* the same size *)
    intros ->. unfold truncate. rewrite Hname, Hd.
    by rewrite !Z.ltb_irrefl.
Qed.

(** ** Counting names *)

Lemma links_to_insert (dir : gmap string Z) name j i :
  dir !! name = None →
  links_to (<[name := j]> dir) i
  = if decide (j = i) then S (links_to dir i) else links_to dir i.
Proof.
  intros Hname. unfold links_to.
  rewrite (Permutation_length
             (filter_Permutation _ _ _ (map_to_list_insert dir name j Hname))).
  case_decide as Hj.
  - by rewrite filter_cons_True.
  - by rewrite filter_cons_False.
Qed.

Lemma links_to_delete (dir : gmap string Z) name j i :
  dir !! name = Some j →
  links_to dir i
  = if decide (j = i) then S (links_to (delete name dir) i) else links_to (delete name dir) i.
Proof.
  intros Hname. unfold links_to.
  rewrite <- (Permutation_length
                (filter_Permutation _ _ _ (map_to_list_delete dir name j Hname))).
  case_decide as Hj.
  - by rewrite filter_cons_True.
  - by rewrite filter_cons_False.
Qed.

Lemma links_to_pos (dir : gmap string Z) name i :
  dir !! name = Some i → (0 < links_to dir i)%nat.
Proof.
  intros Hname. rewrite (links_to_delete dir name i i Hname).
  rewrite decide_True by done. lia.
Qed.

(** ** Loops that allocate *)

Lemma extends_refl st d : storage_shape st → extends st d st d.
Proof.
  intros Hshape. split_and!; [by left| |done|done].
  exists []. split_and!; [done|apply NoDup_nil_2|].
  intros b Hb. by apply elem_of_nil in Hb.
Qed.

Lemma extends_trans st d st1 d1 st2 d2 :
  extends st d st1 d1 → extends st1 d1 st2 d2 → extends st d st2 d2.
Proof.
  intros (Hbits1 & (news1 & Hperm1 & Hnd1 & Hnews1) & _ & Hl1)
         (Hbits2 & (news2 & Hperm2 & Hnd2 & Hnews2) & Hshape2 & Hl2).
  assert (∀ m, bitmap st1 !! m = Some 1 → bitmap st2 !! m = Some 1) as Hkeep.
  { intros m Hm. destruct (Hbits2 m) as [->|[? ?]]; congruence. }
  assert (∀ m, bitmap st1 !! m = Some 0 → bitmap st !! m = Some 0) as Hback.
  { intros m Hm. destruct (Hbits1 m) as [<-|[? ?]]; congruence. }
  split_and!; [| |done|congruence].
  - intros m. destruct (Hbits1 m) as [Heq1|[H0 H1]], (Hbits2 m) as [Heq2|[H0' H1']].
    + left. congruence.
    + right. split; congruence.
    + right. split; congruence.
    + congruence.
  - exists (news2 ++ news1). split_and!.
    + rewrite Hperm2, Hperm1. by rewrite (assoc_L (++)).
    + apply NoDup_app. split_and!; [done| |done].
      intros b Hb2 Hb1. destruct (Hnews2 b Hb2) as (_ & H0 & _).
      destruct (Hnews1 b Hb1) as (_ & _ & H1). congruence.
    + intros b [Hb|Hb]%elem_of_app.
      * destruct (Hnews2 b Hb) as (? & ? & ?). split_and!; [done|by apply Hback|done].
      * destruct (Hnews1 b Hb) as (? & ? & ?). split_and!; [done|done|by apply Hkeep].
Qed.

Lemma fill_first_empty_perm (l l' : list Z) b :
  fill_first_empty l b = Some l' → b ≠ -1 →
  filter (λ x, x ≠ -1) l' ≡ₚ b :: filter (λ x, x ≠ -1) l.
Proof.
  intros Hfill Hb. revert l' Hfill. induction l as [|x l IH]; intros l'; simpl; [done|].
  destruct (Z.eqb_spec x (-1)) as [->|Hx].
  - intros [= <-]. rewrite filter_cons_True by done.
    by rewrite (filter_cons_False _ (-1)) by (intros H; done).
  - destruct (fill_first_empty l b) as [t|]; [|done]. simpl. intros [= <-].
    rewrite !(filter_cons_True _ x) by done.
    rewrite (IH t eq_refl). apply Permutation_swap.
Qed.

Lemma allocate_add_extends st d b st1 r d1 :
  storage_shape st →
  allocate_block st = (Ret b, st1) → add_block b d = (r, d1) →
  extends st d st1 d1.
Proof.
  intros [Hlen Hbs] Halloc Hadd.
  apply allocate_block_Ret in Halloc as (Hb0 & Hfree & n & Hn & ->).
  apply norm_nonneg_inv in Hn as [-> Hlt]; [|done].
  unfold is_free in Hfree. rewrite get_nonneg in Hfree by done.
  assert (<[Z.to_nat b:=1]> (bitmap st) !! Z.to_nat b = Some 1) as Hone.
  { apply list_lookup_insert_eq. lia. }
  split_and!.
  - intros m. cbn. destruct (decide (m = Z.to_nat b)) as [->|Hne].
    + by right.
    + left. by apply list_lookup_insert_ne.
  - revert Hadd. unfold add_block.
    destruct (fill_first_empty (direct_blocks d) b) as [l'|] eqn:Hfill; intros [= <- <-].
    + exists [b]. split_and!.
      * unfold get_blocks. cbn. apply fill_first_empty_perm; [done|lia].
      * apply NoDup_singleton.
      * intros b' ->%list_elem_of_singleton. done.
    + exists []. split_and!; [done|apply NoDup_nil_2|].
      intros b' Hb'. by apply elem_of_nil in Hb'.
  - split; cbn.
    + by rewrite length_insert.
    + destruct Hbs as [?|Hnil]; [by left|]. right. by rewrite Hnil.
  - by apply add_block_fields in Hadd as (_ & ? & _).
Qed.

Lemma ensure_block_extends bi st d r st' d' :
  storage_shape st → ensure_block bi st d = (r, (st', d')) → extends st d st' d'.
Proof.
  intros Hshape. unfold ensure_block.
  destruct (if Z.of_nat (length (direct_blocks d)) <=? bi then _ else _) as [[]| |];
    try (intros [= <- <- <-]; by apply extends_refl).
  destruct (allocate_block st) as [[nb| |] st1] eqn:Halloc.
  - destruct (add_block nb d) as [r1 d1] eqn:Hadd.
    pose proof (allocate_add_extends _ _ _ _ _ _ Hshape Halloc Hadd).
    by destruct r1 as [[]| |]; intros [= <- <- <-].
  - apply allocate_block_fail in Halloc as ->; [|done].
    intros [= <- <- <-]. by apply extends_refl.
  - apply allocate_block_fail in Halloc as ->; [|done].
    intros [= <- <- <-]. by apply extends_refl.
Qed.

Lemma write_block_effect b data st r st' :
  write_block b data st = (r, st') →
  bitmap st' = bitmap st ∧ (storage_shape st → storage_shape st').
Proof.
  unfold write_block. destruct (_ <? _); [by intros [= <- <-]|].
  destruct (Py.get (blocks st) b) as [buf|]; [|by intros [= <- <-]].
  destruct (Py.set (blocks st) b _) as [bl'|] eqn:Hset; intros [= <- <-]; [|done].
  split; [done|]. intros [Hlen Hbs]. split; cbn; [|done].
  apply set_length in Hset. congruence.
Qed.

Lemma extends_write_block st d st1 d1 b data r st2 :
  extends st d st1 d1 → write_block b data st1 = (r, st2) → extends st d st2 d1.
Proof.
  intros (Hbits & Hnews & Hshape & Hl) [Hbm Hsh]%write_block_effect.
  unfold extends. rewrite Hbm. split_and!; [done|done|by apply Hsh|done].
Qed.

Lemma write_chunk_extends data cur st d r st' d' :
  storage_shape st → write_chunk data cur st d = (r, (st', d')) → extends st d st' d'.
Proof.
  intros Hshape. unfold write_chunk.
  destruct (Py.floordiv cur (block_size st)) as [bi| |],
           (Py.modulo cur (block_size st)) as [bo| |];
    try (intros [= <- <- <-]; by apply extends_refl).
  destruct (ensure_block bi st d) as [r1 [st1 d1]] eqn:Hens.
  apply ensure_block_extends in Hens; [|done].
  destruct r1 as [[]| |]; try by intros [= <- <- <-].
  destruct (Py.get (direct_blocks d1) bi) as [b|]; [|by intros [= <- <- <-]].
  destruct (write_block b _ st1) as [r2 st2] eqn:Hwb.
  pose proof (extends_write_block _ _ _ _ _ _ _ _ Hens Hwb).
  by destruct r2 as [[]| |]; intros [= <- <- <-].
Qed.

Lemma write_loop_extends fuel : ∀ data cur st d r st' d',
  storage_shape st → write_loop fuel data cur st d = (r, (st', d')) → extends st d st' d'.
Proof.
  induction fuel as [|fuel IH]; intros data cur st d r st' d' Hshape; simpl.
  - destruct data; intros [= <- <- <-]; by apply extends_refl.
  - destruct data as [|x data]; [intros [= <- <- <-]; by apply extends_refl|].
    destruct (write_chunk (x :: data) cur st d) as [r1 [st1 d1]] eqn:Hchunk.
    apply write_chunk_extends in Hchunk; [|done].
    destruct r1 as [[data1 cur1]| |]; try by intros [= <- <- <-].
    intros Hloop. apply IH in Hloop; [|by destruct Hchunk as (_ & _ & ? & _)].
    by eapply extends_trans.
Qed.

Lemma grow_blocks_extends k : ∀ st d r st' d',
  storage_shape st → grow_blocks k st d = (r, (st', d')) → extends st d st' d'.
Proof.
  induction k as [|k IH]; intros st d r st' d' Hshape; simpl.
  - intros [= <- <- <-]. by apply extends_refl.
  - destruct (allocate_block st) as [[nb| |] st1] eqn:Halloc.
    + destruct (add_block nb d) as [r1 d1] eqn:Hadd.
      pose proof (allocate_add_extends _ _ _ _ _ _ Hshape Halloc Hadd) as Hext.
      destruct r1 as [[]| |]; try by intros [= <- <- <-].
      intros Hloop. apply IH in Hloop; [|by destruct Hext as (_ & _ & ? & _)].
      by eapply extends_trans.
    + apply allocate_block_fail in Halloc as ->; [|done].
      intros [= <- <- <-]. by apply extends_refl.
    + apply allocate_block_fail in Halloc as ->; [|done].
      intros [= <- <- <-]. by apply extends_refl.
Qed.

(** ** Preservation of the invariant *)

Lemma fs_inv_init nb bs mf s : FileSystem_init nb bs mf = Ret s → fs_inv s.
Proof.
  unfold FileSystem_init.
  destruct (BlockStorage_init nb bs) as [st| |] eqn:Hst; [|done|done].
  intros [= <-]. apply storage_inv_init in Hst as [Hshape _].
  constructor; cbn.
  - done.
  - intros name j Hj. by rewrite lookup_empty in Hj.
  - intros n dn [Hn _]%lookup_replicate. done.
  - intros n dn [Hn _]%lookup_replicate. done.
  - intros n n' dn dn' _ [Hn _]%lookup_replicate. done.
  - intros h j off Hh. by rewrite lookup_empty in Hh.
Qed.

Lemma put_slot_nonneg s j o v :
  0 ≤ j → file_descriptors s !! Z.to_nat j = Some o →
  put_slot s j v = set_file_descriptors s (<[Z.to_nat j := v]> (file_descriptors s)).
Proof.
  intros Hj Ho. unfold put_slot. rewrite set_nonneg; [done|done|].
  apply lookup_lt_Some in Ho. lia.
Qed.

(** A state that differs from one that satisfies the invariant in one slot
    of the descriptor table, in the storage and in the directory. *)
Lemma fs_inv_update s s' n o o' :
  fs_inv s →
  file_descriptors s !! n = Some o →
  file_descriptors s' = <[n := o']> (file_descriptors s) →
  storage_shape (block_storage s') →
  (∀ name j, directory s' !! name = Some j →
     0 ≤ j ∧ ∃ dj, file_descriptors s' !! Z.to_nat j = Some (Some dj)) →
  (∀ n' d', file_descriptors s' !! n' = Some (Some d') →
     Z.of_nat (links_to (directory s') (Z.of_nat n')) = hard_links d') →
  (∀ d', o' = Some d' →
     NoDup (get_blocks d')
     ∧ ∀ b, b ∈ get_blocks d' →
         0 ≤ b ∧ bitmap (block_storage s') !! Z.to_nat b = Some 1) →
  (∀ n' d', n' ≠ n → file_descriptors s !! n' = Some (Some d') →
     ∀ b, b ∈ get_blocks d' →
       bitmap (block_storage s') !! Z.to_nat b = Some 1
       ∧ ∀ d'', o' = Some d'' → b ∉ get_blocks d'') →
  (∀ h j off, open_files s' !! h = Some (j, off) → 0 ≤ j) →
  fs_inv s'.
Proof.
  intros Hinv Ho Hfds Hshape Hnames Hlinks Hnew Hothers Hhandles.
  assert (n < length (file_descriptors s))%nat as Hlt by (by eapply lookup_lt_Some).
  assert (∀ n' d', n' ≠ n → file_descriptors s' !! n' = Some (Some d') →
            file_descriptors s !! n' = Some (Some d')) as Hold.
  { intros n' d' Hne. rewrite Hfds. by rewrite list_lookup_insert_ne. }
  assert (∀ d', file_descriptors s' !! n = Some (Some d') → o' = Some d') as Hat.
  { intros d'. rewrite Hfds, list_lookup_insert_eq by done. congruence. }
  constructor; try done.
  - intros n' d' Hd'. destruct (decide (n' = n)) as [->|Hne].
    + by apply Hnew, Hat.
    + apply Hold in Hd'; [|done].
      destruct (inv_blocks s Hinv n' d' Hd') as [Hnd Hbl]. split; [done|].
      intros b Hb. split; [by apply Hbl|]. by apply (Hothers n' d').
  - intros n1 n2 d1 d2 Hne H1 H2 b Hb.
    destruct (decide (n1 = n)) as [->|Hne1], (decide (n2 = n)) as [->|Hne2]; [done| | |].
    + apply Hold in H2; [|done]. apply Hat in H1. intros Hb2.
      by destruct (Hothers n2 d2 Hne2 H2 b Hb2) as [_ Hnot]; apply (Hnot d1).
    + apply Hold in H1; [|done]. apply Hat in H2.
      by destruct (Hothers n1 d1 Hne1 H1 b Hb) as [_ Hnot]; apply (Hnot d2).
    + apply Hold in H1; [|done]. apply Hold in H2; [|done].
      by apply (inv_disjoint s Hinv n1 n2 d1 d2).
Qed.

(** Only the handle table differs. *)
Lemma fs_inv_handles s s' :
  fs_inv s →
  block_storage s' = block_storage s →
  file_descriptors s' = file_descriptors s →
  directory s' = directory s →
  (∀ h j off, open_files s' !! h = Some (j, off) → 0 ≤ j) →
  fs_inv s'.
Proof.
  intros [] Hst Hfds Hdir Hh. constructor; rewrite ?Hst, ?Hfds, ?Hdir; done.
Qed.

Lemma open_inv name s :
  fs_inv s →
  fs_inv (open name s).2.
Proof.
  intros Hinv. unfold open. destruct (directory s !! name) as [j|] eqn:Hname; [|done].
  cbn [snd]. apply (fs_inv_handles s); try done. cbn.
  intros h j' off [[<- [= <- <-]]|[_ Hh]]%lookup_insert_Some.
  - by apply (inv_names s Hinv name).
  - by apply (inv_handles s Hinv h j' off).
Qed.

Lemma close_inv fd s :
  fs_inv s →
  fs_inv (close fd s).2.
Proof.
  intros Hinv. unfold close. destruct (open_files s !! fd) as [x|] eqn:Hfd; [|done].
  cbn [snd]. apply (fs_inv_handles s); try done. cbn.
  intros h j off [_ Hh]%lookup_delete_Some. by apply (inv_handles s Hinv h j off).
Qed.

Lemma seek_inv fd offset s :
  fs_inv s →
  fs_inv (seek fd offset s).2.
Proof.
  intros Hinv. unfold seek. destruct (open_files s !! fd) as [[j off0]|] eqn:Hfd; [|done].
  cbn [snd]. apply (fs_inv_handles s); try done. cbn.
  intros h j' off [[<- [= <- <-]]|[_ Hh]]%lookup_insert_Some.
  - by apply (inv_handles s Hinv fd j off0).
  - by apply (inv_handles s Hinv h j' off).
Qed.

Lemma read_bytes_inv fd sz s :
  fs_inv s →
  fs_inv (read_bytes fd sz s).2.
Proof.
  intros Hinv. unfold read_bytes.
  destruct (open_files s !! fd) as [[j off0]|] eqn:Hfd; [|done].
  destruct (Py.get (file_descriptors s) j) as [[dj|]|]; [|done|done].
  destruct (read_loop _ _ _ _ _ _) as [[file_data cur]| |]; [|done|done].
  cbn [snd]. apply (fs_inv_handles s); try done. cbn.
  intros h j' off [[<- [= <- <-]]|[_ Hh]]%lookup_insert_Some.
  - by apply (inv_handles s Hinv fd j off0).
  - by apply (inv_handles s Hinv h j' off).
Qed.

(** The descriptor of slot [j] and the storage have moved as [extends]
    says. *)
Lemma fs_inv_extends s s' j dj dj' dj'' :
  fs_inv s → 0 ≤ j →
  file_descriptors s !! Z.to_nat j = Some (Some dj) →
  extends (block_storage s) dj (block_storage s') dj' →
  get_blocks dj'' = get_blocks dj' → hard_links dj'' = hard_links dj' →
  file_descriptors s' = <[Z.to_nat j := Some dj'']> (file_descriptors s) →
  directory s' = directory s →
  (∀ h j off, open_files s' !! h = Some (j, off) → 0 ≤ j) →
  fs_inv s'.
Proof.
  intros Hinv Hj Hdj (Hbits & (news & Hperm & Hndnews & Hnews) & Hshape & Hl)
    Hgb Hhl Hfds Hdir Hhandles.
  assert (Z.to_nat j < length (file_descriptors s))%nat as Hlt by (by eapply lookup_lt_Some).
  assert (∀ m, bitmap (block_storage s) !! m = Some 1 →
            bitmap (block_storage s') !! m = Some 1) as Hkeep.
  { intros m Hm. destruct (Hbits m) as [->|[? ?]]; congruence. }
  destruct (inv_blocks s Hinv _ _ Hdj) as [Hndold Hold].
  apply (fs_inv_update s s' (Z.to_nat j) (Some dj) (Some dj'')); try done.
  - intros name j' Hname. rewrite Hdir in Hname.
    destruct (inv_names s Hinv name j' Hname) as [Hj' [dj0 Hdj0]]. split; [done|].
    rewrite Hfds. destruct (decide (Z.to_nat j' = Z.to_nat j)) as [->|Hne].
    + rewrite list_lookup_insert_eq by done. eauto.
    + rewrite list_lookup_insert_ne by done. eauto.
  - intros n' d'. rewrite Hfds, Hdir.
    destruct (decide (n' = Z.to_nat j)) as [->|Hne].
    + rewrite list_lookup_insert_eq by done. intros [= <-].
      rewrite Hhl, Hl. by apply (inv_links s Hinv).
    + rewrite list_lookup_insert_ne by done. by apply (inv_links s Hinv).
  - intros d' [= <-]. rewrite Hgb. split.
    + rewrite Hperm. apply NoDup_app. split_and!; [done| |done].
      intros b Hb Hb'. destruct (Hnews b Hb) as (_ & H0 & _).
      destruct (Hold b Hb') as [_ H1]. congruence.
    + intros b. rewrite Hperm. intros [Hb|Hb]%elem_of_app.
      * by destruct (Hnews b Hb) as (? & _ & ?).
      * destruct (Hold b Hb) as [? ?]. split; [done|by apply Hkeep].
  - intros n' d' Hne Hd' b Hb.
    destruct (inv_blocks s Hinv _ _ Hd') as [_ Hbl']. destruct (Hbl' b Hb) as [Hb0 Hb1].
    split; [by apply Hkeep|]. intros d'' [= <-]. rewrite Hgb, Hperm.
    intros [Hin|Hin]%elem_of_app.
    + destruct (Hnews b Hin) as (_ & H0 & _). congruence.
    + by apply (inv_disjoint s Hinv n' (Z.to_nat j) d' dj Hne Hd' Hdj b).
Qed.

Lemma write_inv fd data s :
  fs_inv s →
  fs_inv (write fd data s).2.
Proof.
  intros Hinv. unfold write.
  destruct (open_files s !! fd) as [[j off0]|] eqn:Hfd; [|done].
  pose proof (inv_handles s Hinv fd j off0 Hfd) as Hj.
  rewrite get_nonneg by done.
  destruct (file_descriptors s !! Z.to_nat j) as [[dj|]|] eqn:Hdj; [| |done].
  2: { destruct data; [done|]. by destruct (_ =? _). }
  destruct (write_loop _ _ _ _ _) as [r [st d1]] eqn:Hloop.
  apply write_loop_extends in Hloop; [|by apply (inv_shape s Hinv)].
  destruct r as [cur| |]; cbn [snd];
    rewrite (put_slot_nonneg _ j (Some dj)) by done.
  - eapply (fs_inv_extends s _ j dj d1 (set_size d1 (Z.max (size d1) cur))); try done. cbn.
    intros h j' off [[<- [= <- <-]]|[_ Hh]]%lookup_insert_Some; [done|].
    by apply (inv_handles s Hinv h j' off).
  - eapply (fs_inv_extends s _ j dj d1 d1); try done. by apply (inv_handles s Hinv).
  - eapply (fs_inv_extends s _ j dj d1 d1); try done. by apply (inv_handles s Hinv).
Qed.

Lemma links_to_zero (dir : gmap string Z) i :
  (∀ name, dir !! name ≠ Some i) → links_to dir i = 0%nat.
Proof.
  intros Hnone. unfold links_to.
  destruct (filter _ (map_to_list dir)) as [|[name j] l] eqn:Hf; [done|].
  assert ((name, j) ∈ filter (λ kv : string * Z, kv.2 = i) (map_to_list dir)) as Hin
    by (rewrite Hf; left).
  apply list_elem_of_filter in Hin as [Hj Hin]. simpl in Hj. subst j.
  apply elem_of_map_to_list in Hin. by destruct (Hnone name).
Qed.

Lemma links_to_zero_inv (dir : gmap string Z) i name :
  links_to dir i = 0%nat → dir !! name ≠ Some i.
Proof. intros Hz Hname. apply links_to_pos in Hname. lia. Qed.

Lemma filter_take_prefix {A} (P : A → Prop) `{∀ x, Decision (P x)} (l : list A) : ∀ k x,
  x ∈ filter P (take k l) → x ∈ take k (filter P l).
Proof.
  induction l as [|y l IH]; intros [|k] x; simpl; try done.
  destruct (decide (P y)) as [Hy|Hy].
  - rewrite !filter_cons_True by done. simpl.
    intros [->|Hx]%elem_of_cons; [left|right; by apply IH].
  - rewrite !filter_cons_False by done. intros Hx%IH.
    apply elem_of_take in Hx as (j & Hj & Hlt). apply elem_of_take.
    exists j. split; [done|lia].
Qed.

Lemma elem_of_slice_to {A} (l : list A) n x : x ∈ Py.slice_to l n → x ∈ l.
Proof.
  unfold Py.slice_to. intros (j & Hj & _)%elem_of_take. by eapply list_elem_of_lookup_2.
Qed.

Lemma elem_of_slice_from {A} (l : list A) n x : x ∈ Py.slice_from l n → x ∈ l.
Proof.
  unfold Py.slice_from. intros (j & Hj & _)%elem_of_drop. by eapply list_elem_of_lookup_2.
Qed.

(** The blocks kept and the blocks freed by the shrinking branch of
    [truncate], for a count of blocks to keep that is not negative (or a
    descriptor without blocks). *)
Lemma shrink_kept_freed (direct : list Z) keep :
  0 ≤ keep ∨ filter (λ b, b ≠ -1) direct = [] →
  NoDup (filter (λ b, b ≠ -1) direct) →
  NoDup (filter (λ b, b ≠ -1) (Py.slice_to direct keep))
  ∧ ∀ b, b ∈ filter (λ b, b ≠ -1) (Py.slice_to direct keep) →
      b ∈ filter (λ b, b ≠ -1) direct
      ∧ b ∉ Py.slice_from (filter (λ b, b ≠ -1) direct) keep.
Proof.
  intros [Hkeep|Hnil] Hnd.
  - rewrite slice_to_take, slice_from_nonneg by done.
    set (k := Z.to_nat keep). split.
    + rewrite <- (take_drop k direct), filter_app in Hnd.
      by apply NoDup_app in Hnd as (? & _ & _).
    + intros b Hb. split.
      * apply list_elem_of_filter in Hb as [Hb1 Hb2]. apply list_elem_of_filter.
        split; [done|]. apply elem_of_take in Hb2 as (j & Hj & _).
        by eapply list_elem_of_lookup_2.
      * apply filter_take_prefix in Hb.
        rewrite <- (take_drop k (filter (λ b, b ≠ -1) direct)) in Hnd.
        apply NoDup_app in Hnd as (_ & Hdisj & _). by apply Hdisj.
  - assert (∀ b, b ∉ filter (λ b, b ≠ -1) (Py.slice_to direct keep)) as Hempty.
    { intros b [Hb1 Hb2%elem_of_slice_to]%list_elem_of_filter.
      assert (b ∈ filter (λ b, b ≠ -1) direct) as Hin by (by apply list_elem_of_filter).
      rewrite Hnil in Hin. by apply elem_of_nil in Hin. }
    destruct (filter _ (Py.slice_to direct keep)) as [|x l].
    + split; [apply NoDup_nil_2|]. intros b Hb. by apply elem_of_nil in Hb.
    + exfalso. apply (Hempty x). left.
Qed.

(** Freeing blocks of one descriptor leaves the bits of all other blocks. *)
Lemma release_blocks s n dn F :
  fs_inv s → file_descriptors s !! n = Some (Some dn) →
  (∀ b, b ∈ F → b ∈ get_blocks dn) →
  ∃ st', free_blocks F (block_storage s) = (Ret tt, st')
    ∧ storage_shape st'
    ∧ ∀ b, 0 ≤ b → b ∉ F →
        bitmap st' !! Z.to_nat b = bitmap (block_storage s) !! Z.to_nat b.
Proof.
  intros Hinv Hdn HF.
  destruct (inv_blocks s Hinv n dn Hdn) as [_ Hbl].
  destruct (free_blocks_effect F (block_storage s) (inv_shape s Hinv))
    as (st' & Hfree & Hshape & _ & _ & _ & _ & _ & Hsame).
  { intros b Hb. left. destruct (Hbl b (HF b Hb)) as [Hb0 Hb1].
    unfold used. by rewrite get_nonneg. }
  exists st'. split_and!; [done|done|].
  intros b Hb0 HbF. apply Hsame. intros b' Hb' Hnorm.
  destruct (Hbl b' (HF b' Hb')) as [Hb0' _].
  apply norm_nonneg_inv in Hnorm as [Heq _]; [|done].
  assert (b' = b) as -> by lia. done.
Qed.

Lemma truncate_inv name sz s :
  0 ≤ sz → fs_inv s →
  fs_inv (truncate name sz s).2.
Proof.
  intros Hsz Hinv. unfold truncate.
  destruct (directory s !! name) as [j|] eqn:Hname; [|done].
  destruct (inv_names s Hinv name j Hname) as [Hj [dj Hdj]].
  rewrite get_nonneg, Hdj by done.
  destruct (size dj <? sz).
  - (* growing *)
    destruct (Py.floordiv _ _) as [blocks_needed| |]; [|done|done].
    destruct (grow_blocks _ _ _) as [r [st d1]] eqn:Hloop.
    apply grow_blocks_extends in Hloop; [|by apply (inv_shape s Hinv)].
    destruct r as [[]| |]; cbn [snd];
      rewrite (put_slot_nonneg _ j (Some dj)) by done.
    + eapply (fs_inv_extends s _ j dj d1 (set_size d1 sz)); try done.
      by apply (inv_handles s Hinv).
    + eapply (fs_inv_extends s _ j dj d1 d1); try done. by apply (inv_handles s Hinv).
    + eapply (fs_inv_extends s _ j dj d1 d1); try done. by apply (inv_handles s Hinv).
  - destruct (sz <? size dj); [|done].
    (* shrinking *)
    unfold Py.floordiv.
    destruct (Z.eqb_spec (block_size (block_storage s)) 0) as [|Hbs]; [done|].
    set (keep := (sz + block_size (block_storage s) - 1) / block_size (block_storage s)).
    destruct (inv_blocks s Hinv _ _ Hdj) as [Hnd Hbl].
    assert (0 ≤ keep ∨ get_blocks dj = []) as Hkeep.
    { destruct (Z.lt_ge_cases 0 (block_size (block_storage s))) as [Hpos|Hneg].
      - left. apply Z.div_pos; lia.
      - right. destruct (inv_shape s Hinv) as [_ [?|Hnil]]; [lia|].
        destruct (get_blocks dj) as [|b l] eqn:Hgb; [done|].
        destruct (Hbl b) as [_ Hb]; [left|]. by rewrite Hnil in Hb. }
    destruct (shrink_kept_freed (direct_blocks dj) keep Hkeep Hnd) as [Hndk Hkept].
    destruct (release_blocks s (Z.to_nat j) dj (Py.slice_from (get_blocks dj) keep) Hinv Hdj)
      as (st' & -> & Hshape' & Hsame).
    { intros b Hb. by eapply elem_of_slice_from. }
    cbn [snd]. rewrite (put_slot_nonneg _ j (Some dj)) by done.
    apply (fs_inv_update s _ (Z.to_nat j) (Some dj)
             (Some (set_size (set_direct_blocks dj
                      (Py.slice_to (direct_blocks dj) keep)) sz))); try done.
    + intros name' j' Hname'. cbn in Hname'.
      destruct (inv_names s Hinv name' j' Hname') as [Hj' [dj0 Hdj0]]. split; [done|].
      cbn. destruct (decide (Z.to_nat j' = Z.to_nat j)) as [->|Hnej].
      * rewrite list_lookup_insert_eq by (by eapply lookup_lt_Some). eauto.
      * rewrite list_lookup_insert_ne by done. eauto.
    + intros n' d'. cbn. destruct (decide (n' = Z.to_nat j)) as [->|Hnej].
      * rewrite list_lookup_insert_eq by (by eapply lookup_lt_Some). intros [= <-].
        exact (inv_links s Hinv _ _ Hdj).
      * rewrite list_lookup_insert_ne by done. by apply (inv_links s Hinv).
    + intros d' [= <-]. split; [exact Hndk|]. intros b Hb. cbn.
      destruct (Hkept b Hb) as [Hin Hnotin]. destruct (Hbl b Hin) as [Hb0 Hb1].
      split; [done|]. by rewrite Hsame.
    + intros n' d' Hnen Hd' b Hb. cbn.
      destruct (inv_blocks s Hinv _ _ Hd') as [_ Hbl'].
      destruct (Hbl' b Hb) as [Hb0 Hb1].
      assert (b ∉ get_blocks dj) as Hnot.
      { by apply (inv_disjoint s Hinv n' (Z.to_nat j) d' dj). }
      split.
      * rewrite Hsame; [done|done|]. intros Hin%elem_of_slice_from. done.
      * intros d'' [= <-] Hin. by destruct (Hkept b Hin).
    + by apply (inv_handles s Hinv).
Qed.

Lemma create_inv name s :
  fs_inv s →
  fs_inv (create name s).2.
Proof.
  intros Hinv. destruct (create name s) as [r s'] eqn:Hcreate.
  assert ((∀ u, r ≠ Ret u) → s' = s) as Hfail.
  { revert Hcreate. unfold create. destruct (directory s !! name); [by intros [= _ <-]|].
    destruct (create_scan _ _ _) as [j| |]; [|by intros [= _ <-]|by intros [= _ <-]].
    destruct (Py.set _ _ _); [|by intros [= _ <-]].
    intros [= <- _] Hr. by destruct (Hr tt). }
  destruct r as [[]| |]; [|by rewrite Hfail|by rewrite Hfail].
  - apply create_Ret in Hcreate as (j & n & Hj & Hn & Hname & Hslot & ->).
    apply norm_nonneg_inv in Hn as [-> Hlt]; [|done]. cbn [snd].
    set (fresh_fd := FileDescriptor_init "regular" max_direct_blocks_default).
    assert (∀ name', directory s !! name' ≠ Some j) as Hnoname.
    { intros name' Hname'. destruct (inv_names s Hinv name' j Hname') as [_ [dj Hdj]].
      congruence. }
    apply (fs_inv_update s _ (Z.to_nat j) None (Some fresh_fd)); try done; cbn.
      * by apply (inv_shape s Hinv).
      * intros name' j' [[<- <-]|[_ Hname']]%lookup_insert_Some.
        -- split; [done|]. exists fresh_fd. apply list_lookup_insert_eq. lia.
        -- destruct (inv_names s Hinv name' j' Hname') as [Hj' [dj Hdj]]. split; [done|].
           exists dj. rewrite list_lookup_insert_ne; [done|]. intros Heq.
           rewrite Heq in Hslot. congruence.
      * intros n' d'. rewrite links_to_insert by done.
        destruct (decide (n' = Z.to_nat j)) as [->|Hne].
        -- rewrite list_lookup_insert_eq by lia. intros [= <-].
           rewrite decide_True by lia. rewrite links_to_zero; [done|].
           intros name'. rewrite Z2Nat.id by done. apply Hnoname.
        -- rewrite list_lookup_insert_ne by done. intros Hd'.
           rewrite decide_False by lia. by apply (inv_links s Hinv).
      * intros d' [= <-]. split; [apply NoDup_nil_2|].
        intros b Hb. by apply elem_of_nil in Hb.
      * intros n' d' Hne Hd' b Hb. destruct (inv_blocks s Hinv _ _ Hd') as [_ Hbl].
        split; [by apply Hbl|]. intros d'' [= <-] Hin. by apply elem_of_nil in Hin.
      * by apply (inv_handles s Hinv).
Qed.

Lemma link_inv name1 name2 s :
  fs_inv s →
  fs_inv (link name1 name2 s).2.
Proof.
  intros Hinv. unfold link.
  destruct (directory s !! name1) as [j|] eqn:Hname1; [|done].
  destruct (directory s !! name2) as [j2|] eqn:Hname2; [done|].
  destruct (inv_names s Hinv name1 j Hname1) as [Hj [dj Hdj]].
  rewrite get_nonneg, Hdj by done. cbn [snd].
  rewrite (put_slot_nonneg _ j (Some dj)) by done.
  assert (Z.to_nat j < length (file_descriptors s))%nat as Hlt by (by eapply lookup_lt_Some).
  destruct (inv_blocks s Hinv _ _ Hdj) as [Hnd Hbl].
  apply (fs_inv_update s _ (Z.to_nat j) (Some dj)
           (Some (set_hard_links dj (hard_links dj + 1)))); try done; cbn.
    + by apply (inv_shape s Hinv).
    + intros name' j' Hname'.
      assert (∃ name'', directory s !! name'' = Some j') as [name'' Hname''].
      { apply lookup_insert_Some in Hname' as [[_ <-]|[_ ?]]; eauto. }
      destruct (inv_names s Hinv name'' j' Hname'') as [Hj' [dj0 Hdj0]]. split; [done|].
      destruct (decide (Z.to_nat j' = Z.to_nat j)) as [->|Hne].
      * rewrite list_lookup_insert_eq by done. eauto.
      * rewrite list_lookup_insert_ne by done. eauto.
    + intros n' d'. rewrite links_to_insert by done.
      destruct (decide (n' = Z.to_nat j)) as [->|Hne].
      * rewrite list_lookup_insert_eq by done. intros [= <-]. cbn.
        rewrite decide_True by lia.
        pose proof (inv_links s Hinv _ _ Hdj). lia.
      * rewrite list_lookup_insert_ne by done. intros Hd'.
        rewrite decide_False by lia. by apply (inv_links s Hinv).
    + intros d' [= <-]. done.
    + intros n' d' Hne Hd' b Hb. destruct (inv_blocks s Hinv _ _ Hd') as [_ Hbl'].
      split; [by apply Hbl'|]. intros d'' [= <-].
      by apply (inv_disjoint s Hinv n' (Z.to_nat j) d' dj).
    + by apply (inv_handles s Hinv).
Qed.

Lemma unlink_inv name s :
  fs_inv s →
  fs_inv (unlink name s).2.
Proof.
  intros Hinv. unfold unlink.
  destruct (directory s !! name) as [j|] eqn:Hname; [|done].
  destruct (inv_names s Hinv name j Hname) as [Hj [dj Hdj]].
  cbn [file_descriptors set_directory]. rewrite get_nonneg, Hdj by done.
  set (s1 := set_directory s (delete name (directory s))).
  set (d := set_hard_links dj (hard_links dj - 1)).
  set (n := Z.to_nat j) in *.
  assert (n < length (file_descriptors s))%nat as Hlt by (by eapply lookup_lt_Some).
  rewrite (put_slot_nonneg s1 j (Some dj)) by done.
  fold n. cbn [file_descriptors s1 set_directory].
  destruct (inv_blocks s Hinv _ _ Hdj) as [Hnd Hbl].
  pose proof (inv_links s Hinv _ _ Hdj) as Hlinks.
  rewrite (links_to_delete _ name j (Z.of_nat n)) in Hlinks by done.
  rewrite decide_True in Hlinks by lia.
  assert (∀ n', n' ≠ n →
            links_to (delete name (directory s)) (Z.of_nat n')
            = links_to (directory s) (Z.of_nat n')) as Hother.
  { intros n' Hne. rewrite (links_to_delete (directory s) name j (Z.of_nat n')) by done.
    rewrite decide_False; [done|lia]. }
  destruct (_ && _) eqn:Hcond; cbn [snd].
  - (* the descriptor is reclaimed *)
    apply andb_true_iff in Hcond as [Hzero%Z.eqb_eq _]. cbn in Hzero.
    destruct (release_blocks s n dj (get_blocks d) Hinv Hdj) as (st' & Hfree & Hshape' & Hsame);
      [done|].
    cbn [block_storage set_file_descriptors s1 set_directory]. rewrite Hfree. cbn [snd].
    rewrite (put_slot_nonneg _ j (Some d))
      by (done || (cbn; fold n; by apply list_lookup_insert_eq)).
    fold n. cbn [file_descriptors set_block_storage set_file_descriptors].
    rewrite list_insert_insert_eq.
    assert (∀ name', delete name (directory s) !! name' ≠ Some j) as Hnoname.
    { intros name'. apply links_to_zero_inv. replace j with (Z.of_nat n) by lia. lia. }
    apply (fs_inv_update s _ n (Some dj) None); try done; cbn.
      * intros name' j' Hname'. pose proof Hname' as [_ Hin]%lookup_delete_Some.
        destruct (inv_names s Hinv name' j' Hin) as [Hj' [dj0 Hdj0]]. split; [done|].
        exists dj0. rewrite list_lookup_insert_ne; [done|]. intros Heq.
        apply (Hnoname name'). rewrite Hname'. f_equal. lia.
      * intros n' d'. destruct (decide (n' = n)) as [->|Hnen].
        -- by rewrite list_lookup_insert_eq.
        -- rewrite list_lookup_insert_ne by done. intros Hd'.
           rewrite Hother by done. by apply (inv_links s Hinv).
      * intros n' d' Hnen Hd' b Hb. destruct (inv_blocks s Hinv _ _ Hd') as [_ Hbl'].
        destruct (Hbl' b Hb) as [Hb0 Hb1]. split; [|done].
        rewrite Hsame; [done|done|].
        by apply (inv_disjoint s Hinv n' n d' dj).
      * by apply (inv_handles s Hinv).
  - (* the descriptor stays *)
    apply (fs_inv_update s _ n (Some dj) (Some d)); try done; cbn.
      * by apply (inv_shape s Hinv).
      * intros name' j' [_ Hin]%lookup_delete_Some.
        destruct (inv_names s Hinv name' j' Hin) as [Hj' [dj0 Hdj0]]. split; [done|].
        destruct (decide (Z.to_nat j' = n)) as [->|Hnej].
        -- rewrite list_lookup_insert_eq by done. eauto.
        -- rewrite list_lookup_insert_ne by done. eauto.
      * intros n' d'. destruct (decide (n' = n)) as [->|Hnen].
        -- rewrite list_lookup_insert_eq by done. intros [= <-]. cbn. lia.
        -- rewrite list_lookup_insert_ne by done. intros Hd'.
           rewrite Hother by done. by apply (inv_links s Hinv).
      * intros d' [= <-]. done.
      * intros n' d' Hnen Hd' b Hb. destruct (inv_blocks s Hinv _ _ Hd') as [_ Hbl'].
        split; [by apply Hbl'|]. intros d'' [= <-].
        by apply (inv_disjoint s Hinv n' n d' dj).
      * by apply (inv_handles s Hinv).
Qed.

Lemma mkfs_inv n s : fs_inv s → fs_inv (mkfs n s).2.
Proof.
  intros Hinv. unfold mkfs.
  destruct (FileSystem_init _ _ _) as [s'| |] eqn:Hinit; [|done|done].
  by apply fs_inv_init in Hinit.
Qed.

Lemma step_inv s c : fs_inv s → sane_call c → fs_inv (step s c).
Proof.
  intros Hinv Hsane. destruct c; cbn [step]; cbn in Hsane.
  - by apply mkfs_inv.
  - done.
  - done.
  - by apply create_inv.
  - by apply open_inv.
  - by apply close_inv.
  - by apply seek_inv.
  - by apply read_bytes_inv.
  - by apply write_inv.
  - by apply link_inv.
  - by apply unlink_inv.
  - by apply truncate_inv.
Qed.

Lemma run_inv cs : ∀ s, Forall sane_call cs → fs_inv s → fs_inv (run s cs).
Proof.
  induction cs as [|c cs IH]; intros s Hsane Hinv; [done|].
  apply Forall_cons in Hsane as [Hc Hcs]. simpl. apply IH; [done|].
  by apply step_inv.
Qed.

(** ** An orphan whose last handle has been closed *)

(** In a state that satisfies the invariant, a descriptor with no link and
    no handle is out of reach. *)
Lemma fs_inv_orphan s i d :
  fs_inv s → 0 ≤ i →
  file_descriptors s !! Z.to_nat i = Some (Some d) →
  hard_links d = 0 →
  (∀ h off, open_files s !! h ≠ Some (i, off)) →
  orphan_inv s i d.
Proof.
  intros Hinv Hi Hd Hzero Hnoh.
  assert (∀ name, directory s !! name ≠ Some i) as Hnoname.
  { intros name. apply links_to_zero_inv.
    pose proof (inv_links s Hinv _ _ Hd) as Hl. rewrite Z2Nat.id in Hl by done. lia. }
  constructor; try done.
  - by apply (inv_shape s Hinv).
  - intros name j Hname. destruct (inv_names s Hinv name j Hname) as [Hj _].
    split; [done|]. intros ->. by apply (Hnoname name).
  - intros h j off Hh. split; [by apply (inv_handles s Hinv h j off)|].
    intros ->. by apply (Hnoh h off).
  - by apply (inv_blocks s Hinv _ _ Hd).
  - intros n d' Hne Hd' b Hb. destruct (inv_blocks s Hinv _ _ Hd') as [_ Hbl].
    split; [by apply Hbl|].
    by apply (inv_disjoint s Hinv n (Z.to_nat i) d' d).
Qed.

(** No slot of the descriptor table has changed. *)
Lemma orphan_inv_frame s s' i d :
  orphan_inv s i d →
  file_descriptors s' = file_descriptors s →
  storage_shape (block_storage s') →
  (∀ b, b ∈ get_blocks d → bitmap (block_storage s') !! Z.to_nat b = Some 1) →
  (∀ name j, directory s' !! name = Some j → 0 ≤ j ∧ j ≠ i) →
  (∀ h j off, open_files s' !! h = Some (j, off) → 0 ≤ j ∧ j ≠ i) →
  orphan_inv s' i d.
Proof.
  intros Horph Hfds Hshape Hbits Hnames Hhandles.
  constructor; rewrite ?Hfds; try done.
  - by apply (orph_index s i d).
  - by apply (orph_slot s i d).
  - intros b Hb. split; [by apply (orph_blocks s i d Horph)|by apply Hbits].
  - by apply (orph_others s i d).
Qed.

(** Slot [j], another slot, has changed. *)
Lemma orphan_inv_slot s s' i d j o' :
  orphan_inv s i d → 0 ≤ j → j ≠ i →
  file_descriptors s' = <[Z.to_nat j := o']> (file_descriptors s) →
  (∀ d', o' = Some d' → ∀ b, b ∈ get_blocks d' → 0 ≤ b ∧ b ∉ get_blocks d) →
  storage_shape (block_storage s') →
  (∀ b, b ∈ get_blocks d → bitmap (block_storage s') !! Z.to_nat b = Some 1) →
  (∀ name j, directory s' !! name = Some j → 0 ≤ j ∧ j ≠ i) →
  (∀ h j off, open_files s' !! h = Some (j, off) → 0 ≤ j ∧ j ≠ i) →
  orphan_inv s' i d.
Proof.
  intros Horph Hj Hne Hfds Hnew Hshape Hbits Hnames Hhandles.
  pose proof (orph_index s i d Horph) as Hi.
  constructor; rewrite ?Hfds; try done.
  - rewrite list_lookup_insert_ne by lia. by apply (orph_slot s i d).
  - intros b Hb. split; [by apply (orph_blocks s i d Horph)|by apply Hbits].
  - intros n d' Hn [(_ & Ho & _)|[_ Hold]]%list_lookup_insert_Some.
    + by apply (Hnew d').
    + by apply (orph_others s i d Horph n d').
Qed.

(** What [free_block] and the loops over it leave alone, whatever their
    outcome. *)
Lemma free_block_frame b st r st' :
  free_block b st = (r, st') → storage_shape st → 0 ≤ b →
  storage_shape st' ∧ ∀ m, Z.to_nat b ≠ m → bitmap st' !! m = bitmap st !! m.
Proof.
  intros Hfree [Hlen Hbs] Hb. revert Hfree. unfold free_block.
  destruct (Py.get (bitmap st) b) as [v|] eqn:Hg; [|by intros [= _ <-]].
  destruct (v =? 1); [|by intros [= _ <-]].
  destruct (get_is_Some_set _ _ _ 0 Hg) as (n & Hn & ->).
  apply norm_nonneg_inv in Hn as [-> Hlt]; [|done].
  assert (storage_shape (set_bitmap st (<[Z.to_nat b:=0]> (bitmap st)))
          ∧ ∀ m, Z.to_nat b ≠ m →
              bitmap (set_bitmap st (<[Z.to_nat b:=0]> (bitmap st))) !! m = bitmap st !! m)
    as [Hshape1 Hsame1].
  { split.
    - split; cbn; [by rewrite length_insert|].
      destruct Hbs as [?|Hnil]; [by left|]. right. by rewrite Hnil.
    - intros m Hm. cbn. by apply list_lookup_insert_ne. }
  destruct (Py.bytearray (block_size st)) as [zeros| |]; try by intros [= _ <-].
  destruct (Py.set _ _ _) as [bl'|] eqn:Hset; intros [= _ <-]; [|done].
  split; [|done]. destruct Hshape1 as [Hlen1 Hbs1]. split; cbn; [|done].
  apply set_length in Hset. cbn in Hset, Hlen1. congruence.
Qed.

Lemma free_blocks_frame l : ∀ st r st',
  free_blocks l st = (r, st') → storage_shape st → (∀ b, b ∈ l → 0 ≤ b) →
  storage_shape st'
  ∧ ∀ m, (∀ b, b ∈ l → Z.to_nat b ≠ m) → bitmap st' !! m = bitmap st !! m.
Proof.
  induction l as [|b l IH]; intros st r st' Hfree Hshape Hl; simpl in Hfree.
  { injection Hfree as _ <-. done. }
  destruct (free_block b st) as [r1 st1] eqn:Hfb.
  apply free_block_frame in Hfb as [Hshape1 Hsame1]; [|done|apply Hl; left].
  assert (storage_shape st'
          ∧ ∀ m, (∀ b', b' ∈ l → Z.to_nat b' ≠ m) → bitmap st' !! m = bitmap st1 !! m)
    as [Hshape' Hsame'].
  { destruct r1 as [[]| |].
    - apply (IH st1 r st'); [done|done|]. intros b' Hb'. apply Hl. by right.
    - by injection Hfree as _ <-.
    - by injection Hfree as _ <-. }
  split; [done|]. intros m Hm. rewrite Hsame'.
  - apply Hsame1, Hm. left.
  - intros b' Hb'. apply Hm. by right.
Qed.

(** The bits of the blocks of the orphan stay set through a loop that
    allocates for another descriptor, and the blocks that descriptor gains
    are not blocks of the orphan. *)
Lemma orphan_extends s i d n dn st' dn' :
  orphan_inv s i d → n ≠ Z.to_nat i →
  file_descriptors s !! n = Some (Some dn) →
  extends (block_storage s) dn st' dn' →
  storage_shape st'
  ∧ (∀ b, b ∈ get_blocks d → bitmap st' !! Z.to_nat b = Some 1)
  ∧ (∀ b, b ∈ get_blocks dn' → 0 ≤ b ∧ b ∉ get_blocks d).
Proof.
  intros Horph Hne Hdn (Hbits & (news & Hperm & _ & Hnews) & Hshape & _).
  split_and!; [done| |].
  - intros b Hb. destruct (orph_blocks s i d Horph b Hb) as [_ H1].
    destruct (Hbits (Z.to_nat b)) as [->|[? ?]]; congruence.
  - intros b. rewrite Hperm. intros [Hb|Hb]%elem_of_app.
    + destruct (Hnews b Hb) as (Hb0 & H0 & _). split; [done|]. intros Hin.
      destruct (orph_blocks s i d Horph b Hin) as [_ H1]. congruence.
    + by apply (orph_others s i d Horph n dn).
Qed.

Lemma open_orphan name s i d : orphan_inv s i d → orphan_inv (open name s).2 i d.
Proof.
  intros Horph. unfold open. destruct (directory s !! name) as [j|] eqn:Hname; [|done].
  cbn [snd]. apply (orphan_inv_frame s); try done; cbn.
  - by apply (orph_shape s i d).
  - intros b Hb. by apply (orph_blocks s i d Horph).
  - by apply (orph_names s i d).
  - intros h j' off [[<- [= <- <-]]|[_ Hh]]%lookup_insert_Some.
    + by apply (orph_names s i d Horph name).
    + by apply (orph_handles s i d Horph h j' off).
Qed.

Lemma close_orphan fd s i d : orphan_inv s i d → orphan_inv (close fd s).2 i d.
Proof.
  intros Horph. unfold close. destruct (open_files s !! fd) as [x|] eqn:Hfd; [|done].
  cbn [snd]. apply (orphan_inv_frame s); try done; cbn.
  - by apply (orph_shape s i d).
  - intros b Hb. by apply (orph_blocks s i d Horph).
  - by apply (orph_names s i d).
  - intros h j off [_ Hh]%lookup_delete_Some. by apply (orph_handles s i d Horph h j off).
Qed.

Lemma seek_orphan fd offset s i d : orphan_inv s i d → orphan_inv (seek fd offset s).2 i d.
Proof.
  intros Horph. unfold seek. destruct (open_files s !! fd) as [[j off0]|] eqn:Hfd; [|done].
  cbn [snd]. apply (orphan_inv_frame s); try done; cbn.
  - by apply (orph_shape s i d).
  - intros b Hb. by apply (orph_blocks s i d Horph).
  - by apply (orph_names s i d).
  - intros h j' off [[<- [= <- <-]]|[_ Hh]]%lookup_insert_Some.
    + by apply (orph_handles s i d Horph fd j off0).
    + by apply (orph_handles s i d Horph h j' off).
Qed.

Lemma read_bytes_orphan fd sz s i d :
  orphan_inv s i d → orphan_inv (read_bytes fd sz s).2 i d.
Proof.
  intros Horph. unfold read_bytes.
  destruct (open_files s !! fd) as [[j off0]|] eqn:Hfd; [|done].
  destruct (Py.get (file_descriptors s) j) as [[dj|]|]; [|done|done].
  destruct (read_loop _ _ _ _ _ _) as [[file_data cur]| |]; [|done|done].
  cbn [snd]. apply (orphan_inv_frame s); try done; cbn.
  - by apply (orph_shape s i d).
  - intros b Hb. by apply (orph_blocks s i d Horph).
  - by apply (orph_names s i d).
  - intros h j' off [[<- [= <- <-]]|[_ Hh]]%lookup_insert_Some.
    + by apply (orph_handles s i d Horph fd j off0).
    + by apply (orph_handles s i d Horph h j' off).
Qed.

Lemma write_orphan fd data s i d : orphan_inv s i d → orphan_inv (write fd data s).2 i d.
Proof.
  intros Horph. pose proof (orph_index s i d Horph) as Hi. unfold write.
  destruct (open_files s !! fd) as [[j off0]|] eqn:Hfd; [|done].
  destruct (orph_handles s i d Horph fd j off0 Hfd) as [Hj Hne].
  rewrite get_nonneg by done.
  destruct (file_descriptors s !! Z.to_nat j) as [[dj|]|] eqn:Hdj; [| |done].
  2: { destruct data; [done|]. by destruct (_ =? _). }
  destruct (write_loop _ _ _ _ _) as [r [st d1]] eqn:Hloop.
  apply write_loop_extends in Hloop; [|by apply (orph_shape s i d)].
  destruct (orphan_extends s i d (Z.to_nat j) dj st d1 Horph) as (Hshape & Hbits & Hnew);
    [lia|done|done|].
  destruct r as [cur| |]; cbn [snd];
    rewrite (put_slot_nonneg _ j (Some dj)) by done;
    (eapply (orphan_inv_slot s _ i d j); [done|done|done|reflexivity|..]); cbn; try done;
    try (by intros d' [= <-]); try (by apply (orph_names s i d));
    try (by apply (orph_handles s i d)).
  intros h j' off [[<- [= <- <-]]|[_ Hh]]%lookup_insert_Some; [done|].
  by apply (orph_handles s i d Horph h j' off).
Qed.

Lemma truncate_orphan name sz s i d :
  orphan_inv s i d → orphan_inv (truncate name sz s).2 i d.
Proof.
  intros Horph. pose proof (orph_index s i d Horph) as Hi. unfold truncate.
  destruct (directory s !! name) as [j|] eqn:Hname; [|done].
  destruct (orph_names s i d Horph name j Hname) as [Hj Hne].
  rewrite get_nonneg by done.
  destruct (file_descriptors s !! Z.to_nat j) as [[dj|]|] eqn:Hdj; [|done|done].
  destruct (size dj <? sz).
  - (* growing *)
    destruct (Py.floordiv _ _) as [blocks_needed| |]; [|done|done].
    destruct (grow_blocks _ _ _) as [r [st d1]] eqn:Hloop.
    apply grow_blocks_extends in Hloop; [|by apply (orph_shape s i d)].
    destruct (orphan_extends s i d (Z.to_nat j) dj st d1 Horph) as (Hshape & Hbits & Hnew);
      [lia|done|done|].
    destruct r as [[]| |]; cbn [snd];
      rewrite (put_slot_nonneg _ j (Some dj)) by done;
      (eapply (orphan_inv_slot s _ i d j); [done|done|done|reflexivity|..]); cbn; try done;
      try (by intros d' [= <-]); try (by apply (orph_names s i d));
      try (by apply (orph_handles s i d)).
  - destruct (sz <? size dj); [|done].
    (* shrinking *)
    destruct (Py.floordiv _ _) as [keep| |]; [|done|done].
    destruct (free_blocks _ _) as [r st'] eqn:Hfree.
    apply free_blocks_frame in Hfree as [Hshape Hsame]; [|by apply (orph_shape s i d)|].
    2: { intros b Hb%elem_of_slice_from. by apply (orph_others s i d Horph (Z.to_nat j) dj); [lia|..]. }
    assert (∀ b, b ∈ get_blocks d → bitmap st' !! Z.to_nat b = Some 1) as Hbits.
    { intros b Hb. destruct (orph_blocks s i d Horph b Hb) as [Hb0 Hb1].
      rewrite Hsame; [done|]. intros b' Hb'%elem_of_slice_from Heq.
      destruct (orph_others s i d Horph (Z.to_nat j) dj ltac:(lia) Hdj b' Hb') as [Hb0' Hnot].
      assert (b' = b) as -> by lia. done. }
    destruct r as [[]| |]; cbn [snd].
    + rewrite (put_slot_nonneg _ j (Some dj)) by done.
      eapply (orphan_inv_slot s _ i d j); [done|done|done|reflexivity|..]; cbn; try done.
      * intros d' [= <-] b [Hb1 Hb2%elem_of_slice_to]%list_elem_of_filter.
        apply (orph_others s i d Horph (Z.to_nat j) dj); [lia|done|].
        by apply list_elem_of_filter.
      * by apply (orph_names s i d).
      * by apply (orph_handles s i d).
    + apply (orphan_inv_frame s); try done; cbn.
      * by apply (orph_names s i d).
      * by apply (orph_handles s i d).
    + apply (orphan_inv_frame s); try done; cbn.
      * by apply (orph_names s i d).
      * by apply (orph_handles s i d).
Qed.

Lemma unlink_orphan name s i d : orphan_inv s i d → orphan_inv (unlink name s).2 i d.
Proof.
  intros Horph. pose proof (orph_index s i d Horph) as Hi. unfold unlink.
  destruct (directory s !! name) as [j|] eqn:Hname; [|done].
  destruct (orph_names s i d Horph name j Hname) as [Hj Hne].
  cbn [file_descriptors set_directory]. rewrite get_nonneg by done.
  set (s1 := set_directory s (delete name (directory s))).
  assert (∀ name' j', delete name (directory s) !! name' = Some j' → 0 ≤ j' ∧ j' ≠ i)
    as Hnames.
  { intros name' j' [_ Hin]%lookup_delete_Some. by apply (orph_names s i d Horph name'). }
  assert (∀ b, b ∈ get_blocks d → bitmap (block_storage s) !! Z.to_nat b = Some 1) as Hbits.
  { intros b Hb. by apply (orph_blocks s i d Horph). }
  destruct (file_descriptors s !! Z.to_nat j) as [[dj|]|] eqn:Hdj.
  - set (d' := set_hard_links dj (hard_links dj - 1)).
    set (n := Z.to_nat j) in *.
    assert (n < length (file_descriptors s))%nat as Hlt by (by eapply lookup_lt_Some).
    assert (∀ b, b ∈ get_blocks dj → 0 ≤ b ∧ b ∉ get_blocks d) as Hdjb.
    { apply (orph_others s i d Horph n dj); [unfold n; lia|done]. }
    rewrite (put_slot_nonneg s1 j (Some dj)) by done.
    fold n. cbn [file_descriptors s1 set_directory].
    destruct (_ && _); cbn [snd].
    + cbn [block_storage set_file_descriptors s1 set_directory].
      destruct (free_blocks _ _) as [r st'] eqn:Hfree.
      apply free_blocks_frame in Hfree as [Hshape Hsame];
        [|by apply (orph_shape s i d)|intros b Hb; by apply Hdjb].
      assert (∀ b, b ∈ get_blocks d → bitmap st' !! Z.to_nat b = Some 1) as Hbits'.
      { intros b Hb. destruct (orph_blocks s i d Horph b Hb) as [Hb0 Hb1].
        rewrite Hsame; [done|]. intros b' Hb' Heq.
        destruct (Hdjb b' Hb') as [Hb0' Hnot].
        assert (b' = b) as -> by lia. done. }
      destruct r as [[]| |]; cbn [snd].
      * rewrite (put_slot_nonneg _ j (Some d'))
          by (done || (cbn; fold n; by apply list_lookup_insert_eq)).
        fold n. cbn [file_descriptors set_block_storage set_file_descriptors].
        rewrite list_insert_insert_eq.
        eapply (orphan_inv_slot s _ i d j None); [done|done|done|reflexivity|..];
          cbn; try done.
        by apply (orph_handles s i d).
      * eapply (orphan_inv_slot s _ i d j (Some d')); [done|done|done|reflexivity|..];
          cbn; try done; [by intros d0 [= <-]|by apply (orph_handles s i d)].
      * eapply (orphan_inv_slot s _ i d j (Some d')); [done|done|done|reflexivity|..];
          cbn; try done; [by intros d0 [= <-]|by apply (orph_handles s i d)].
    + eapply (orphan_inv_slot s _ i d j (Some d')); [done|done|done|reflexivity|..];
        cbn; try done;
        [by intros d0 [= <-]|by apply (orph_shape s i d)|by apply (orph_handles s i d)].
  - cbn [snd]. apply (orphan_inv_frame s); try done; cbn;
      [by apply (orph_shape s i d)|by apply (orph_handles s i d)].
  - cbn [snd]. apply (orphan_inv_frame s); try done; cbn;
      [by apply (orph_shape s i d)|by apply (orph_handles s i d)].
Qed.

Lemma create_orphan name s i d : orphan_inv s i d → orphan_inv (create name s).2 i d.
Proof.
  intros Horph. pose proof (orph_index s i d Horph) as Hi.
  destruct (create name s) as [r s'] eqn:Hcreate.
  assert ((∀ u, r ≠ Ret u) → s' = s) as Hfail.
  { revert Hcreate. unfold create. destruct (directory s !! name); [by intros [= _ <-]|].
    destruct (create_scan _ _ _) as [j| |]; [|by intros [= _ <-]|by intros [= _ <-]].
    destruct (Py.set _ _ _); [|by intros [= _ <-]].
    intros [= <- _] Hr. by destruct (Hr tt). }
  destruct r as [[]| |]; [|by rewrite Hfail|by rewrite Hfail].
  apply create_Ret in Hcreate as (j & n & Hj & Hn & Hname & Hslot & ->).
  apply norm_nonneg_inv in Hn as [-> Hlt]; [|done]. cbn [snd].
  assert (j ≠ i) as Hne.
  { intros ->. pose proof (orph_slot s i d Horph). congruence. }
  eapply (orphan_inv_slot s _ i d j); [done|done|done|reflexivity|..]; cbn.
  - intros d' [= <-] b Hb. by apply elem_of_nil in Hb.
  - by apply (orph_shape s i d).
  - intros b Hb. by apply (orph_blocks s i d Horph).
  - intros name' j' [[<- <-]|[_ Hname']]%lookup_insert_Some; [done|].
    by apply (orph_names s i d Horph name').
  - by apply (orph_handles s i d).
Qed.

Lemma link_orphan name1 name2 s i d :
  orphan_inv s i d → orphan_inv (link name1 name2 s).2 i d.
Proof.
  intros Horph. pose proof (orph_index s i d Horph) as Hi. unfold link.
  destruct (directory s !! name1) as [j|] eqn:Hname1; [|done].
  destruct (directory s !! name2) as [j2|] eqn:Hname2; [done|].
  destruct (orph_names s i d Horph name1 j Hname1) as [Hj Hne].
  rewrite get_nonneg by done.
  destruct (file_descriptors s !! Z.to_nat j) as [[dj|]|] eqn:Hdj; [|done|done].
  cbn [snd]. rewrite (put_slot_nonneg _ j (Some dj)) by done.
  eapply (orphan_inv_slot s _ i d j); [done|done|done|reflexivity|..]; cbn.
  - intros d' [= <-]. apply (orph_others s i d Horph (Z.to_nat j) dj); [lia|done].
  - by apply (orph_shape s i d).
  - intros b Hb. by apply (orph_blocks s i d Horph).
  - intros name' j' [[_ <-]|[_ Hname']]%lookup_insert_Some; [done|].
    by apply (orph_names s i d Horph name').
  - by apply (orph_handles s i d).
Qed.

Lemma step_orphan s c i d : not_mkfs c → orphan_inv s i d → orphan_inv (step s c) i d.
Proof.
  intros Hc Horph. destruct c; cbn [step]; cbn in Hc.
  - done.
  - done.
  - done.
  - by apply create_orphan.
  - by apply open_orphan.
  - by apply close_orphan.
  - by apply seek_orphan.
  - by apply read_bytes_orphan.
  - by apply write_orphan.
  - by apply link_orphan.
  - by apply unlink_orphan.
  - by apply truncate_orphan.
Qed.

Lemma run_orphan cs : ∀ s i d,
  Forall not_mkfs cs → orphan_inv s i d → orphan_inv (run s cs) i d.
Proof.
  induction cs as [|c cs IH]; intros s i d Hnm Horph; [done|].
  apply Forall_cons in Hnm as [Hc Hcs]. simpl. apply IH; [done|].
  by apply step_orphan.
Qed.

(** ** Orphans *)

(** C6, as the code has it: take any state reached from a fresh file system
    by calls whose [truncate] sizes are not negative, and in it a descriptor
    with [hard_links] 0 that no handle references (an orphan whose last handle
    has been closed).  After any further calls other than [mkfs], the
    descriptor is still in its slot, unchanged, and every one of its blocks is
    still marked used.  [close] itself only removes the handle. *)
Theorem orphan_is_never_reclaimed nb bs mf s0 cs1 cs2 i d :
  FileSystem_init nb bs mf = Ret s0 →
  Forall sane_call cs1 →
  Forall not_mkfs cs2 →
  0 ≤ i →
  file_descriptors (run s0 cs1) !! Z.to_nat i = Some (Some d) →
  hard_links d = 0 →
  (∀ h off, open_files (run s0 cs1) !! h ≠ Some (i, off)) →
  file_descriptors (run (run s0 cs1) cs2) !! Z.to_nat i = Some (Some d)
  ∧ (∀ b, b ∈ get_blocks d → used (block_storage (run (run s0 cs1) cs2)) b)
  ∧ (∀ s h, block_storage (close h s).2 = block_storage s
            ∧ file_descriptors (close h s).2 = file_descriptors s
            ∧ directory (close h s).2 = directory s
            ∧ open_files (close h s).2 = delete h (open_files s)).
Proof.
  intros Hinit Hs1 Hnm Hi Hd Hzero Hnoh.
  pose proof (run_inv cs1 s0 Hs1 (fs_inv_init _ _ _ _ Hinit)) as Hinv1.
  pose proof (fs_inv_orphan _ i d Hinv1 Hi Hd Hzero Hnoh) as Horph1.
  pose proof (run_orphan cs2 _ i d Hnm Horph1) as Horph2.
  split_and!.
  - by apply (orph_slot _ i d).
  - intros b Hb. destruct (orph_blocks _ i d Horph2 b Hb) as [Hb0 Hb1].
    unfold used. by rewrite get_nonneg.
  - intros s h. unfold close. destruct (open_files s !! h) eqn:Hh; cbn; [done|].
    split_and!; try done. symmetry. by apply delete_id.
Qed.

(** C6 as the claim words it fails: [mkfs] is a later operation, and it
    returns the blocks of the orphan to the pool and empties its slot. *)
Lemma mkfs_reclaims_orphan :
  let s1 := run one_open_file [Write 0 (bytes_of_string "abcdef"); Unlink "a"; Close 0] in
  let s2 := run s1 [Mkfs 2] in
  hard_links <$> slot s1 0 = Some 0
  ∧ open_files s1 = ∅
  ∧ get_blocks <$> slot s1 0 = Some [0; 1]
  ∧ used (block_storage s1) 0 ∧ used (block_storage s1) 1
  ∧ slot s2 0 = None
  ∧ ¬ used (block_storage s2) 0 ∧ ¬ used (block_storage s2) 1.
Proof. vm_compute. split_and!; done. Qed.

(** A negative size given to [truncate] before the descriptor is orphaned
    also lets a later [unlink] of another file free a block of the orphan:
    the block was freed by the truncation, stayed in the list of the file, and
    was allocated again to the other file. *)
Lemma negative_truncate_shares_a_block :
  let s1 := run (fresh 4 4 2)
              [Create "a"; Open "a"; Write 0 (bytes_of_string "abcdefghijkl");
               Truncate "a" (-4); Create "b"; Open "b"; Write 1 (bytes_of_string "wxyz");
               Unlink "a"; Close 0] in
  let s2 := run s1 [Close 1; Unlink "b"] in
  hard_links <$> slot s1 0 = Some 0
  ∧ get_blocks <$> slot s1 0 = Some [0; 1; 2]
  ∧ used (block_storage s1) 2
  ∧ get_blocks <$> slot s2 0 = Some [0; 1; 2]
  ∧ ¬ used (block_storage s2) 2.
Proof. vm_compute. split_and!; done. Qed.

(** ** The theorems at work on small file systems *)

Lemma storage_ok_fresh nb bs mf :
  0 < bs → 0 ≤ nb → storage_ok (block_storage (fresh nb bs mf)).
Proof.
  intros Hbs Hnb. unfold storage_ok, blocks_sized. cbn.
  rewrite !length_replicate. split_and!; try done.
  apply Forall_replicate. by rewrite length_replicate.
Qed.

Lemma unlink_reclaims_iff_unreferenced_witness :
  ∃ s', unlink "a" (run two_block_file [Close 0]) = (Ret tt, s')
    ∧ Py.get (file_descriptors s') 0 = Some None
    ∧ ∀ b, b ∈ [0; 1] → is_free (block_storage s') b.
Proof.
  destruct (unlink_reclaims_iff_unreferenced (run two_block_file [Close 0]) "a") as [_ H].
  destruct (H 0 two_block_descriptor) as (s' & Hun & _ & _ & Hrec & _).
  - vm_compute. reflexivity.
  - vm_compute. reflexivity.
  - split; [vm_compute; reflexivity|left; vm_compute; discriminate].
  - intros b Hb. vm_compute in Hb.
    apply elem_of_cons in Hb as [->|Hb]; [vm_compute; reflexivity|].
    apply elem_of_cons in Hb as [->|Hb]; [vm_compute; reflexivity|].
    by apply elem_of_nil in Hb.
  - exists s'. split; [exact Hun|]. apply Hrec. split; [vm_compute; reflexivity|].
    intros (h & off & Hh). vm_compute in Hh. discriminate.
Defined.

Lemma two_block_file_ok : storage_ok (block_storage two_block_file).
Proof.
  unfold storage_ok, blocks_sized. vm_compute. split_and!; try reflexivity.
  repeat constructor.
Qed.

Lemma truncate_grows_and_shrinks_witness :
  ∃ s' d',
    truncate "a" 2 two_block_file = (Ret tt, s')
    ∧ Py.get (file_descriptors s') 0 = Some (Some d')
    ∧ size d' = 2
    ∧ get_blocks d' = [0]
    ∧ is_free (block_storage s') 1
    ∧ used (block_storage s') 0.
Proof.
  destruct (truncate_grows_and_shrinks two_block_file "a" 2 0 two_block_descriptor [0; 1] 8)
    as (_ & _ & Hshrink & _).
  - vm_compute. reflexivity.
  - vm_compute. reflexivity.
  - exact two_block_file_ok.
  - reflexivity.
  - apply (bool_decide_unpack _). vm_compute. exact I.
  - intros b Hb.
    apply elem_of_cons in Hb as [->|Hb]; [split; [lia|vm_compute; reflexivity]|].
    apply elem_of_cons in Hb as [->|Hb]; [split; [lia|vm_compute; reflexivity]|].
    by apply elem_of_nil in Hb.
  - lia.
  - destruct Hshrink as (s' & d' & Htr & Hget & Hsize & Hgb & Hfreed & Hkept).
    + vm_compute. reflexivity.
    + exists s', d'. split_and!; try done.
      * apply Hfreed. vm_compute. apply elem_of_cons. by left.
      * apply Hkept. vm_compute. apply elem_of_cons. by left.
Defined.

Lemma freed_blocks_read_zero_witness :
  read_block 0
    (storage_run (mkBlockStorage 2 2 [[x00; x00]; [x00; x00]] [0; 0])
       [Allocate; WriteBlock 0 (bytes_of_string "ab"); Free 0])
  = Ret [x00; x00].
Proof.
  destruct (freed_blocks_read_zero 2 2
              (mkBlockStorage 2 2 [[x00; x00]; [x00; x00]] [0; 0])
              [Allocate; WriteBlock 0 (bytes_of_string "ab"); Free 0]
              (storage_run (mkBlockStorage 2 2 [[x00; x00]; [x00; x00]] [0; 0])
                 [Allocate; WriteBlock 0 (bytes_of_string "ab"); Free 0]))
    as (_ & _ & Hread).
  - reflexivity.
  - vm_compute. split_and!; done.
  - reflexivity.
  - rewrite Hread; [reflexivity|]. vm_compute. reflexivity.
Defined.

Lemma empty_write_grows_size_without_blocks_witness :
  ∃ s', write 0 [] (run one_open_file [Seek 0 5]) = (Ret tt, s')
    ∧ size <$> slot s' 0 = Some 5
    ∧ read_bytes 0 5 (seek 0 0 s').2 = (Raise IndexError, (seek 0 0 s').2).
Proof.
  destruct (empty_write_grows_size_without_blocks (run one_open_file [Seek 0 5]) 0 0 5
              (FileDescriptor_init "regular" max_direct_blocks_default))
    as (s' & Hw & _ & _ & Hget & _ & Hread).
  - vm_compute. reflexivity.
  - vm_compute. reflexivity.
  - exists s'. split_and!.
    + exact Hw.
    + unfold slot. by rewrite Hget.
    + apply Hread.
      * vm_compute. reflexivity.
      * lia.
      * vm_compute. discriminate.
      * vm_compute. reflexivity.
Defined.

Lemma orphan_is_never_reclaimed_witness :
  let later := [Create "b"; Open "b"; Write 1 (bytes_of_string "wxyz");
                Truncate "b" (-1); Close 1; Unlink "b"; Read 0 4] in
  let s2 := run (run (fresh 4 4 2) closed_orphan_script) later in
  file_descriptors s2 !! 0%nat = Some (Some (set_hard_links two_block_descriptor 0))
  ∧ ∀ b, b ∈ [0; 1] → used (block_storage s2) b.
Proof.
  intros later s2.
  destruct (orphan_is_never_reclaimed 4 4 2 (fresh 4 4 2) closed_orphan_script later 0
              (set_hard_links two_block_descriptor 0)) as (Hslot & Hused & _).
  - reflexivity.
  - unfold closed_orphan_script. repeat constructor.
  - unfold later. repeat constructor.
  - lia.
  - vm_compute. reflexivity.
  - reflexivity.
  - intros h off Hh. vm_compute in Hh. discriminate.
  - split; [exact Hslot|exact Hused].
Defined.

(** * Further properties *)

(** ** [allocate_block]: first fit *)

Lemma allocate_scan_first bm k : ∀ i j,
  0 ≤ i → allocate_scan bm i k = Ret j →
  ∀ m, i ≤ m → m < j → bm !! Z.to_nat m ≠ Some 0.
Proof.
  induction k as [|k IH]; intros i j Hi; simpl; [done|].
  rewrite get_nonneg by done.
  destruct (bm !! Z.to_nat i) as [v|] eqn:Hv; [|done].
  destruct (Z.eqb_spec v 0) as [->|Hne].
  - intros [= <-] m Hm1 Hm2. lia.
  - intros Hscan m Hm1 Hm2. destruct (decide (m = i)) as [->|Hmi].
    + rewrite Hv. congruence.
    + apply (IH (i + 1) j); [lia|done|lia|done].
Qed.

Lemma allocate_scan_none bm k : ∀ i,
  0 ≤ i → (Z.to_nat i + k = length bm)%nat →
  (∀ n, bm !! n ≠ Some 0) →
  allocate_scan bm i k = Raise (RuntimeError "No free blocks available").
Proof.
  induction k as [|k IH]; intros i Hi Hlen Hnone; simpl; [done|].
  rewrite get_nonneg by done.
  destruct (bm !! Z.to_nat i) as [v|] eqn:Hv.
  - destruct (Z.eqb_spec v 0) as [->|Hne]; [by destruct (Hnone (Z.to_nat i))|].
    apply IH; [lia|lia|done].
  - apply lookup_ge_None in Hv. lia.
Qed.

Lemma free_count_zero st : free_count st = 0%nat → ∀ n, bitmap st !! n ≠ Some 0.
Proof.
  unfold free_count. intros Hz n Hn.
  assert (0 ∈ filter (λ v, v = 0) (bitmap st)) as Hin.
  { apply list_elem_of_filter. split; [done|]. by eapply list_elem_of_lookup_2. }
  destruct (filter _ (bitmap st)); [by apply elem_of_nil in Hin|done].
Qed.

(** X1: [allocate_block] returns the lowest free block and marks it used,
    leaving all else; it raises, changing nothing, exactly when no block is
    free. *)
Theorem allocate_block_first_fit st :
  storage_ok st →
  ((0 < free_count st)%nat →
     ∃ b, allocate_block st = (Ret b, set_bitmap st (<[Z.to_nat b := 1]> (bitmap st)))
        ∧ 0 ≤ b ∧ b < num_blocks st
        ∧ is_free st b
        ∧ used (allocate_block st).2 b
        ∧ ∀ b', 0 ≤ b' → b' < b → ¬ is_free st b')
  ∧ (free_count st = 0%nat →
     allocate_block st = (Raise (RuntimeError "No free blocks available"), st)).
Proof.
  intros Hok. pose proof Hok as (Hbs & Hnb & Hlen & Hsized). split.
  - intros Hfree.
    destruct (allocate_block_success st Hok Hfree) as (b & Halloc & Hb0 & Hblt & Hbit & _ & _).
    exists b. rewrite Halloc. split_and!; try done.
    + lia.
    + unfold is_free. by rewrite get_nonneg.
    + unfold used. cbn. rewrite get_nonneg by done. apply list_lookup_insert_eq. lia.
    + intros b' Hb'0 Hb'lt. unfold is_free. rewrite get_nonneg by done.
      revert Halloc. unfold allocate_block.
      destruct (allocate_scan _ _ _) as [j| |] eqn:Hscan; [|done|done].
      destruct (Py.set _ _ _); [|done]. intros [= -> _].
      by apply (allocate_scan_first _ _ 0 b ltac:(lia) Hscan).
  - intros Hzero. unfold allocate_block.
    rewrite allocate_scan_none; [done|lia|lia|by apply free_count_zero].
Qed.

Lemma allocate_block_first_fit_witness :
  let st := mkBlockStorage 2 3 [[x00; x00]; [x00; x00]; [x00; x00]] [1; 0; 0] in
  ∃ b, allocate_block st = (Ret b, set_bitmap st (<[Z.to_nat b := 1]> (bitmap st)))
     ∧ b = 1.
Proof.
  intros st.
  destruct (allocate_block_first_fit st) as [Hfit _].
  - unfold storage_ok, blocks_sized. vm_compute. split_and!; try reflexivity.
    repeat constructor.
  - destruct Hfit as (b & Halloc & Hb0 & Hblt & Hfree & _ & Hfirst).
    + vm_compute. lia.
    + exists b. split; [exact Halloc|].
      assert (b ≠ 0) as Hne0 by (intros ->; vm_compute in Hfree; discriminate).
      assert (b ≠ 2) as Hne2.
      { intros ->. apply (Hfirst 1); [lia|lia|]. vm_compute. reflexivity. }
      change (num_blocks st) with 3 in Hblt. lia.
Defined.

(** X2: freeing the block that [allocate_block] has just returned restores
    the storage, when free blocks are zero-filled as [free_block] leaves
    them. *)
Theorem allocate_then_free_restores st b st1 :
  storage_inv st →
  allocate_block st = (Ret b, st1) →
  free_block b st1 = (Ret tt, st).
Proof.
  intros [[Hlen Hbs] Hzero] Halloc.
  apply allocate_block_Ret in Halloc as (Hb0 & Hfree & n & Hn & ->).
  apply norm_nonneg_inv in Hn as [-> Hlt]; [|done].
  unfold is_free in Hfree. rewrite get_nonneg in Hfree by done.
  unfold free_block. cbn [bitmap set_bitmap block_size blocks].
  rewrite get_nonneg by done.
  rewrite list_lookup_insert_eq by lia. rewrite Z.eqb_refl.
  rewrite set_nonneg by (rewrite ?length_insert; lia).
  rewrite list_insert_insert_eq.
  unfold Py.bytearray.
  destruct Hbs as [Hbs|Hnil]; [|rewrite Hnil in Hlt; simpl in Hlt; lia].
  destruct (Z.ltb_spec (block_size st) 0); [lia|].
  rewrite set_nonneg by lia.
  rewrite (list_insert_id (bitmap st) (Z.to_nat b) 0) by done.
  pose proof (Hzero _ Hfree) as Hz. unfold zero_block in Hz.
  rewrite (list_insert_id (blocks st)) by done.
  by destruct st.
Qed.

Lemma allocate_then_free_restores_witness :
  let st := mkBlockStorage 2 2 [[x00; x00]; [x00; x00]] [1; 0] in
  free_block 1 (allocate_block st).2 = (Ret tt, st).
Proof.
  intros st. apply (allocate_then_free_restores st 1).
  - split; [split; [reflexivity|left; vm_compute; discriminate]|].
    intros [|[|n]] Hn; vm_compute in Hn; try discriminate. reflexivity.
  - reflexivity.
Defined.

(** ** [write_block] and [read_block] *)

(** X3: [write_block] refuses data longer than a block and changes nothing
    then; otherwise the block reads back as the data followed by the bytes it
    held after them, the bitmap is untouched, and the buffers at all other
    positions are as before. *)
Theorem write_block_then_read_block st b data :
  (block_size st < Z.of_nat (length data) →
     write_block b data st = (Raise ValueError, st))
  ∧ (Z.of_nat (length data) ≤ block_size st →
     ∀ buf, read_block b st = Ret buf →
       ∃ st', write_block b data st = (Ret tt, st')
         ∧ read_block b st' = Ret (data ++ drop (length data) buf)
         ∧ bitmap st' = bitmap st
         ∧ block_size st' = block_size st
         ∧ ∀ b', Py.norm (length (blocks st)) b' ≠ Py.norm (length (blocks st)) b →
             read_block b' st' = read_block b' st).
Proof.
  split.
  - intros Hlong. unfold write_block.
    destruct (Z.ltb_spec (block_size st) (Z.of_nat (length data))); [done|lia].
  - intros Hfit buf Hread. unfold read_block in Hread.
    destruct (Py.get (blocks st) b) as [buf0|] eqn:Hg; [|done]. injection Hread as ->.
    destruct (get_is_Some_set _ _ _ (Py.store_prefix buf data) Hg) as (n & Hn & Hset).
    unfold write_block.
    destruct (Z.ltb_spec (block_size st) (Z.of_nat (length data))); [lia|].
    rewrite Hg, Hset. eexists. split; [done|]. cbn.
    split_and!; try done.
    + unfold read_block. cbn. by rewrite (get_set_eq _ _ _ _ Hset).
    + intros b' Hne. unfold read_block. cbn.
      rewrite (get_after_set _ _ _ b' _ Hset). by rewrite decide_False.
Qed.

Lemma write_block_then_read_block_witness :
  let st := mkBlockStorage 4 2 [bytes_of_string "abcd"; bytes_of_string "wxyz"] [1; 1] in
  ∃ st', write_block 0 (bytes_of_string "XY") st = (Ret tt, st')
    ∧ read_block 0 st' = Ret (bytes_of_string "XYcd")
    ∧ read_block 1 st' = Ret (bytes_of_string "wxyz").
Proof.
  intros st.
  destruct (write_block_then_read_block st 0 (bytes_of_string "XY")) as [_ H].
  destruct (H ltac:(vm_compute; discriminate) (bytes_of_string "abcd") eq_refl)
    as (st' & Hw & Hr & _ & _ & Hother).
  exists st'. split_and!; [exact Hw|exact Hr|].
  rewrite (Hother 1); [reflexivity|]. vm_compute. discriminate.
Defined.

(** ** [add_block] and [get_blocks] *)

Lemma fill_first_empty_none (l : list Z) b :
  (∀ x, x ∈ l → x ≠ -1) → fill_first_empty l b = None.
Proof.
  induction l as [|x l IH]; intros Hl; simpl; [done|].
  destruct (Z.eqb_spec x (-1)) as [->|_].
  - exfalso. apply (Hl (-1)); [left|done].
  - rewrite IH; [done|]. intros y Hy. apply Hl. by right.
Qed.

Lemma add_blocks_append l : ∀ d bl m,
  direct_blocks d = bl ++ replicate m (-1) →
  (∀ b, b ∈ bl → b ≠ -1) → (∀ b, b ∈ l → b ≠ -1) →
  (length l ≤ m)%nat →
  add_blocks l d =
    (Ret tt, set_direct_blocks d ((bl ++ l) ++ replicate (m - length l) (-1))).
Proof.
  induction l as [|b l IH]; intros d bl m Hd Hbl Hl Hm; simpl.
  - rewrite app_nil_r, Nat.sub_0_r, <- Hd. by destruct d.
  - destruct m as [|m0]; [simpl in Hm; lia|].
    unfold add_block. rewrite Hd. cbn [replicate].
    rewrite fill_first_empty_app by done.
    rewrite (IH _ (bl ++ [b]) m0).
    + cbn. by rewrite <- !(assoc_L (++)).
    + cbn. by rewrite <- (assoc_L (++)).
    + intros x Hx. apply elem_of_app in Hx as [Hx|Hx]; [by apply Hbl|].
      apply list_elem_of_singleton in Hx as ->. apply Hl. left.
    + intros x Hx. apply Hl. by right.
    + simpl in Hm. lia.
Qed.

(** X4: blocks added to a new descriptor come back from [get_blocks] in the
    order they were added, as long as there are no more of them than
    [max_direct_blocks]; once that many have been added, [add_block] raises
    and leaves the descriptor as it is. *)
Theorem add_blocks_in_order ft n l :
  (∀ b, b ∈ l → b ≠ -1) →
  (length l ≤ Z.to_nat n)%nat →
  ∃ d, add_blocks l (FileDescriptor_init ft n) = (Ret tt, d)
     ∧ get_blocks d = l
     ∧ length (direct_blocks d) = Z.to_nat n
     ∧ (length l = Z.to_nat n →
        ∀ b, add_block b d =
               (Raise (RuntimeError "No free direct blocks, indirect block needed"), d)).
Proof.
  intros Hl Hlen.
  rewrite (add_blocks_append l (FileDescriptor_init ft n) [] (Z.to_nat n)); try done.
  2: { intros b Hb. by apply elem_of_nil in Hb. }
  eexists. split; [done|]. cbn [app].
  split_and!.
  - unfold get_blocks. cbn. by apply filter_blocks_app.
  - cbn. rewrite length_app, length_replicate. lia.
  - intros Hfull b. unfold add_block. cbn [direct_blocks set_direct_blocks].
    rewrite Hfull, Nat.sub_diag, app_nil_r. cbn [replicate].
    by rewrite fill_first_empty_none.
Qed.

Lemma add_blocks_in_order_witness :
  ∃ d, add_blocks [7; 3] (FileDescriptor_init "regular" 2) = (Ret tt, d)
     ∧ get_blocks d = [7; 3]
     ∧ add_block 5 d
       = (Raise (RuntimeError "No free direct blocks, indirect block needed"), d).
Proof.
  destruct (add_blocks_in_order "regular" 2 [7; 3]) as (d & Hadd & Hget & _ & Hfull).
  - intros b Hb.
    apply elem_of_cons in Hb as [->|Hb]; [lia|].
    apply elem_of_cons in Hb as [->|Hb]; [lia|].
    by apply elem_of_nil in Hb.
  - vm_compute. lia.
  - exists d. split_and!; [exact Hadd|exact Hget|]. apply Hfull. reflexivity.
Defined.

(** ** [create] *)

Lemma create_scan_first fds k : ∀ i j,
  0 ≤ i → create_scan fds i k = Ret j →
  ∀ m, i ≤ m → m < j → fds !! Z.to_nat m ≠ Some None.
Proof.
  induction k as [|k IH]; intros i j Hi; simpl; [done|].
  rewrite get_nonneg by done.
  destruct (fds !! Z.to_nat i) as [[d|]|] eqn:Hv; [| |done].
  - intros Hscan m Hm1 Hm2. destruct (decide (m = i)) as [->|Hmi].
    + rewrite Hv. congruence.
    + apply (IH (i + 1) j); [lia|done|lia|done].
  - intros [= <-] m Hm1 Hm2. lia.
Qed.

Lemma create_scan_full fds k : ∀ i,
  0 ≤ i → (Z.to_nat i + k = length fds)%nat →
  (∀ n, fds !! n ≠ Some None) →
  create_scan fds i k = Raise (RuntimeError "Maximum number of files reached").
Proof.
  induction k as [|k IH]; intros i Hi Hlen Hnone; simpl; [done|].
  rewrite get_nonneg by done.
  destruct (fds !! Z.to_nat i) as [[d|]|] eqn:Hv.
  - apply IH; [lia|lia|done].
  - by destruct (Hnone (Z.to_nat i)).
  - apply lookup_ge_None in Hv. lia.
Qed.

Lemma create_scan_success fds k : ∀ i,
  0 ≤ i → (Z.to_nat i + k = length fds)%nat →
  (∃ n, (Z.to_nat i ≤ n)%nat ∧ fds !! n = Some None) →
  ∃ j, create_scan fds i k = Ret j.
Proof.
  induction k as [|k IH]; intros i Hi Hlen (n & Hn & Hnone).
  - apply lookup_lt_Some in Hnone. lia.
  - simpl. rewrite get_nonneg by done.
    destruct (fds !! Z.to_nat i) as [[d|]|] eqn:Hv; [|eauto|].
    + apply IH; [lia|lia|]. exists n. split; [|done].
      assert (n ≠ Z.to_nat i) by (intros ->; congruence). lia.
    + apply lookup_ge_None in Hv. lia.
Qed.

(** X5: [create] raises [FileExistsError] for a name that is bound and
    [RuntimeError] when every slot of the table is taken, changing nothing.
    Otherwise it puts a new descriptor (regular, one link, size 0, no block)
    into the lowest empty slot and binds the name to it; storage and handles
    are untouched, and names bound to other slots resolve as before. *)
Theorem create_takes_lowest_empty_slot s name :
  length (file_descriptors s) = Z.to_nat (max_files s) →
  (is_Some (directory s !! name) → create name s = (Raise FileExistsError, s))
  ∧ (directory s !! name = None →
     (∀ n, file_descriptors s !! n ≠ Some None) →
     create name s = (Raise (RuntimeError "Maximum number of files reached"), s))
  ∧ (directory s !! name = None →
     ∀ n, file_descriptors s !! n = Some None →
       (∀ m, (m < n)%nat → file_descriptors s !! m ≠ Some None) →
       ∃ s', create name s = (Ret tt, s')
         ∧ directory s' = <[name := Z.of_nat n]> (directory s)
         ∧ stat name s' = Ret (Some (mkFileDescriptor "regular" 1 0 (replicate 10 (-1)) (-1)))
         ∧ get_blocks (mkFileDescriptor "regular" 1 0 (replicate 10 (-1)) (-1)) = []
         ∧ block_storage s' = block_storage s
         ∧ open_files s' = open_files s
         ∧ ∀ name' j, name' ≠ name → directory s !! name' = Some j →
             0 ≤ j → j ≠ Z.of_nat n → stat name' s' = stat name' s).
Proof.
  intros Hlen. split_and!.
  - intros [j Hj]. unfold create. by rewrite Hj.
  - intros Hname Hfull. unfold create. rewrite Hname.
    by rewrite create_scan_full by (done || lia).
  - intros Hname n Hn Hlow.
    destruct (create_scan_success (file_descriptors s) (Z.to_nat (max_files s)) 0)
      as [j Hscan]; [lia|lia|exists n; split; [lia|done]|].
    pose proof (create_scan_Ret _ _ _ _ Hscan) as [Hj0 Hjnone].
    pose proof (create_scan_first _ _ 0 j ltac:(lia) Hscan) as Hjfirst.
    rewrite get_nonneg in Hjnone by done.
    assert (j = Z.of_nat n) as ->.
    { destruct (Z.lt_trichotomy j (Z.of_nat n)) as [Hlt|[Heq|Hgt]]; [|done|].
      - exfalso. apply (Hlow (Z.to_nat j)); [lia|done].
      - exfalso. apply (Hjfirst (Z.of_nat n)); [lia|lia|]. by rewrite Nat2Z.id. }
    assert (n < length (file_descriptors s))%nat as Hlt by (by eapply lookup_lt_Some).
    unfold create. rewrite Hname, Hscan.
    rewrite set_nonneg by lia. rewrite Nat2Z.id.
    eexists. split; [done|]. cbn [directory set_directory block_storage open_files
                                   set_file_descriptors].
    split_and!; try done.
    + unfold stat. cbn [directory set_directory file_descriptors set_file_descriptors].
      rewrite lookup_insert_eq, get_nonneg by lia.
      rewrite Nat2Z.id, list_lookup_insert_eq by done. done.
    + intros name' j Hne Hj Hj0' Hjn. unfold stat.
      cbn [directory set_directory file_descriptors set_file_descriptors].
      rewrite lookup_insert_ne by done. rewrite Hj.
      rewrite !get_nonneg by done. rewrite list_lookup_insert_ne by lia. done.
Qed.

Lemma create_takes_lowest_empty_slot_witness :
  ∃ s', create "b" one_open_file = (Ret tt, s')
    ∧ directory s' = <[ "b" := 1 ]> (directory one_open_file)
    ∧ create "c" s' = (Raise (RuntimeError "Maximum number of files reached"), s').
Proof.
  destruct (create_takes_lowest_empty_slot one_open_file "b") as (_ & _ & Hok).
  - reflexivity.
  - destruct (Hok ltac:(vm_compute; reflexivity) 1%nat) as (s' & Hc & Hdir & _).
    + vm_compute. reflexivity.
    + intros m Hm. assert (m = 0%nat) as -> by lia. vm_compute. discriminate.
    + exists s'. split_and!; [exact Hc|exact Hdir|].
      injection Hc as <-. vm_compute. reflexivity.
Defined.

(** ** Handles *)

Lemma put_slot_next_fd s i d : next_fd (put_slot s i d) = next_fd s.
Proof. unfold put_slot. by destruct (Py.set _ _ _). Qed.

Lemma put_slot_max_files s i d : max_files (put_slot s i d) = max_files s.
Proof. unfold put_slot. by destruct (Py.set _ _ _). Qed.

(** Calls on names leave the table of handles and the next handle alone. *)
Lemma create_handles name s :
  open_files (create name s).2 = open_files s ∧ next_fd (create name s).2 = next_fd s.
Proof. unfold create. by repeat case_match. Qed.

Lemma link_handles name1 name2 s :
  open_files (link name1 name2 s).2 = open_files s
  ∧ next_fd (link name1 name2 s).2 = next_fd s.
Proof.
  unfold link. repeat case_match; try done.
  cbn [snd open_files next_fd set_directory].
  by rewrite put_slot_open_files, put_slot_next_fd.
Qed.

Lemma unlink_handles name s :
  open_files (unlink name s).2 = open_files s ∧ next_fd (unlink name s).2 = next_fd s.
Proof.
  unfold unlink. cbv zeta. repeat case_match; try done;
    repeat first [ progress cbn [snd open_files next_fd set_directory set_block_storage]
                 | rewrite put_slot_open_files | rewrite put_slot_next_fd ];
    done.
Qed.

Lemma truncate_handles name sz s :
  open_files (truncate name sz s).2 = open_files s
  ∧ next_fd (truncate name sz s).2 = next_fd s.
Proof.
  unfold truncate. cbv zeta. repeat case_match; try done;
    repeat first [ progress cbn [snd open_files next_fd set_directory set_block_storage]
                 | rewrite put_slot_open_files | rewrite put_slot_next_fd ];
    done.
Qed.

(** [seek], [read] and [write] only move the cursor of the handle they are
    given; [close] only removes it. *)
Lemma seek_handles fd off s h :
  next_fd (seek fd off s).2 = next_fd s
  ∧ (is_Some (open_files (seek fd off s).2 !! h) ↔ is_Some (open_files s !! h)).
Proof.
  unfold seek. destruct (open_files s !! fd) as [[j o]|] eqn:Hfd; [|done].
  split; [done|]. cbn [snd open_files set_open_files].
  destruct (decide (h = fd)) as [->|Hne].
  - rewrite lookup_insert_eq, Hfd. by split; eauto.
  - by rewrite lookup_insert_ne.
Qed.

Lemma read_bytes_handles fd sz s h :
  next_fd (read_bytes fd sz s).2 = next_fd s
  ∧ (is_Some (open_files (read_bytes fd sz s).2 !! h) ↔ is_Some (open_files s !! h)).
Proof.
  unfold read_bytes. destruct (open_files s !! fd) as [[j o]|] eqn:Hfd; [|done].
  cbv zeta. repeat case_match; try done;
    (split; [done|]; cbn [snd open_files set_open_files];
     destruct (decide (h = fd)) as [->|Hne];
     [rewrite lookup_insert_eq, Hfd; by split; eauto|by rewrite lookup_insert_ne]).
Qed.

Lemma write_handles fd data s h :
  next_fd (write fd data s).2 = next_fd s
  ∧ (is_Some (open_files (write fd data s).2 !! h) ↔ is_Some (open_files s !! h)).
Proof.
  unfold write. destruct (open_files s !! fd) as [[j o]|] eqn:Hfd; [|done].
  cbv zeta. repeat case_match; try done;
    repeat first [ progress cbn [snd open_files next_fd set_open_files set_block_storage]
                 | rewrite put_slot_open_files | rewrite put_slot_next_fd ];
    try done;
    (split; [done|]; destruct (decide (h = fd)) as [->|Hne];
     [rewrite lookup_insert_eq, Hfd; by split; eauto|by rewrite lookup_insert_ne]).
Qed.

(** What a call other than [mkfs] does to the handles: the next handle
    never decreases, and a handle that is open afterwards was open before or
    is the one [open] has just handed out. *)
Lemma step_handles s c h :
  not_mkfs c →
  next_fd s ≤ next_fd (step s c)
  ∧ (is_Some (open_files (step s c) !! h) →
     is_Some (open_files s !! h) ∨ (h = next_fd s ∧ next_fd s < next_fd (step s c))).
Proof.
  destruct c as [n| | |name|name|fd|fd off|fd sz|fd data|n1 n2|name|name sz];
    intros Hc; cbn [step]; try done; try (split; [lia|by left]).
  - destruct (create_handles name s) as [-> ->]. split; [lia|by left].
  - unfold open. destruct (directory s !! name) as [j|]; cbn [snd];
      [|split; [lia|by left]].
    cbn [next_fd open_files set_next_fd set_open_files]. split; [lia|].
    destruct (decide (h = next_fd s)) as [->|Hne]; [right; lia|].
    rewrite lookup_insert_ne by done. by left.
  - unfold close. destruct (open_files s !! fd) eqn:Hfd; cbn [snd];
      [|split; [lia|by left]].
    cbn [next_fd open_files set_open_files]. split; [lia|].
    intros [x [_ Hx]%lookup_delete_Some]. left. eauto.
  - destruct (seek_handles fd off s h) as [-> ->]. split; [lia|by left].
  - destruct (read_bytes_handles fd sz s h) as [-> ->]. split; [lia|by left].
  - destruct (write_handles fd data s h) as [-> ->]. split; [lia|by left].
  - destruct (link_handles n1 n2 s) as [-> ->]. split; [lia|by left].
  - destruct (unlink_handles name s) as [-> ->]. split; [lia|by left].
  - destruct (truncate_handles name sz s) as [-> ->]. split; [lia|by left].
Qed.

Lemma mkfs_handles n s :
  (mkfs n s).2 = s ∨ (open_files (mkfs n s).2 = ∅ ∧ next_fd (mkfs n s).2 = 0).
Proof.
  unfold mkfs, FileSystem_init. destruct (BlockStorage_init _ _); cbn; auto.
Qed.

Lemma step_handles_below s c : handles_below s → handles_below (step s c).
Proof.
  intros Hs.
  assert (not_mkfs c → handles_below (step s c)) as Hother.
  { intros Hc h x Hx.
    destruct (step_handles s c h Hc) as [Hle [[y Hy]|[-> Hlt]]]; [by eexists| |done].
    apply Hs in Hy. lia. }
  destruct c; try (by apply Hother). cbn [step].
  destruct (mkfs_handles num_descriptors s) as [->|[Ho Hn]]; [done|].
  intros h x. by rewrite Ho, lookup_empty.
Qed.

Lemma run_handles_below cs : ∀ s, handles_below s → handles_below (run s cs).
Proof.
  induction cs as [|c cs IH]; intros s Hs; [done|].
  apply IH. by apply step_handles_below.
Qed.

Lemma reachable_handles_below s : reachable s → handles_below s.
Proof.
  intros (nb & bs & mf & s0 & cs & Hinit & ->). apply run_handles_below.
  unfold FileSystem_init in Hinit. destruct (BlockStorage_init nb bs); [|done..].
  injection Hinit as <-. intros h x. cbn. by rewrite lookup_empty.
Qed.

(** X6: in a state reached from a new file system by any calls, [open] of
    a bound name returns a handle that is not open yet, with the cursor at 0
    on the name's descriptor; the handles that are open keep their entries,
    and names, descriptors and storage are untouched.  [open] of an unbound
    name raises [FileNotFoundError] and changes nothing. *)
Theorem open_returns_fresh_handle s name :
  reachable s →
  (directory s !! name = None → open name s = (Raise FileNotFoundError, s))
  ∧ (∀ j, directory s !! name = Some j →
     ∃ s', open name s = (Ret (next_fd s), s')
       ∧ open_files s !! next_fd s = None
       ∧ open_files s' !! next_fd s = Some (j, 0)
       ∧ (∀ h x, open_files s !! h = Some x → open_files s' !! h = Some x)
       ∧ next_fd s' = next_fd s + 1
       ∧ directory s' = directory s
       ∧ file_descriptors s' = file_descriptors s
       ∧ block_storage s' = block_storage s).
Proof.
  intros Hs%reachable_handles_below. split.
  - intros Hname. unfold open. by rewrite Hname.
  - intros j Hname. unfold open. rewrite Hname. eexists. split; [done|].
    assert (open_files s !! next_fd s = None) as Hnone.
    { destruct (open_files s !! next_fd s) as [x|] eqn:Hx; [|done].
      apply Hs in Hx. lia. }
    cbn [open_files set_next_fd set_open_files next_fd directory file_descriptors
         block_storage].
    split_and!; try done.
    + by rewrite lookup_insert_eq.
    + intros h x Hx. rewrite lookup_insert_ne; [done|]. intros <-. congruence.
Qed.

Lemma open_returns_fresh_handle_witness :
  ∃ s', open "a" one_open_file = (Ret 1, s')
    ∧ open_files s' !! 0 = Some (0, 0) ∧ open_files s' !! 1 = Some (0, 0).
Proof.
  destruct (open_returns_fresh_handle one_open_file "a") as [_ Hopen].
  - exists 4, 4, 2, (fresh 4 4 2), [Create "a"; Open "a"]. split; reflexivity.
  - destruct (Hopen 0 ltac:(reflexivity)) as (s' & Ho & _ & Hnew & Hold & _).
    exists s'. split_and!; [exact Ho|apply Hold; reflexivity|exact Hnew].
Defined.

(** X7: a handle that was open and has been closed is never open again,
    whatever calls other than [mkfs] follow: [seek], [read] and [write] on it
    raise [FileNotFoundError] in every later state and leave it as it is. *)
Theorem closed_handle_stays_closed s h cs :
  reachable s → is_Some (open_files s !! h) → Forall not_mkfs cs →
  (close h s).1 = Ret tt
  ∧ open_files (run (close h s).2 cs) !! h = None
  ∧ (∀ off, seek h off (run (close h s).2 cs)
            = (Raise FileNotFoundError, run (close h s).2 cs))
  ∧ (∀ n, read_bytes h n (run (close h s).2 cs)
          = (Raise FileNotFoundError, run (close h s).2 cs))
  ∧ (∀ data, write h data (run (close h s).2 cs)
             = (Raise FileNotFoundError, run (close h s).2 cs)).
Proof.
  intros Hs%reachable_handles_below [x Hx] Hcs.
  assert (open_files (run (close h s).2 cs) !! h = None) as Hnone.
  { assert (open_files (close h s).2 !! h = None ∧ h < next_fd (close h s).2)
      as [Hh Hlt].
    { unfold close. rewrite Hx. cbn. rewrite lookup_delete_eq.
      split; [done|by eapply Hs]. }
    generalize dependent (close h s).2. clear Hs Hx.
    induction cs as [|c cs IH]; intros s1 Hh Hlt; [done|].
    apply Forall_cons in Hcs as [Hc Hcs]. cbn [run foldl].
    destruct (step_handles s1 c h Hc) as [Hle Hor].
    apply (IH Hcs); [|lia].
    destruct (open_files (step s1 c) !! h) as [y|] eqn:Hy; [|done].
    destruct Hor as [[z Hz]|[-> _]]; [by eexists|congruence|lia]. }
  split_and!; [|done|..].
  - unfold close. by rewrite Hx.
  - intros off. unfold seek. by rewrite Hnone.
  - intros n. unfold read_bytes. by rewrite Hnone.
  - intros data. unfold write. by rewrite Hnone.
Qed.

Lemma closed_handle_stays_closed_witness :
  open_files (run (close 0 one_open_file).2 [Open "a"; Seek 1 3]) !! 0 = None.
Proof.
  apply (closed_handle_stays_closed one_open_file 0 [Open "a"; Seek 1 3]).
  - exists 4, 4, 2, (fresh 4 4 2), [Create "a"; Open "a"]. split; reflexivity.
  - vm_compute. eauto.
  - repeat constructor.
Defined.

(** ** Hard links *)

Lemma reachable_sane_inv s : reachable_sane s → fs_inv s.
Proof.
  intros (nb & bs & mf & s0 & cs & Hinit & Hcs & ->).
  apply run_inv; [done|]. by eapply fs_inv_init.
Qed.

(** X8: [link] raises [FileNotFoundError] when the source name is unbound
    and [FileExistsError] when the source is bound and the new name is taken,
    changing nothing.  Otherwise both names give the same descriptor to
    [stat], with one more hard link than before; storage and handles are
    untouched. *)
Theorem link_shares_descriptor s name1 name2 :
  (directory s !! name1 = None → link name1 name2 s = (Raise FileNotFoundError, s))
  ∧ (is_Some (directory s !! name1) → is_Some (directory s !! name2) →
     link name1 name2 s = (Raise FileExistsError, s))
  ∧ (∀ d, stat name1 s = Ret (Some d) → directory s !! name2 = None →
     ∃ s', link name1 name2 s = (Ret tt, s')
       ∧ stat name1 s' = Ret (Some (set_hard_links d (hard_links d + 1)))
       ∧ stat name2 s' = stat name1 s'
       ∧ block_storage s' = block_storage s
       ∧ open_files s' = open_files s).
Proof.
  split_and!.
  - intros H1. unfold link. by rewrite H1.
  - intros [j H1] [j' H2]. unfold link. by rewrite H1, H2.
  - intros d Hstat H2. unfold stat in Hstat.
    destruct (directory s !! name1) as [j|] eqn:H1; [|done].
    destruct (Py.get (file_descriptors s) j) as [[d0|]|] eqn:Hget; try done.
    injection Hstat as ->.
    unfold link. rewrite H1, H2, Hget. eexists. split; [done|].
    assert (name1 ≠ name2) as Hne by congruence.
    unfold stat. cbn [directory set_directory file_descriptors block_storage open_files].
    rewrite lookup_insert_ne, lookup_insert_eq by done.
    rewrite H1, (put_slot_get _ _ _ _ Hget).
    by rewrite put_slot_block_storage, put_slot_open_files.
Qed.

Lemma link_shares_descriptor_witness :
  ∃ s', link "a" "b" two_block_file = (Ret tt, s')
    ∧ stat "b" s' = Ret (Some (set_hard_links two_block_descriptor 2)).
Proof.
  destruct (link_shares_descriptor two_block_file "a" "b") as (_ & _ & Hok).
  destruct (Hok two_block_descriptor) as (s' & Hl & Ha & Hb & _).
  - vm_compute. reflexivity.
  - vm_compute. reflexivity.
  - exists s'. split; [exact Hl|]. rewrite Hb. exact Ha.
Defined.

(** X9: in a state reached from a new file system, giving a file a second
    name with [link] and removing that name with [unlink] leads back to the
    very same state. *)
Theorem link_then_unlink_restores s name1 name2 :
  reachable_sane s →
  is_Some (directory s !! name1) → directory s !! name2 = None →
  ∃ s', link name1 name2 s = (Ret tt, s') ∧ unlink name2 s' = (Ret tt, s).
Proof.
  intros Hinv%reachable_sane_inv [j H1] H2.
  destruct (inv_names s Hinv name1 j H1) as [Hj (d & Hd)].
  pose proof (inv_links s Hinv _ _ Hd) as Hlinks.
  pose proof (links_to_pos _ _ _ H1) as Hpos.
  rewrite Z2Nat.id in Hlinks by done.
  unfold link. rewrite H1, H2, get_nonneg, Hd by done.
  eexists. split; [done|].
  rewrite (put_slot_nonneg s j (Some d)) by done.
  unfold unlink. cbn [directory set_directory file_descriptors set_file_descriptors].
  rewrite lookup_insert_eq, get_nonneg by done.
  assert (Z.to_nat j < length (file_descriptors s))%nat as Hlt
    by (by eapply lookup_lt_Some).
  rewrite list_lookup_insert_eq by done. cbv zeta.
  rewrite delete_insert_id by done.
  assert ((hard_links (set_hard_links (set_hard_links d (hard_links d + 1))
                         (hard_links (set_hard_links d (hard_links d + 1)) - 1)) =? 0)
          = false) as ->.
  { cbn. lia. }
  cbn [andb]. f_equal.
  erewrite put_slot_nonneg; [|done|].
  2: { cbn [file_descriptors set_directory set_file_descriptors].
       by rewrite list_lookup_insert_eq. }
  cbn [file_descriptors set_directory set_file_descriptors].
  rewrite list_insert_insert_eq.
  assert (set_hard_links (set_hard_links d (hard_links d + 1))
            (hard_links (set_hard_links d (hard_links d + 1)) - 1) = d) as ->.
  { destruct d as [ft hl sz db ib]. unfold set_hard_links. cbn.
    by replace (hl + 1 - 1) with hl by lia. }
  rewrite (list_insert_id (file_descriptors s) (Z.to_nat j) (Some d)) by done.
  by destruct s.
Qed.

Lemma link_then_unlink_restores_witness :
  ∃ s', link "a" "b" two_block_file = (Ret tt, s')
    ∧ unlink "b" s' = (Ret tt, two_block_file).
Proof.
  apply (link_then_unlink_restores two_block_file "a" "b").
  - exists 4, 4, 2, (fresh 4 4 2),
      [Create "a"; Open "a"; Write 0 (bytes_of_string "abcdef")].
    split_and!; [reflexivity|repeat constructor|reflexivity].
  - vm_compute. eauto.
  - vm_compute. reflexivity.
Defined.

(** ** What [stat] finds in the states a file system goes through *)

(** X10: in a state reached from a new file system by calls whose
    [truncate] sizes are not negative, [stat] of a bound name returns a
    descriptor, never an empty slot; its [hard_links] is the number of names
    bound to its slot, so at least 1, and every name of that slot gets the same
    descriptor.  [stat] of an unbound name raises [FileNotFoundError]. *)
Theorem stat_counts_names s name :
  reachable_sane s →
  (directory s !! name = None → stat name s = Raise FileNotFoundError)
  ∧ (∀ j, directory s !! name = Some j →
     ∃ d, stat name s = Ret (Some d)
       ∧ hard_links d = Z.of_nat (links_to (directory s) j)
       ∧ 1 ≤ hard_links d
       ∧ ∀ name', directory s !! name' = Some j → stat name' s = Ret (Some d)).
Proof.
  intros Hinv%reachable_sane_inv. split.
  - intros Hname. unfold stat. by rewrite Hname.
  - intros j Hname.
    destruct (inv_names s Hinv name j Hname) as [Hj (d & Hd)].
    pose proof (inv_links s Hinv _ _ Hd) as Hlinks.
    pose proof (links_to_pos _ _ _ Hname) as Hpos.
    rewrite Z2Nat.id in Hlinks by done.
    exists d. split_and!; [|lia|lia|].
    + unfold stat. by rewrite Hname, get_nonneg, Hd.
    + intros name' Hname'. unfold stat. by rewrite Hname', get_nonneg, Hd.
Qed.

Lemma stat_counts_names_witness :
  ∃ d, stat "a" two_block_file = Ret (Some d) ∧ hard_links d = 1.
Proof.
  destruct (stat_counts_names two_block_file "a") as [_ Hstat].
  - exists 4, 4, 2, (fresh 4 4 2),
      [Create "a"; Open "a"; Write 0 (bytes_of_string "abcdef")].
    split_and!; [reflexivity|repeat constructor|reflexivity].
  - destruct (Hstat 0 ltac:(reflexivity)) as (d & Hd & Hl & _).
    exists d. split; [exact Hd|]. rewrite Hl. reflexivity.
Defined.

(** X11: in such a state the blocks of a file are distinct and marked used
    in the bitmap, and two names bound to different slots share no block. *)
Theorem blocks_are_exclusive s name1 name2 d1 d2 :
  reachable_sane s →
  stat name1 s = Ret (Some d1) →
  stat name2 s = Ret (Some d2) →
  NoDup (get_blocks d1)
  ∧ (∀ b, b ∈ get_blocks d1 → 0 ≤ b ∧ used (block_storage s) b)
  ∧ (directory s !! name1 ≠ directory s !! name2 →
     ∀ b, b ∈ get_blocks d1 → b ∉ get_blocks d2).
Proof.
  intros Hinv%reachable_sane_inv Hs1 Hs2. unfold stat in Hs1, Hs2.
  destruct (directory s !! name1) as [j1|] eqn:H1; [|done].
  destruct (directory s !! name2) as [j2|] eqn:H2; [|done].
  destruct (inv_names s Hinv name1 j1 H1) as [Hj1 (e1 & He1)].
  destruct (inv_names s Hinv name2 j2 H2) as [Hj2 (e2 & He2)].
  rewrite get_nonneg, He1 in Hs1 by done. injection Hs1 as ->.
  rewrite get_nonneg, He2 in Hs2 by done. injection Hs2 as ->.
  destruct (inv_blocks s Hinv _ _ He1) as [Hnd Hused].
  split_and!; [done|..].
  - intros b Hb. destruct (Hused b Hb) as [Hb0 Hbit].
    split; [done|]. unfold used. by rewrite get_nonneg.
  - intros Hne. apply (inv_disjoint s Hinv (Z.to_nat j1) (Z.to_nat j2)); [|done|done].
    intros Heq. apply Hne. f_equal. lia.
Qed.

Lemma blocks_are_exclusive_witness :
  NoDup (get_blocks two_block_descriptor)
  ∧ ∀ b, b ∈ get_blocks two_block_descriptor → 0 ≤ b ∧ used (block_storage two_block_file) b.
Proof.
  destruct (blocks_are_exclusive two_block_file "a" "a"
              two_block_descriptor two_block_descriptor) as (Hnd & Hused & _).
  - exists 4, 4, 2, (fresh 4 4 2),
      [Create "a"; Open "a"; Write 0 (bytes_of_string "abcdef")].
    split_and!; [reflexivity|repeat constructor|reflexivity].
  - reflexivity.
  - reflexivity.
  - split; [exact Hnd|exact Hused].
Defined.

(** ** The geometry of the storage and [mkfs] *)

Lemma allocate_block_geometry st : geometry (allocate_block st).2 = geometry st.
Proof.
  unfold allocate_block. destruct (allocate_scan _ _ _); [|done..].
  by destruct (Py.set _ _ _).
Qed.

Lemma free_block_geometry b st : geometry (free_block b st).2 = geometry st.
Proof. unfold free_block. by repeat case_match. Qed.

Lemma write_block_geometry b data st : geometry (write_block b data st).2 = geometry st.
Proof. unfold write_block. by repeat case_match. Qed.

Lemma free_blocks_geometry l : ∀ st, geometry (free_blocks l st).2 = geometry st.
Proof.
  induction l as [|b l IH]; intros st; simpl; [done|].
  pose proof (free_block_geometry b st) as Hg.
  destruct (free_block b st) as [[[]| |] st1]; simpl in *; [|done..].
  by rewrite IH.
Qed.

Lemma grow_blocks_geometry k : ∀ st d, geometry (grow_blocks k st d).2.1 = geometry st.
Proof.
  induction k as [|k IH]; intros st d; simpl; [done|].
  pose proof (allocate_block_geometry st) as Hg.
  destruct (allocate_block st) as [[b| |] st1]; simpl in *; [|done..].
  destruct (add_block b d) as [[[]| |] d1]; simpl; [|done..].
  by rewrite IH.
Qed.

Lemma ensure_block_geometry bi st d : geometry (ensure_block bi st d).2.1 = geometry st.
Proof.
  assert (geometry
            (match allocate_block st with
             | (Ret new_block, st1) =>
                 match add_block new_block d with
                 | (Ret _, d1) => (Ret tt, (st1, d1))
                 | (Raise e, d1) => (Raise e, (st1, d1))
                 | (Diverge, d1) => (Diverge, (st1, d1))
                 end
             | (Raise e, st1) => (Raise e, (st1, d))
             | (Diverge, st1) => (Diverge, (st1, d))
             end).2.1 = geometry st) as Halloc.
  { pose proof (allocate_block_geometry st) as Hg.
    destruct (allocate_block st) as [[b| |] st1]; simpl in *; [|done..].
    by destruct (add_block b d) as [[[]| |] d1]. }
  unfold ensure_block. destruct (_ <=? _); [done|].
  destruct (Py.get _ _) as [b|]; [|done]. by destruct (b =? -1).
Qed.

Lemma write_chunk_geometry data cur st d :
  geometry (write_chunk data cur st d).2.1 = geometry st.
Proof.
  unfold write_chunk, Py.floordiv, Py.modulo.
  destruct (block_size st =? 0); [done|].
  pose proof (ensure_block_geometry (cur / block_size st) st d) as Hg.
  destruct (ensure_block _ st d) as [[[]| |] [st1 d1]]; simpl in *; [|done..].
  destruct (Py.get _ _) as [b|]; [|done].
  pose proof (write_block_geometry b
                (Py.slice_to data (block_size st1 - cur mod block_size st)) st1) as Hw.
  destruct (write_block _ _ _) as [[[]| |] st2]; simpl in *; congruence.
Qed.

Lemma write_loop_geometry fuel : ∀ data cur st d,
  geometry (write_loop fuel data cur st d).2.1 = geometry st.
Proof.
  induction fuel as [|fuel IH]; intros data cur st d; destruct data as [|x data]; try done.
  cbn [write_loop].
  pose proof (write_chunk_geometry (x :: data) cur st d) as Hg.
  destruct (write_chunk _ _ _ _) as [[[data' cur']| |] [st1 d1]]; simpl in *; [|done..].
  by rewrite IH.
Qed.

Lemma step_geometry s c :
  not_mkfs c → geometry (block_storage (step s c)) = geometry (block_storage s).
Proof.
  destruct c as [n| | |name|name|fd|fd off|fd sz|fd data|n1 n2|name|name sz];
    intros Hc; cbn [step]; try done.
  - unfold create. by repeat case_match.
  - unfold open. by case_match.
  - unfold close. by case_match.
  - unfold seek. by repeat case_match.
  - unfold read_bytes. by repeat case_match.
  - unfold write. destruct (open_files s !! fd) as [[j o]|]; [|done].
    destruct (Py.get _ _) as [[d|]|]; [| |done].
    + pose proof (write_loop_geometry (length data) data o (block_storage s) d) as Hg.
      destruct (write_loop _ _ _ _ _) as [[cur| |] [st d1]]; simpl in *;
        by rewrite ?put_slot_block_storage.
    + by repeat case_match.
  - unfold link. repeat case_match; try done.
    cbn [snd block_storage set_directory]. by rewrite put_slot_block_storage.
  - unfold unlink. cbv zeta. destruct (directory s !! name) as [j|]; [|done].
    destruct (Py.get _ _) as [[d|]|]; [| |done..].
    2: done.
    destruct (_ && _); [|by cbn; rewrite put_slot_block_storage].
    pose proof (free_blocks_geometry
                  (get_blocks (set_hard_links d (hard_links d - 1)))
                  (block_storage (put_slot (set_directory s (delete name (directory s))) j
                     (Some (set_hard_links d (hard_links d - 1)))))) as Hg.
    rewrite put_slot_block_storage in Hg |- *.
    destruct (free_blocks _ _) as [[[]| |] st]; simpl in *;
      by rewrite ?put_slot_block_storage.
  - unfold truncate. cbv zeta. destruct (directory s !! name) as [j|]; [|done].
    destruct (Py.get _ _) as [[d|]|]; [| |done..].
    2: done.
    destruct (_ <? _).
    + destruct (Py.floordiv _ _) as [need| |]; [|done..].
      pose proof (grow_blocks_geometry
                    (Z.to_nat (need - Z.of_nat (length (get_blocks d))))
                    (block_storage s) d) as Hg.
      destruct (grow_blocks _ _ _) as [[[]| |] [st d1]]; simpl in *;
        by rewrite ?put_slot_block_storage.
    + destruct (_ <? _); [|done].
      destruct (Py.floordiv _ _) as [keep| |]; [|done..].
      pose proof (free_blocks_geometry (Py.slice_from (get_blocks d) keep)
                    (block_storage s)) as Hg.
      destruct (free_blocks _ _) as [[[]| |] st]; simpl in *;
        by rewrite ?put_slot_block_storage.
Qed.

Lemma FileSystem_init_fresh nb bs mf s :
  FileSystem_init nb bs mf = Ret s →
  s = fresh nb bs mf ∧ ∀ n, FileSystem_init nb bs n = Ret (fresh nb bs n).
Proof.
  unfold FileSystem_init, BlockStorage_init.
  destruct (_ && _); [done|]. by intros [= <-].
Qed.

(** X12: no call changes the number of blocks or the block size the file
    system was built with, and [mkfs] succeeds at any point: it leaves the
    state a new file system of that geometry with the given number of
    descriptors has, with every name, handle and block gone. *)
Theorem mkfs_starts_over nb bs mf s0 cs n :
  FileSystem_init nb bs mf = Ret s0 →
  geometry (block_storage (run s0 cs)) = (nb, bs)
  ∧ mkfs n (run s0 cs) = (Ret tt, fresh nb bs n)
  ∧ ls (fresh nb bs n) = ∅
  ∧ open_files (fresh nb bs n) = ∅
  ∧ ∀ b, 0 ≤ b → b < nb →
      is_free (block_storage (fresh nb bs n)) b
      ∧ read_block b (block_storage (fresh nb bs n))
        = Ret (zero_block (block_storage (fresh nb bs n))).
Proof.
  intros Hinit. destruct (FileSystem_init_fresh _ _ _ _ Hinit) as [-> Hany].
  assert (∀ s, geometry (block_storage s) = (nb, bs) →
               geometry (block_storage (run s cs)) = (nb, bs)) as Hrun.
  { induction cs as [|c cs IH]; intros s Hs; [done|].
    cbn [run foldl]. apply IH.
    destruct c; try (by rewrite step_geometry). cbn [step]. unfold mkfs.
    injection Hs as Hnb Hbs. rewrite Hnb, Hbs, Hany. done. }
  specialize (Hrun (fresh nb bs mf) eq_refl).
  split_and!; try done.
  - unfold mkfs. injection Hrun as -> ->. by rewrite Hany.
  - intros b Hb0 Hb. unfold is_free, read_block, zero_block.
    cbn [fresh block_storage bitmap blocks block_size].
    rewrite !get_nonneg by done.
    split.
    + apply lookup_replicate. split; [done|lia].
    + erewrite (proj2 (lookup_replicate _ _ _ _)); [done|]. split; [done|lia].
Qed.

Lemma mkfs_starts_over_witness :
  mkfs 3 two_block_file = (Ret tt, fresh 4 4 3).
Proof.
  apply (mkfs_starts_over 4 4 2 (fresh 4 4 2)
           [Create "a"; Open "a"; Write 0 (bytes_of_string "abcdef")] 3).
  reflexivity.
Defined.

(** ** The capacity of a file *)

Lemma fill_first_empty_length l b : ∀ l',
  fill_first_empty l b = Some l' → length l' = length l.
Proof.
  induction l as [|x l IH]; intros l'; simpl; [done|].
  destruct (x =? -1); [by intros [= <-]|].
  destruct (fill_first_empty l b) as [t|]; [|done].
  intros [= <-]. simpl. by rewrite (IH t).
Qed.

(** [add_block] changes [direct_blocks] only, and not its length. *)
Lemma add_block_frame b d :
  file_type (add_block b d).2 = file_type d
  ∧ indirect_block (add_block b d).2 = indirect_block d
  ∧ length (direct_blocks (add_block b d).2) = length (direct_blocks d).
Proof.
  unfold add_block. destruct (fill_first_empty _ _) as [l'|] eqn:Hfill; [|done].
  cbn. split_and!; [done|done|]. by eapply fill_first_empty_length.
Qed.

Lemma ensure_block_frame bi st d :
  file_type (ensure_block bi st d).2.2 = file_type d
  ∧ indirect_block (ensure_block bi st d).2.2 = indirect_block d
  ∧ length (direct_blocks (ensure_block bi st d).2.2) = length (direct_blocks d).
Proof.
  assert (∀ r : outcome bool,
            (let x := match r with
             | Ret true =>
                 match allocate_block st with
                 | (Ret new_block, st1) =>
                     match add_block new_block d with
                     | (Ret _, d1) => (Ret tt, (st1, d1))
                     | (Raise e, d1) => (Raise e, (st1, d1))
                     | (Diverge, d1) => (Diverge, (st1, d1))
                     end
                 | (Raise e, st1) => (Raise e, (st1, d))
                 | (Diverge, st1) => (Diverge, (st1, d))
                 end
             | Ret false => (Ret tt, (st, d))
             | Raise e => (Raise e, (st, d))
             | Diverge => (Diverge, (st, d))
             end in
             file_type x.2.2 = file_type d
             ∧ indirect_block x.2.2 = indirect_block d
             ∧ length (direct_blocks x.2.2) = length (direct_blocks d))) as Hall.
  { intros [[|]| |]; cbv zeta; try done.
    destruct (allocate_block st) as [[b| |] st1]; try done.
    pose proof (add_block_frame b d) as Hadd.
    by destruct (add_block b d) as [[[]| |] d1]. }
  apply Hall.
Qed.

Lemma write_chunk_frame data cur st d :
  file_type (write_chunk data cur st d).2.2 = file_type d
  ∧ indirect_block (write_chunk data cur st d).2.2 = indirect_block d
  ∧ length (direct_blocks (write_chunk data cur st d).2.2) = length (direct_blocks d).
Proof.
  unfold write_chunk, Py.floordiv, Py.modulo.
  destruct (block_size st =? 0); [done|].
  pose proof (ensure_block_frame (cur / block_size st) st d) as Hens.
  destruct (ensure_block _ st d) as [[[]| |] [st1 d1]]; simpl in *; [|done..].
  destruct (Py.get _ _) as [b|]; [|done].
  by destruct (write_block _ _ _) as [[[]| |] st2].
Qed.

Lemma write_loop_frame fuel : ∀ data cur st d,
  file_type (write_loop fuel data cur st d).2.2 = file_type d
  ∧ indirect_block (write_loop fuel data cur st d).2.2 = indirect_block d
  ∧ length (direct_blocks (write_loop fuel data cur st d).2.2) = length (direct_blocks d).
Proof.
  induction fuel as [|fuel IH]; intros data cur st d; destruct data as [|x data]; try done.
  cbn [write_loop].
  pose proof (write_chunk_frame (x :: data) cur st d) as Hc.
  destruct (write_chunk _ _ _ _) as [[[data' cur']| |] [st1 d1]]; simpl in *; [|done..].
  destruct (IH data' cur' st1 d1) as (-> & -> & ->). done.
Qed.

Lemma grow_blocks_frame k : ∀ st d,
  file_type (grow_blocks k st d).2.2 = file_type d
  ∧ indirect_block (grow_blocks k st d).2.2 = indirect_block d
  ∧ length (direct_blocks (grow_blocks k st d).2.2) = length (direct_blocks d).
Proof.
  induction k as [|k IH]; intros st d; simpl; [done|].
  destruct (allocate_block st) as [[b| |] st1]; try done.
  pose proof (add_block_frame b d) as Hadd.
  destruct (add_block b d) as [[[]| |] d1]; simpl in *; [|done..].
  destruct (IH st1 d1) as (-> & -> & ->). done.
Qed.

(** One turn of the loop of [write] with the cursor at [cur]: at or past the
    end of [direct_blocks] it raises; before it, it stays within. *)
Lemma write_chunk_capacity data cur st d r st' d' :
  0 < block_size st → 0 ≤ cur → data ≠ [] →
  write_chunk data cur st d = (r, (st', d')) →
  (Z.of_nat (length (direct_blocks d)) * block_size st ≤ cur → ∃ e, r = Raise e)
  ∧ ∀ data' cur', r = Ret (data', cur') →
      0 ≤ cur'
      ∧ cur' + Z.of_nat (length data') = cur + Z.of_nat (length data)
      ∧ cur' ≤ Z.of_nat (length (direct_blocks d)) * block_size st.
Proof.
  intros Hbs Hcur Hdata Hchunk.
  pose proof (write_chunk_progress _ _ _ _ _ _ _ Hbs Hdata Hchunk) as (_ & Hnd & _).
  revert Hchunk. unfold write_chunk, Py.floordiv, Py.modulo.
  destruct (Z.eqb_spec (block_size st) 0); [lia|].
  pose proof (Z.mod_pos_bound cur (block_size st) Hbs) as Hmod.
  pose proof (Z.div_mod cur (block_size st) ltac:(lia)) as Hdiv.
  assert (0 ≤ cur / block_size st) as Hq by (apply Z.div_pos; lia).
  pose proof (ensure_block_frame (cur / block_size st) st d) as (_ & _ & Hlen).
  destruct (ensure_block _ st d) as [r1 [st1 d1]] eqn:Hens.
  apply ensure_block_block_size in Hens as [Hbs1 _]. cbn [snd] in Hlen.
  destruct r1 as [[]| |];
    [|intros [= <- <- <-]; first [done|split; [eauto|done]]..].
  destruct (Py.get (direct_blocks d1) _) as [b|] eqn:Hget;
    [|intros [= <- <- <-]; split; [eauto|done]].
  apply get_Some in Hget as (k & Hk & _).
  assert (cur / block_size st < Z.of_nat (length (direct_blocks d))) as Hin.
  { rewrite <- Hlen. unfold Py.norm in Hk. repeat case_match; try done; lia. }
  destruct (write_block b _ st1) as [r2 st2].
  destruct r2 as [[]| |];
    [|intros [= <- <- <-]; first [done|split; [eauto|done]]..].
  intros [= <- <- <-]. split; [nia|].
  intros data' cur' [= <- <-].
  rewrite slice_to_take by lia.
  rewrite slice_from_drop by (rewrite length_take; lia).
  rewrite length_drop, length_take. split_and!; [lia|lia|nia].
Qed.

Lemma write_loop_capacity fuel : ∀ data cur st d,
  0 < block_size st → 0 ≤ cur → data ≠ [] → (length data ≤ fuel)%nat →
  Z.of_nat (length (direct_blocks d)) * block_size st < cur + Z.of_nat (length data) →
  ∃ e, (write_loop fuel data cur st d).1 = Raise e.
Proof.
  induction fuel as [|fuel IH]; intros data cur st d Hbs Hcur Hne Hfuel Hcap.
  { destruct data; [done|simpl in Hfuel; lia]. }
  destruct data as [|x data0] eqn:Hdata; [done|]. rewrite <- Hdata in *.
  assert (write_loop (S fuel) data cur st d =
          match write_chunk data cur st d with
          | (Ret (data', cur'), (st1, d1)) => write_loop fuel data' cur' st1 d1
          | (Raise e, sd) => (Raise e, sd)
          | (Diverge, sd) => (Diverge, sd)
          end) as -> by (by rewrite Hdata).
  pose proof (write_chunk_frame data cur st d) as (_ & _ & Hlen).
  destruct (write_chunk data cur st d) as [r [st1 d1]] eqn:Hchunk. cbn [snd] in Hlen.
  pose proof (write_chunk_progress _ _ _ _ _ _ _ Hbs Hne Hchunk) as (Hbs1 & Hnd & Hless).
  pose proof (write_chunk_capacity _ _ _ _ _ _ _ Hbs Hcur Hne Hchunk) as [_ Hret].
  destruct r as [[data' cur']| |]; [|by eexists|done].
  destruct (Hret data' cur' eq_refl) as (Hcur' & Hsum & Hle).
  specialize (Hless data' cur' eq_refl).
  apply IH; [lia|done| |lia|rewrite Hlen, Hbs1; lia].
  intros ->. simpl in Hsum. lia.
Qed.

(** X13: a file holds no more bytes than its [direct_blocks] has entries
    times the block size: a [write] of some data that would end past that
    limit raises, wherever below or above it the cursor is. *)
Theorem write_past_capacity_raises s h data j off d :
  open_files s !! h = Some (j, off) →
  Py.get (file_descriptors s) j = Some (Some d) →
  0 < block_size (block_storage s) →
  0 ≤ off → data ≠ [] →
  Z.of_nat (length (direct_blocks d)) * block_size (block_storage s)
    < off + Z.of_nat (length data) →
  ∃ e, (write h data s).1 = Raise e.
Proof.
  intros Hh Hd Hbs Hoff Hne Hcap. unfold write. rewrite Hh, Hd.
  destruct (write_loop_capacity (length data) data off (block_storage s) d)
    as [e He]; try done.
  destruct (write_loop _ _ _ _ _) as [[cur| |] [st d1]]; try done.
  exists e. by injection He as ->.
Qed.

Lemma write_past_capacity_raises_witness :
  ∃ e, (write 0 (bytes_of_string "0123456789ab") one_open_file_small_blocks).1 = Raise e.
Proof.
  apply (write_past_capacity_raises one_open_file_small_blocks 0
           (bytes_of_string "0123456789ab") 0 0
           (FileDescriptor_init "regular" max_direct_blocks_default)).
  - reflexivity.
  - reflexivity.
  - vm_compute. reflexivity.
  - lia.
  - discriminate.
  - vm_compute. reflexivity.
Defined.

(** ** The shape of descriptors *)

Lemma put_slot_shaped s i o :
  descriptors_shaped s → (∀ d, o = Some d → descriptor_shape d) →
  descriptors_shaped (put_slot s i o).
Proof.
  intros Hs Ho. unfold put_slot, Py.set.
  destruct (Py.norm _ _) as [n|]; [|done]. by apply Forall_insert.
Qed.

Lemma shaped_get s i d :
  descriptors_shaped s → Py.get (file_descriptors s) i = Some (Some d) →
  descriptor_shape d.
Proof.
  intros Hs (n & _ & Hn)%get_Some.
  by apply (proj1 (Forall_lookup _ _) Hs n (Some d) Hn).
Qed.

Lemma descriptor_shape_fields d d' :
  file_type d' = file_type d → indirect_block d' = indirect_block d →
  (length (direct_blocks d') ≤ length (direct_blocks d))%nat →
  descriptor_shape d → descriptor_shape d'.
Proof.
  intros Hft Hib Hlen (? & ? & ?). split_and!; [congruence|congruence|lia].
Qed.

Lemma step_shaped s c : descriptors_shaped s → descriptors_shaped (step s c).
Proof.
  intros Hs.
  destruct c as [n| | |name|name|fd|fd off|fd sz|fd data|n1 n2|name|name sz];
    cbn [step]; try done.
  - unfold mkfs, FileSystem_init. destruct (BlockStorage_init _ _); [|done..].
    apply Forall_forall. by intros o [-> _]%elem_of_replicate d'.
  - unfold create. destruct (directory s !! name); [done|].
    destruct (create_scan _ _ _) as [i| |]; [|done..].
    unfold Py.set. destruct (Py.norm _ _) as [k|]; [|done].
    apply Forall_insert; [done|]. intros d [= <-]. split_and!; [done|done|].
    cbn. by rewrite length_replicate.
  - unfold open. by destruct (directory s !! name).
  - unfold close. by destruct (open_files s !! fd).
  - unfold seek. by destruct (open_files s !! fd) as [[j o]|].
  - unfold read_bytes. destruct (open_files s !! fd) as [[j o]|]; [|done].
    cbv zeta. by repeat case_match.
  - unfold write. destruct (open_files s !! fd) as [[j o]|]; [|done].
    destruct (Py.get _ _) as [[d|]|] eqn:Hd; [| |done].
    + pose proof (shaped_get _ _ _ Hs Hd) as Hshape.
      pose proof (write_loop_frame (length data) data o (block_storage s) d)
        as (Hft & Hib & Hlen).
      destruct (write_loop _ _ _ _ _) as [[cur| |] [st d1]]; cbn [snd] in *;
        (apply put_slot_shaped; [done|]); intros d2 [= <-];
        apply (descriptor_shape_fields d); try done; cbn; lia.
    + by repeat case_match.
  - unfold link. destruct (directory s !! n1) as [j|]; [|done].
    destruct (directory s !! n2); [done|].
    destruct (Py.get _ _) as [[d|]|] eqn:Hd; [| |done]; [|done].
    pose proof (shaped_get _ _ _ Hs Hd) as Hshape.
    apply (put_slot_shaped s); [done|]. by intros d2 [= <-].
  - unfold unlink. cbv zeta. destruct (directory s !! name) as [j|]; [|done].
    destruct (Py.get _ _) as [[d|]|] eqn:Hd; [| |done]; [|done].
    pose proof (shaped_get s j d Hs Hd) as Hshape.
    assert (descriptors_shaped
              (put_slot (set_directory s (delete name (directory s))) j
                 (Some (set_hard_links d (hard_links d - 1))))) as Hs2.
    { apply put_slot_shaped; [done|]. by intros d2 [= <-]. }
    destruct (_ && _); [|done].
    destruct (free_blocks _ _) as [[[]| |] st]; cbn [snd]; [|done..].
    by apply put_slot_shaped.
  - unfold truncate. cbv zeta. destruct (directory s !! name) as [j|]; [|done].
    destruct (Py.get _ _) as [[d|]|] eqn:Hd; [| |done]; [|done].
    pose proof (shaped_get s j d Hs Hd) as Hshape.
    destruct (_ <? _).
    + destruct (Py.floordiv _ _) as [need| |]; [|done..].
      pose proof (grow_blocks_frame
                    (Z.to_nat (need - Z.of_nat (length (get_blocks d))))
                    (block_storage s) d) as (Hft & Hib & Hlen).
      destruct (grow_blocks _ _ _) as [[[]| |] [st d1]]; cbn [snd] in *;
        (apply put_slot_shaped; [done|]); intros d2 [= <-];
        apply (descriptor_shape_fields d); try done; cbn; lia.
    + destruct (_ <? _); [|done].
      destruct (Py.floordiv _ _) as [keep| |]; [|done..].
      destruct (free_blocks _ _) as [[[]| |] st]; cbn [snd]; [|done..].
      apply put_slot_shaped; [done|]. intros d2 [= <-].
      apply (descriptor_shape_fields d); try done.
      cbn. unfold Py.slice_to. rewrite length_take. lia.
Qed.

(** X14: whatever calls a file system has gone through, the descriptor
    [stat] returns has the type ["regular"], no indirect block, and at most
    ten entries in [direct_blocks]: a file never holds more than ten
    blocks. *)
Theorem descriptor_keeps_shape s name d :
  reachable s →
  stat name s = Ret (Some d) →
  file_type d = "regular"
  ∧ indirect_block d = -1
  ∧ (length (direct_blocks d) ≤ 10)%nat
  ∧ (length (get_blocks d) ≤ 10)%nat.
Proof.
  intros (nb & bs & mf & s0 & cs & Hinit & ->) Hstat.
  assert (descriptors_shaped (run s0 cs)) as Hshaped.
  { assert (descriptors_shaped s0) as Hs0.
    { apply FileSystem_init_fresh in Hinit as [-> _].
      apply Forall_forall. by intros o [-> _]%elem_of_replicate d'. }
    clear Hinit Hstat. revert s0 Hs0.
    induction cs as [|c cs IH]; intros s0 Hs0; [done|].
    apply IH. by apply step_shaped. }
  unfold stat in Hstat.
  destruct (directory _ !! name) as [j|]; [|done].
  destruct (Py.get _ _) as [o|] eqn:Hget; [|done]. injection Hstat as ->.
  destruct (shaped_get _ _ _ Hshaped Hget) as (Hft & Hib & Hlen).
  change (Z.to_nat max_direct_blocks_default) with 10%nat in Hlen.
  split_and!; try done.
  unfold get_blocks. pose proof (length_filter (λ b, b ≠ -1) (direct_blocks d)). lia.
Qed.

Lemma descriptor_keeps_shape_witness :
  (length (direct_blocks two_block_descriptor) ≤ 10)%nat.
Proof.
  apply (descriptor_keeps_shape two_block_file "a" two_block_descriptor).
  - exists 4, 4, 2, (fresh 4 4 2),
      [Create "a"; Open "a"; Write 0 (bytes_of_string "abcdef")].
    split; reflexivity.
  - reflexivity.
Defined.

(** ** What [read] returns *)

(** X15: a [read] that stays below the size of the file gathers exactly the
    bytes the blocks of the file hold at the positions from the cursor on,
    block after block, and moves the cursor past them; what it returns is
    the decoding of these bytes as UTF-8 text, or [UnicodeDecodeError] when
    they are not well-formed, the cursor having moved all the same. *)
Theorem read_returns_stored_bytes s h j off d data :
  storage_ok (block_storage s) →
  open_files s !! h = Some (j, off) →
  Py.get (file_descriptors s) j = Some (Some d) →
  off + Z.of_nat (length data) ≤ size d →
  (∀ k, (k < length data)%nat →
     file_byte (block_storage s) (get_blocks d) (off + Z.of_nat k) = data !! k) →
  read_bytes h (Z.of_nat (length data)) s
  = (Ret data,
     set_open_files s (<[h := (j, off + Z.of_nat (length data))]> (open_files s)))
  ∧ read h (Z.of_nat (length data)) s
    = (Py.decode data,
       set_open_files s (<[h := (j, off + Z.of_nat (length data))]> (open_files s))).
Proof.
  intros Hok Hh Hd Hsize Hbytes.
  assert (read_bytes h (Z.of_nat (length data)) s
          = (Ret data,
             set_open_files s (<[h := (j, off + Z.of_nat (length data))]> (open_files s))))
    as Hread.
  { unfold read_bytes. rewrite Hh, Hd. cbv zeta.
    destruct (Z.ltb_spec (size d) (off + Z.of_nat (length data))) as [Hlt|_]; [lia|].
    by rewrite (read_loop_bytes _ (block_storage s) (get_blocks d) _ off [] data)
      by (done || lia). }
  split; [done|]. unfold read. by rewrite Hread.
Qed.

Lemma read_returns_stored_bytes_witness :
  (read_bytes 0 4 (seek 0 1 two_block_file).2).1 = Ret (bytes_of_string "bcde")
  ∧ (read 0 4 (seek 0 1 two_block_file).2).1 = Ret [98; 99; 100; 101].
Proof.
  destruct (read_returns_stored_bytes (seek 0 1 two_block_file).2 0 0 1
              two_block_descriptor (bytes_of_string "bcde")) as [Hread Htext].
  - exact two_block_file_ok.
  - reflexivity.
  - reflexivity.
  - vm_compute. discriminate.
  - intros k Hk. destruct k as [|[|[|[|k]]]]; try (vm_compute; reflexivity).
    simpl in Hk. lia.
  - change (Z.of_nat (length (bytes_of_string "bcde"))) with 4 in Hread, Htext.
    rewrite Hread, Htext. split; reflexivity.
Defined.

(** X16: two names of one file share its content: after [create] and
    [link], the bytes written through a handle opened on the first name are
    the bytes a [read] through a handle opened on the second gathers, so that
    it returns their decoding as UTF-8 text ([UnicodeDecodeError] when they
    are not well-formed); and both names show the new size. *)
Theorem hard_link_shares_content s name1 name2 data s1 s2 h1 s3 h2 s4 :
  storage_ok (block_storage s) →
  create name1 s = (Ret tt, s1) →
  link name1 name2 s1 = (Ret tt, s2) →
  open name1 s2 = (Ret h1, s3) →
  open name2 s3 = (Ret h2, s4) →
  Z.of_nat (length data) ≤ max_direct_blocks_default * block_size (block_storage s) →
  Z.of_nat (length data)
    ≤ Z.of_nat (free_count (block_storage s)) * block_size (block_storage s) →
  ∃ s5 s6,
    write h1 data s4 = (Ret tt, s5)
    ∧ read_bytes h2 (Z.of_nat (length data)) s5 = (Ret data, s6)
    ∧ read h2 (Z.of_nat (length data)) s5 = (Py.decode data, s6)
    ∧ size <$> descriptor_of name1 s5 = Some (Z.of_nat (length data))
    ∧ descriptor_of name2 s5 = descriptor_of name1 s5.
Proof.
  intros Hok Hcreate Hlink Ho1 Ho2 Hcap Hfree.
  apply create_Ret in Hcreate as (i & n & Hi & Hn & Hname & Hslot & ->).
  destruct (norm_nonneg_inv _ _ _ Hi Hn) as [-> Hilt].
  set (fresh_fd := FileDescriptor_init "regular" max_direct_blocks_default) in *.
  set (linked_fd := set_hard_links fresh_fd (hard_links fresh_fd + 1)).
  assert (Z.to_nat i < length (file_descriptors s))%nat as Hlt by lia.
  revert Hlink. unfold link.
  cbn [directory set_directory file_descriptors set_file_descriptors].
  rewrite lookup_insert_eq.
  destruct (decide (name1 = name2)) as [<-|Hne]; [by rewrite lookup_insert_eq|].
  rewrite lookup_insert_ne by done.
  destruct (directory s !! name2) eqn:Hname2; [done|].
  rewrite get_nonneg, list_lookup_insert_eq by done.
  erewrite put_slot_nonneg;
    [|done|cbn [file_descriptors set_directory set_file_descriptors];
           by apply list_lookup_insert_eq].
  cbn [file_descriptors set_directory set_file_descriptors].
  rewrite list_insert_insert_eq. fold linked_fd. intros [= <-].
  revert Ho1. unfold open.
  cbn [directory set_directory set_file_descriptors next_fd open_files].
  rewrite lookup_insert_ne, lookup_insert_eq by done. intros [= <- <-].
  revert Ho2. unfold open.
  cbn [directory set_directory set_file_descriptors set_next_fd set_open_files
       next_fd open_files].
  rewrite lookup_insert_eq. intros [= <- <-].
  destruct (write_loop_append (length data) data (block_storage s) linked_fd [] 10)
    as (st' & ext & m' & Hloop & Hok' & Hbs' & Hnd' & Hbl' & _ & Hbytes');
    [done|done|apply NoDup_nil_2| |done|done|done|].
  { intros b Hb. by apply elem_of_nil in Hb. }
  cbn [length app] in Hloop, Hbytes', Hbl', Hnd'.
  change (Z.of_nat 0 * block_size (block_storage s)) with 0 in Hloop, Hbytes'.
  rewrite Z.add_0_l in Hloop.
  set (d' := set_size (set_direct_blocks linked_fd (ext ++ replicate m' (-1)))
               (Z.max (size (set_direct_blocks linked_fd (ext ++ replicate m' (-1))))
                  (Z.of_nat (length data)))).
  assert (get_blocks d' = ext) as Hblocks.
  { unfold get_blocks, d'. cbn [direct_blocks set_size set_direct_blocks].
    apply filter_blocks_app. intros x Hx%Hbl'. lia. }
  assert (size d' = Z.of_nat (length data)) as Hsize.
  { unfold d'. cbn. lia. }
  unfold write.
  cbn [directory set_directory set_file_descriptors set_next_fd set_open_files
       next_fd open_files file_descriptors block_storage].
  rewrite lookup_insert_ne, lookup_insert_eq by lia.
  rewrite get_nonneg, list_lookup_insert_eq, Hloop by done.
  fold d'. eexists _, _. split; [done|].
  erewrite put_slot_nonneg;
    [|done|cbn [file_descriptors set_directory set_file_descriptors set_next_fd
                set_open_files set_block_storage];
           by apply list_lookup_insert_eq].
  cbn [file_descriptors set_directory set_file_descriptors set_next_fd
       set_open_files set_block_storage].
  rewrite list_insert_insert_eq.
  assert (∀ k, (k < length data)%nat → file_byte st' ext (0 + Z.of_nat k) = data !! k)
    as Hgathered.
  { intros k Hk. rewrite Z.add_0_l. rewrite <- Hbytes' by done.
    unfold file_byte. by rewrite Hbs'. }
  split_and!.
  - unfold read_bytes.
    cbn [directory set_directory set_file_descriptors set_next_fd set_open_files
         set_block_storage next_fd open_files file_descriptors block_storage].
    rewrite lookup_insert_ne, lookup_insert_eq by lia.
    rewrite get_nonneg, list_lookup_insert_eq by done.
    rewrite Hblocks, Hsize, Z.add_0_l, Z.ltb_irrefl.
    by rewrite (read_loop_bytes _ st' ext _ 0 [] data) by (done || lia).
  - unfold read, read_bytes.
    cbn [directory set_directory set_file_descriptors set_next_fd set_open_files
         set_block_storage next_fd open_files file_descriptors block_storage].
    rewrite lookup_insert_ne, lookup_insert_eq by lia.
    rewrite get_nonneg, list_lookup_insert_eq by done.
    rewrite Hblocks, Hsize, Z.add_0_l, Z.ltb_irrefl.
    by rewrite (read_loop_bytes _ st' ext _ 0 [] data) by (done || lia).
  - unfold descriptor_of, stat.
    cbn [directory set_directory set_file_descriptors set_next_fd set_open_files
         set_block_storage file_descriptors].
    rewrite lookup_insert_ne, lookup_insert_eq by done.
    rewrite get_nonneg, list_lookup_insert_eq by done. cbn [fmap option_fmap option_map].
    by rewrite Hsize.
  - unfold descriptor_of, stat.
    cbn [directory set_directory set_file_descriptors set_next_fd set_open_files
         set_block_storage file_descriptors].
    by rewrite lookup_insert_eq, lookup_insert_ne, lookup_insert_eq by done.
Qed.

Lemma hard_link_shares_content_witness :
  ∃ s5 s6,
    write 0 (bytes_of_string "shared")
      (run (fresh 4 4 2) [Create "a"; Link "a" "b"; Open "a"; Open "b"]) = (Ret tt, s5)
    ∧ read_bytes 1 6 s5 = (Ret (bytes_of_string "shared"), s6)
    ∧ read 1 6 s5 = (Ret [115; 104; 97; 114; 101; 100], s6).
Proof.
  destruct (hard_link_shares_content (fresh 4 4 2) "a" "b" (bytes_of_string "shared")
              (run (fresh 4 4 2) [Create "a"])
              (run (fresh 4 4 2) [Create "a"; Link "a" "b"])
              0
              (run (fresh 4 4 2) [Create "a"; Link "a" "b"; Open "a"])
              1
              (run (fresh 4 4 2) [Create "a"; Link "a" "b"; Open "a"; Open "b"]))
    as (s5 & s6 & Hw & Hr & Ht & _).
  - apply storage_ok_fresh; lia.
  - vm_compute. reflexivity.
  - vm_compute. reflexivity.
  - vm_compute. reflexivity.
  - vm_compute. reflexivity.
  - vm_compute. discriminate.
  - vm_compute. discriminate.
  - exists s5, s6. split_and!; [exact Hw|exact Hr|exact Ht].
Defined.

(** ** A block that is lost *)

(** X17: [truncate] allocates a block before it looks for a place in the
    descriptor.  When a file whose [direct_blocks] has no empty entry is to
    grow by a block, the call raises [RuntimeError] from [add_block]; the
    block allocated for it stays marked used, while descriptors and names are
    as before and no file holds that block. *)
Theorem full_descriptor_loses_block s name new d :
  reachable_sane s →
  storage_ok (block_storage s) →
  (0 < free_count (block_storage s))%nat →
  stat name s = Ret (Some d) →
  (∀ x, x ∈ direct_blocks d → x ≠ -1) →
  size d < new →
  Z.of_nat (length (direct_blocks d)) < ceil_div new (block_size (block_storage s)) →
  ∃ b s',
    truncate name new s
    = (Raise (RuntimeError "No free direct blocks, indirect block needed"), s')
    ∧ is_free (block_storage s) b
    ∧ used (block_storage s') b
    ∧ S (free_count (block_storage s')) = free_count (block_storage s)
    ∧ file_descriptors s' = file_descriptors s
    ∧ directory s' = directory s
    ∧ ∀ name' d', stat name' s' = Ret (Some d') → b ∉ get_blocks d'.
Proof.
  intros Hinv%reachable_sane_inv Hok Hfree Hstat Hfull Hsize Hneed.
  unfold stat in Hstat. destruct (directory s !! name) as [j|] eqn:Hname; [|done].
  destruct (inv_names s Hinv name j Hname) as [Hj (dj & Hdj)].
  rewrite get_nonneg, Hdj in Hstat by done. injection Hstat as ->.
  assert (get_blocks d = direct_blocks d) as Hgb.
  { unfold get_blocks. rewrite <- (app_nil_r (direct_blocks d)) at 1.
    by apply (filter_blocks_app _ 0). }
  destruct (allocate_block_success _ Hok Hfree)
    as (b & Halloc & Hb0 & Hblt & Hbit & Hcount & _).
  pose proof Hok as (Hbs & _).
  unfold truncate. rewrite Hname, get_nonneg, Hdj by done. cbv zeta.
  destruct (Z.ltb_spec (size d) new) as [_|Hge]; [|lia].
  unfold Py.floordiv. destruct (Z.eqb_spec (block_size (block_storage s)) 0); [lia|].
  unfold ceil_div in Hneed. rewrite Hgb.
  destruct (Z.to_nat ((new + block_size (block_storage s) - 1)
                        / block_size (block_storage s)
                      - Z.of_nat (length (direct_blocks d)))) as [|k] eqn:Hk; [lia|].
  cbn [grow_blocks]. rewrite Halloc. unfold add_block.
  rewrite fill_first_empty_none by done.
  rewrite (put_slot_nonneg _ j (Some d)) by done.
  cbn [file_descriptors set_block_storage set_file_descriptors].
  rewrite (list_insert_id (file_descriptors s) (Z.to_nat j) (Some d)) by done.
  exists b. eexists. split; [done|].
  cbn [block_storage file_descriptors directory set_block_storage set_file_descriptors].
  split_and!; try done.
  - unfold is_free. by rewrite get_nonneg.
  - unfold used. cbn [bitmap set_bitmap]. rewrite get_nonneg by done.
    apply list_lookup_insert_eq. lia.
  - intros name' d' Hstat' Hin. unfold stat in Hstat'.
    cbn [directory file_descriptors set_file_descriptors set_block_storage] in Hstat'.
    destruct (directory s !! name') as [j'|] eqn:Hname'; [|done].
    destruct (inv_names s Hinv name' j' Hname') as [Hj' (e & He)].
    rewrite get_nonneg, He in Hstat' by done. injection Hstat' as ->.
    destruct (inv_blocks s Hinv _ _ He) as [_ Hused].
    destruct (Hused b Hin) as [_ Hone]. congruence.
Qed.

Lemma full_descriptor_loses_block_witness :
  ∃ b s',
    truncate "a" 11
      (run one_open_file_small_blocks [Write 0 (bytes_of_string "0123456789")])
    = (Raise (RuntimeError "No free direct blocks, indirect block needed"), s')
    ∧ used (block_storage s') b
    ∧ ∀ name' d', stat name' s' = Ret (Some d') → b ∉ get_blocks d'.
Proof.
  destruct (full_descriptor_loses_block
              (run one_open_file_small_blocks [Write 0 (bytes_of_string "0123456789")])
              "a" 11
              (mkFileDescriptor "regular" 1 10 [0; 1; 2; 3; 4; 5; 6; 7; 8; 9] (-1)))
    as (b & s' & Htr & _ & Hused & _ & _ & _ & Hnone).
  - exists 12, 1, 1, (fresh 12 1 1),
      [Create "a"; Open "a"; Write 0 (bytes_of_string "0123456789")].
    split_and!; [reflexivity|repeat constructor|reflexivity].
  - unfold storage_ok, blocks_sized. vm_compute. split_and!; try reflexivity.
    repeat constructor.
  - vm_compute. lia.
  - reflexivity.
  - intros x Hx. apply (bool_decide_unpack _).
    revert x Hx. apply Forall_forall. vm_compute. repeat constructor.
  - vm_compute. reflexivity.
  - vm_compute. reflexivity.
  - exists b, s'. split_and!; [exact Htr|exact Hused|exact Hnone].
Defined.

(** * The text [read] returns *)

(** Bytes below 128 decode to themselves. *)
Lemma decode_ascii (l : list byte) :
  Forall (λ b, Py.code b < 128) l → Py.decode l = Ret (Py.code <$> l).
Proof.
  induction 1 as [|x l Hx _ IH]; [done|].
  cbn [Py.decode fmap list_fmap]. destruct (Z.ltb_spec (Py.code x) 128); [|lia].
  by rewrite IH.
Qed.

(** ** Round trip *)

(** C2, as the code has it: data written at offset 0 to a file that has just
    been created and opened is gathered unchanged by a read of [len(data)]
    bytes from offset 0, whatever its length against the size of a block,
    provided it fits in the ten direct blocks and in the free blocks.  What
    [read] returns is not the bytes but their decoding as UTF-8 text: for
    bytes below 128 the text of the same characters, and in general whatever
    [decode] makes of the data, [UnicodeDecodeError] included. *)
Theorem write_read_roundtrip s name data s1 h s2 :
  storage_ok (block_storage s) →
  create name s = (Ret tt, s1) →
  open name s1 = (Ret h, s2) →
  Z.of_nat (length data) ≤ max_direct_blocks_default * block_size (block_storage s) →
  Z.of_nat (length data) ≤ Z.of_nat (free_count (block_storage s)) * block_size (block_storage s) →
  ∃ s3 s4 s5,
    write h data s2 = (Ret tt, s3)
    ∧ seek h 0 s3 = (Ret tt, s4)
    ∧ read_bytes h (Z.of_nat (length data)) s4 = (Ret data, s5)
    ∧ read h (Z.of_nat (length data)) s4 = (Py.decode data, s5)
    ∧ (Forall (λ b, Py.code b < 128) data →
       read h (Z.of_nat (length data)) s4 = (Ret (Py.code <$> data), s5)).
Proof.
  intros Hok Hcreate Hopen Hcap Hfree.
  destruct (write_then_read_bytes s name data s1 h s2 Hok Hcreate Hopen Hcap Hfree)
    as (s3 & s4 & s5 & Hwrite & Hseek & Hread).
  exists s3, s4, s5. split_and!; [done|done|done| |].
  - unfold read. by rewrite Hread.
  - intros Hascii. unfold read. by rewrite Hread, decode_ascii.
Qed.

Lemma write_read_roundtrip_witness :
  ∃ s3 s4 s5,
    write 0 (bytes_of_string "hello, blocks") (open "a" (create "a" (fresh 4 4 2)).2).2
      = (Ret tt, s3)
    ∧ seek 0 0 s3 = (Ret tt, s4)
    ∧ read_bytes 0 13 s4 = (Ret (bytes_of_string "hello, blocks"), s5)
    ∧ read 0 13 s4
      = (Ret [104; 101; 108; 108; 111; 44; 32; 98; 108; 111; 99; 107; 115], s5).
Proof.
  destruct (write_read_roundtrip (fresh 4 4 2) "a" (bytes_of_string "hello, blocks")
              (create "a" (fresh 4 4 2)).2 0 (open "a" (create "a" (fresh 4 4 2)).2).2)
    as (s3 & s4 & s5 & Hw & Hs & Hr & _ & Ht).
  - apply storage_ok_fresh; lia.
  - vm_compute. reflexivity.
  - vm_compute. reflexivity.
  - vm_compute. discriminate.
  - vm_compute. discriminate.
  - exists s3, s4, s5. split_and!; [exact Hw|exact Hs|exact Hr|].
    apply Ht. vm_compute. repeat constructor.
Defined.

(** C2 as the claim words it fails: the byte [0xff] is written and gathered
    back, but [read] does not return it: it raises [UnicodeDecodeError]. *)
Lemma roundtrip_raises_on_non_utf8 :
  let s2 := run (fresh 4 4 2) [Create "a"; Open "a"] in
  let s4 := run s2 [Write 0 [xff]; Seek 0 0] in
  (write 0 [xff] s2).1 = Ret tt
  ∧ (seek 0 0 (write 0 [xff] s2).2).1 = Ret tt
  ∧ (read_bytes 0 1 s4).1 = Ret [xff]
  ∧ (read 0 1 s4).1 = Raise UnicodeDecodeError
  ∧ ¬ (∃ text, (read 0 1 s4).1 = Ret text).
Proof. vm_compute. split_and!; try done. by intros [text [=]]. Qed.

(** ** [read] on a file whose blocks cover its size *)

Lemma file_byte_is_Some st blks p :
  0 < block_size st → blocks_sized st →
  0 ≤ p → p < Z.of_nat (length blks) * block_size st →
  (∀ b, b ∈ blks → is_Some (Py.get (blocks st) b)) →
  is_Some (file_byte st blks p).
Proof.
  intros Hbs Hsized Hp0 Hp Hblks. unfold file_byte.
  assert (0 ≤ p / block_size st < Z.of_nat (length blks)) as Hq.
  { split; [apply Z.div_pos; lia|apply Z.div_lt_upper_bound; lia]. }
  pose proof (Z.mod_pos_bound p (block_size st) Hbs) as Hr.
  rewrite get_nonneg by lia.
  destruct (lookup_lt_is_Some_2 blks (Z.to_nat (p / block_size st))) as [b Hb]; [lia|].
  rewrite Hb. simpl.
  destruct (Hblks b) as [buf Hbuf]; [by eapply list_elem_of_lookup_2|].
  rewrite Hbuf. simpl.
  assert (length buf = Z.to_nat (block_size st)) as Hlen.
  { apply (read_block_sized st b); [done|]. unfold read_block. by rewrite Hbuf. }
  rewrite get_nonneg by lia. apply lookup_lt_is_Some_2. lia.
Qed.

Lemma file_bytes_exist st blks off n :
  (∀ k, (k < n)%nat → is_Some (file_byte st blks (off + Z.of_nat k))) →
  ∃ data, length data = n
    ∧ ∀ k, (k < n)%nat → file_byte st blks (off + Z.of_nat k) = data !! k.
Proof.
  induction n as [|n IH]; intros Hall.
  - exists []. split; [done|]. intros k Hk. lia.
  - destruct IH as (data & Hlen & Hdata); [intros k Hk; apply Hall; lia|].
    destruct (Hall n) as [x Hx]; [lia|].
    exists (data ++ [x]). split; [rewrite length_app; simpl; lia|].
    intros k Hk. destruct (decide (k = n)) as [->|Hne].
    + rewrite Hx, lookup_app_r by lia. by rewrite Hlen, Nat.sub_diag.
    + rewrite lookup_app_l by lia. apply Hdata. lia.
Qed.

(** C7: [read] fails with [FileNotFoundError] on an unknown handle.  With
    the cursor at or past the size of the file it returns the empty text and
    leaves the cursor.  It never runs forever, and whenever it gets to its
    [return] it has gathered exactly [max 0 (min sz (size - cursor))] bytes,
    never reaching past the size of the file, and the cursor has advanced by
    that number.  And it does get there whenever the cursor is not negative
    and the blocks of the file cover its size: the bytes gathered are then the
    bytes of the file from the cursor on, and what [read] returns is their
    decoding. *)
Theorem read_clamps_and_advances s h sz :
  0 < block_size (block_storage s) →
  blocks_sized (block_storage s) →
  (open_files s !! h = None →
     read_bytes h sz s = (Raise FileNotFoundError, s)
     ∧ read h sz s = (Raise FileNotFoundError, s))
  ∧ (∀ i off d,
       open_files s !! h = Some (i, off) →
       Py.get (file_descriptors s) i = Some (Some d) →
       (size d ≤ off → read_bytes h sz s = (Ret [], s) ∧ read h sz s = (Ret [], s))
       ∧ (read_bytes h sz s).1 ≠ Diverge
       ∧ (∀ data s', read_bytes h sz s = (Ret data, s') →
            Z.of_nat (length data) = Z.max 0 (Z.min sz (size d - off))
            ∧ (0 < Z.of_nat (length data) → off + Z.of_nat (length data) ≤ size d)
            ∧ s' = set_open_files s (<[h := (i, off + Z.of_nat (length data))]> (open_files s)))
       ∧ (0 ≤ off →
          size d ≤ Z.of_nat (length (get_blocks d)) * block_size (block_storage s) →
          (∀ b, b ∈ get_blocks d → is_Some (Py.get (blocks (block_storage s)) b)) →
          ∃ data,
            read_bytes h sz s
            = (Ret data,
               set_open_files s (<[h := (i, off + Z.of_nat (length data))]> (open_files s)))
            ∧ read h sz s
              = (Py.decode data,
                 set_open_files s (<[h := (i, off + Z.of_nat (length data))]> (open_files s)))
            ∧ Z.of_nat (length data) = Z.max 0 (Z.min sz (size d - off))
            ∧ ∀ k, (k < length data)%nat →
                data !! k = file_byte (block_storage s) (get_blocks d) (off + Z.of_nat k))).
Proof.
  intros Hbs Hsized.
  destruct (read_bytes_clamped s h sz Hbs Hsized) as [Hnone Hopen].
  split.
  - intros Hh. split; [by apply Hnone|]. unfold read. by rewrite (Hnone Hh).
  - intros i off d Hh Hd. destruct (Hopen i off d Hh Hd) as (Hpast & Hnd & Hret).
    split_and!; [|done|done|].
    + intros Hge. split; [by apply Hpast|]. unfold read. by rewrite (Hpast Hge).
    + intros Hoff Hcover Hblocks.
      set (n := Z.max 0 (Z.min sz (size d - off))).
      destruct (file_bytes_exist (block_storage s) (get_blocks d) off (Z.to_nat n))
        as (data & Hlen & Hdata).
      { intros k Hk. apply file_byte_is_Some; [done|done|lia| |done]. lia. }
      assert (read_bytes h sz s
              = (Ret data,
                 set_open_files s
                   (<[h := (i, off + Z.of_nat (length data))]> (open_files s)))) as Hread.
      { unfold read_bytes. rewrite Hh, Hd. cbv zeta.
        set (sz' := if size d <? off + sz then size d - off else sz).
        assert (sz' = Z.min sz (size d - off)) as Hsz'.
        { unfold sz'. destruct (Z.ltb_spec (size d) (off + sz)); lia. }
        destruct (Z.le_gt_cases sz' 0) as [Hle|Hgt].
        - assert (data = []) as -> by (apply nil_length_inv; lia).
          destruct (Z.to_nat sz'); simpl; destruct (Z.leb_spec sz' 0); try lia;
            by rewrite Z.add_0_r.
        - rewrite (read_loop_gathers _ _ _ _ off [] data); [|done|done|lia|lia|].
          + do 4 f_equal. lia.
          + intros k Hk. apply Hdata. lia. }
      exists data. split_and!; [done| |lia|].
      * unfold read. by rewrite Hread.
      * intros k Hk. symmetry. apply Hdata. lia.
Qed.

Lemma read_clamps_and_advances_witness :
  read_bytes 0 100 (run two_block_file [Seek 0 6]) = (Ret [], run two_block_file [Seek 0 6])
  ∧ ∃ data,
      (read_bytes 0 100 (run two_block_file [Seek 0 1])).1 = Ret data
      ∧ (read 0 100 (run two_block_file [Seek 0 1])).1 = Py.decode data
      ∧ Z.of_nat (length data) = 5.
Proof.
  split.
  - destruct (read_clamps_and_advances (run two_block_file [Seek 0 6]) 0 100) as [_ H].
    + vm_compute. reflexivity.
    + unfold blocks_sized. vm_compute. repeat constructor.
    + destruct (H 0 6 two_block_descriptor) as ([Hpast _] & _).
      * vm_compute. reflexivity.
      * vm_compute. reflexivity.
      * vm_compute. discriminate.
      * exact Hpast.
  - destruct (read_clamps_and_advances (run two_block_file [Seek 0 1]) 0 100) as [_ H].
    + vm_compute. reflexivity.
    + unfold blocks_sized. vm_compute. repeat constructor.
    + destruct (H 0 1 two_block_descriptor) as (_ & _ & _ & Hcover).
      * vm_compute. reflexivity.
      * vm_compute. reflexivity.
      * destruct Hcover as (data & Hrd & Htx & Hlen & _).
        -- lia.
        -- vm_compute. discriminate.
        -- intros b Hb. apply (bool_decide_unpack _).
           revert b Hb. apply Forall_forall. vm_compute. repeat constructor.
        -- exists data. rewrite Hrd, Htx. split_and!; [reflexivity|reflexivity|].
           rewrite Hlen. reflexivity.
Defined.

(** * A write that runs out of room *)

Lemma allocate_block_none st :
  storage_ok st → free_count st = 0%nat →
  allocate_block st = (Raise (RuntimeError "No free blocks available"), st).
Proof.
  intros (Hbs & Hnb & Hlen & Hsized) Hzero. unfold allocate_block.
  rewrite allocate_scan_none; [done|lia|lia|by apply free_count_zero].
Qed.

(** One turn of the loop of [write] at the start of a block the descriptor
    does not hold, with no empty entry left in [direct_blocks] or no free
    block in the storage: the turn raises.  With no free block the storage
    is as before; otherwise a block has been allocated for nothing. *)
Lemma write_chunk_no_room st d bl m data :
  storage_ok st →
  direct_blocks d = bl ++ replicate m (-1) →
  (∀ b, b ∈ bl → 0 ≤ b) →
  data ≠ [] →
  m = 0%nat ∨ free_count st = 0%nat →
  ∃ e st',
    write_chunk data (Z.of_nat (length bl) * block_size st) st d = (Raise e, (st', d))
    ∧ blocks st' = blocks st
    ∧ block_size st' = block_size st
    ∧ (∀ k, bitmap st !! k = Some 1 → bitmap st' !! k = Some 1)
    ∧ (free_count st = 0%nat → e = RuntimeError "No free blocks available")
    ∧ ((0 < free_count st)%nat →
       e = RuntimeError "No free direct blocks, indirect block needed").
Proof.
  intros Hok Hd Hbl Hdata Hroom.
  pose proof Hok as (Hbs & Hnb & Hlen & Hsized).
  assert (∀ x, x ∈ bl → x ≠ -1) as Hne.
  { intros x Hx%Hbl. lia. }
  unfold write_chunk, Py.floordiv, Py.modulo.
  destruct (Z.eqb_spec (block_size st) 0); [lia|].
  rewrite Z.div_mul, Z.mod_mul by lia.
  assert (ensure_block (Z.of_nat (length bl)) st d =
          match allocate_block st with
          | (Ret new_block, st1) =>
              match add_block new_block d with
              | (Ret _, d1) => (Ret tt, (st1, d1))
              | (Raise e, d1) => (Raise e, (st1, d1))
              | (Diverge, d1) => (Diverge, (st1, d1))
              end
          | (Raise e, st1) => (Raise e, (st1, d))
          | (Diverge, st1) => (Diverge, (st1, d))
          end) as ->.
  { unfold ensure_block. rewrite Hd, length_app, length_replicate.
    destruct (Z.leb_spec (Z.of_nat (length bl + m)) (Z.of_nat (length bl))) as [_|Hlt];
      [done|].
    rewrite get_nonneg by lia. rewrite Nat2Z.id, lookup_app_r by lia.
    rewrite Nat.sub_diag. destruct m as [|m0]; [lia|]. done. }
  destruct (Nat.eq_0_gt_0_cases (free_count st)) as [Hzero|Hfree].
  - rewrite allocate_block_none by done.
    exists (RuntimeError "No free blocks available"), st.
    split_and!; try done. lia.
  - destruct Hroom as [->|Hz]; [|lia].
    destruct (allocate_block_success st Hok Hfree) as (b & -> & Hb0 & Hblt & Hbit & _ & _).
    unfold add_block. rewrite Hd, app_nil_r, fill_first_empty_none by done.
    eexists _, _. split; [done|]. cbn [blocks block_size bitmap set_bitmap].
    split_and!; try done; [|lia].
    intros k Hk. rewrite list_lookup_insert_ne; [done|]. intros <-. congruence.
Qed.

(** The loop of [write] on data that needs more than the [n] blocks it can
    get, either because the descriptor has [n] empty entries or because the
    storage has [n] free blocks: it allocates and fills these [n] blocks, then
    raises.  The blocks stay in the descriptor with the data in them. *)
Lemma write_loop_overflow n : ∀ fuel data st d bl m,
  storage_ok st →
  direct_blocks d = bl ++ replicate m (-1) →
  NoDup bl →
  (∀ b, b ∈ bl → 0 ≤ b ∧ bitmap st !! Z.to_nat b = Some 1) →
  (length data ≤ fuel)%nat →
  (n ≤ m)%nat → (n ≤ free_count st)%nat →
  Z.of_nat n * block_size st < Z.of_nat (length data) →
  n = m ∨ n = free_count st →
  ∃ e st' ext,
    write_loop fuel data (Z.of_nat (length bl) * block_size st) st d =
      (Raise e, (st', set_direct_blocks d ((bl ++ ext) ++ replicate (m - n) (-1))))
    ∧ length ext = n
    ∧ block_size st' = block_size st
    ∧ NoDup (bl ++ ext)
    ∧ (∀ b, b ∈ ext → 0 ≤ b ∧ bitmap st !! Z.to_nat b = Some 0)
    ∧ (∀ b, b ∈ bl ++ ext → 0 ≤ b ∧ bitmap st' !! Z.to_nat b = Some 1)
    ∧ (∀ b, b ∈ bl → blocks st' !! Z.to_nat b = blocks st !! Z.to_nat b)
    ∧ (∀ k, Z.of_nat k < Z.of_nat n * block_size st →
         file_byte st' (bl ++ ext)
           (Z.of_nat (length bl) * block_size st + Z.of_nat k) = data !! k)
    ∧ (n = free_count st → e = RuntimeError "No free blocks available")
    ∧ ((n < free_count st)%nat →
       e = RuntimeError "No free direct blocks, indirect block needed").
Proof.
  induction n as [|n IH]; intros fuel data st d bl m Hok Hd Hnd Hbl Hfuel Hnm Hnf Hlong Hend.
  - (* no block to be had: the first turn raises *)
    pose proof Hok as (Hbs & _).
    destruct data as [|x data0] eqn:Hdata; [simpl in Hlong; lia|].
    rewrite <- Hdata in *. assert (data ≠ []) as Hne by (by rewrite Hdata).
    destruct fuel as [|fuel]; [rewrite Hdata in Hfuel; simpl in Hfuel; lia|].
    destruct (write_chunk_no_room st d bl m data Hok Hd) as
      (e & st' & Hchunk & Hblocks & Hbs' & Hmono & Hnone & Hfull);
      [intros b Hb; by apply Hbl|done|destruct Hend; [left|right]; done|].
    exists e, st', [].
    assert (write_loop (S fuel) data (Z.of_nat (length bl) * block_size st) st d
            = (Raise e, (st', d))) as ->.
    { rewrite Hdata. cbn [write_loop]. rewrite <- Hdata. by rewrite Hchunk. }
    rewrite app_nil_r, Nat.sub_0_r, <- Hd.
    split_and!; try done.
    + by destruct d.
    + intros b Hb. by apply elem_of_nil in Hb.
    + intros b Hb. destruct (Hbl b Hb) as [Hb0 Hone]. split; [done|by apply Hmono].
    + intros b Hb. by rewrite Hblocks.
    + intros k Hk. lia.
    + intros Hz. by apply Hnone.
  - (* one full block, then the rest *)
    pose proof Hok as (Hbs & Hnb & Hlen & Hsized).
    destruct data as [|x data0] eqn:Hdata; [simpl in Hlong; lia|].
    rewrite <- Hdata in *. assert (data ≠ []) as Hne by (by rewrite Hdata).
    destruct fuel as [|fuel]; [rewrite Hdata in Hfuel; simpl in Hfuel; lia|].
    destruct m as [|m0]; [lia|].
    assert (0 < free_count st)%nat as Hfree by lia.
    destruct (write_chunk_append st d bl m0 data Hok Hd)
      as (b & buf & Hb0 & Hbit & Hbuf & Hchunk);
      [intros b' Hb'; by apply Hbl|done|done|].
    set (chunk := take (Z.to_nat (block_size st)) data) in *.
    set (st1 := set_blocks (set_bitmap st (<[Z.to_nat b:=1]> (bitmap st)))
                  (<[Z.to_nat b:=chunk ++ drop (length chunk) buf]> (blocks st))) in *.
    set (d1 := set_direct_blocks d (bl ++ b :: replicate m0 (-1))) in *.
    assert (write_loop (S fuel) data (Z.of_nat (length bl) * block_size st) st d =
            write_loop fuel (drop (length chunk) data)
              (Z.of_nat (length bl) * block_size st + Z.of_nat (length chunk)) st1 d1) as ->.
    { rewrite Hdata. cbn [write_loop]. rewrite <- Hdata. by rewrite Hchunk. }
    assert (length chunk = Z.to_nat (block_size st)) as Hfull.
    { unfold chunk. rewrite length_take. nia. }
    assert (Z.to_nat b < length (bitmap st))%nat as Hblt by (by eapply lookup_lt_Some).
    assert (length buf = Z.to_nat (block_size st)) as Hbuflen.
    { unfold blocks_sized in Hsized. rewrite Forall_lookup in Hsized. by eapply Hsized. }
    assert (b ∉ bl) as Hnotin.
    { intros Hin. destruct (Hbl b Hin) as [_ Hone]. congruence. }
    assert (storage_ok st1) as Hok1.
    { unfold storage_ok, st1. cbn. rewrite !length_insert. split_and!; try done.
      unfold blocks_sized. cbn. apply Forall_insert; [done|].
      rewrite length_app, length_drop. lia. }
    assert (S (free_count st1) = free_count st) as Hfc1.
    { unfold free_count, st1. cbn. by apply filter_zero_insert. }
    assert (∀ b', b' ∈ bl ++ [b] → 0 ≤ b' ∧ bitmap st1 !! Z.to_nat b' = Some 1) as Hbl1.
    { intros b' [Hb'|Hb']%elem_of_app.
      - destruct (Hbl b' Hb') as [? ?]. split; [done|]. unfold st1. cbn.
        rewrite list_lookup_insert_ne; [done|]. intros Heq.
        assert (b = b') by lia. congruence.
      - apply list_elem_of_singleton in Hb' as ->. split; [done|]. unfold st1. cbn.
        by apply list_lookup_insert_eq. }
    assert (∀ b', b' ∈ bl → blocks st1 !! Z.to_nat b' = blocks st !! Z.to_nat b') as Hsame1.
    { intros b' Hb'. destruct (Hbl b' Hb') as [? ?]. unfold st1. cbn.
      apply list_lookup_insert_ne. intros Heq. assert (b = b') by lia. congruence. }
    assert (blocks st1 !! Z.to_nat b = Some (chunk ++ drop (length chunk) buf)) as Hbuf1.
    { unfold st1. cbn. apply list_lookup_insert_eq. lia. }
    assert (NoDup (bl ++ [b])) as Hnd1.
    { apply NoDup_app. split_and!; [done| |apply NoDup_singleton].
      intros y Hy ->%list_elem_of_singleton. done. }
    assert (∀ k, (k < length chunk)%nat →
              file_byte st1 (bl ++ [b]) (Z.of_nat (length bl) * block_size st + Z.of_nat k)
              = data !! k) as Hfirst.
    { intros k Hk. etrans.
      - apply (file_byte_last_block st1 bl b chunk (drop (length chunk) buf) k);
          [done|done|done|done|cbn; lia].
      - unfold chunk. apply lookup_take_lt. lia. }
    assert (Z.of_nat (length bl) * block_size st + Z.of_nat (length chunk)
            = Z.of_nat (length (bl ++ [b])) * block_size st1) as Hcur.
    { rewrite length_app. cbn. lia. }
    rewrite Hcur.
    assert (direct_blocks d1 = (bl ++ [b]) ++ replicate m0 (-1)) as Hd1.
    { unfold d1. cbn. by rewrite <- (assoc_L (++)). }
    assert (block_size st1 = block_size st) as Hbs1 by done.
    destruct (IH fuel (drop (length chunk) data) st1 d1 (bl ++ [b]) m0 Hok1 Hd1 Hnd1 Hbl1)
      as (e & st' & ext & Hloop & Hlext & Hbs' & Hnd' & Hnew' & Hbl' & Hsame' & Hbytes'
          & Hnone' & Hfull');
      [rewrite length_drop; lia|lia|lia|rewrite length_drop, Hbs1; nia|lia|].
    exists e, st', ([b] ++ ext). rewrite (assoc_L (++)).
    rewrite Hloop. split_and!; try done.
    + cbn. by rewrite Hlext.
    + intros b' Hb'. apply elem_of_app in Hb' as [Hb'|Hb'];
        [by apply list_elem_of_singleton in Hb' as ->|].
      destruct (Hnew' b' Hb') as [Hb'0 Hzero]. split; [done|].
      unfold st1 in Hzero. cbn in Hzero.
      destruct (decide (Z.to_nat b = Z.to_nat b')) as [Heq|Hneq].
      * rewrite <- Heq, list_lookup_insert_eq in Hzero by done. done.
      * by rewrite list_lookup_insert_ne in Hzero.
    + intros b' Hb'. rewrite Hsame'; [by apply Hsame1|]. apply elem_of_app. by left.
    + intros k Hk. destruct (Nat.lt_ge_cases k (length chunk)) as [Hlt|Hge].
      * rewrite <- Hfirst by done.
        apply file_byte_prefix; [done|done| |].
        -- rewrite length_app. cbn. lia.
        -- intros b' Hb'. split; [by apply Hbl1|by apply Hsame'].
      * specialize (Hbytes' (k - length chunk)%nat).
        rewrite lookup_drop in Hbytes'.
        replace (length chunk + (k - length chunk))%nat with k in Hbytes' by lia.
        rewrite <- Hbytes' by (rewrite Hbs1; nia). f_equal.
        rewrite length_app. cbn. lia.
    + intros Hz. apply Hnone'. lia.
    + intros Hlt. apply Hfull'. lia.
Qed.

(** C4, as the code has it: a write on an open handle that raises leaves
    the handle table, and so the cursor, and the size of every descriptor as
    they were before the call; and nothing is undone: the storage and the
    descriptor are left as the loop had them when it raised.  So when the data
    needs more blocks than the [n] the loop can get (the descriptor has [n]
    empty entries, or the storage [n] free blocks), the write raises, the [n]
    blocks stay allocated in the descriptor with the first [n] blocks of data
    stored in them, and yet size and cursor have not moved. *)
Theorem failed_write_keeps_cursor_and_size s h data i off d :
  open_files s !! h = Some (i, off) →
  Py.get (file_descriptors s) i = Some (Some d) →
  (∀ e s', write h data s = (Raise e, s') →
     open_files s' = open_files s
     ∧ directory s' = directory s
     ∧ (∀ j, size <$> slot s' j = size <$> slot s j)
     ∧ ∃ st d1,
         write_loop (length data) data off (block_storage s) d = (Raise e, (st, d1))
         ∧ block_storage s' = st
         ∧ slot s' i = Some d1)
  ∧ (∀ bl m n,
       storage_ok (block_storage s) →
       direct_blocks d = bl ++ replicate m (-1) →
       NoDup bl →
       (∀ b, b ∈ bl → 0 ≤ b ∧ used (block_storage s) b) →
       off = Z.of_nat (length bl) * block_size (block_storage s) →
       (n ≤ m)%nat → (n ≤ free_count (block_storage s))%nat →
       Z.of_nat n * block_size (block_storage s) < Z.of_nat (length data) →
       n = m ∨ n = free_count (block_storage s) →
       ∃ e s' d' ext,
         write h data s = (Raise e, s')
         ∧ (n = free_count (block_storage s) →
            e = RuntimeError "No free blocks available")
         ∧ ((n < free_count (block_storage s))%nat →
            e = RuntimeError "No free direct blocks, indirect block needed")
         ∧ open_files s' = open_files s
         ∧ slot s' i = Some d'
         ∧ size d' = size d
         ∧ get_blocks d' = bl ++ ext
         ∧ length ext = n
         ∧ (∀ b, b ∈ ext → is_free (block_storage s) b ∧ used (block_storage s') b)
         ∧ (∀ k, Z.of_nat k < Z.of_nat n * block_size (block_storage s) →
              file_byte (block_storage s') (get_blocks d') (off + Z.of_nat k)
              = data !! k)).
Proof.
  intros Hh Hd.
  assert (∀ st d1, slot (put_slot (set_block_storage s st) i (Some d1)) i = Some d1)
    as Hslot'.
  { intros st d1. unfold slot. erewrite put_slot_get; [done|].
    cbn [file_descriptors set_block_storage]. exact Hd. }
  split.
  - intros e s' Hwrite.
    destruct (failed_write_frame s h data e s' Hwrite) as (Ho & Hdir & Hsz & _).
    split_and!; [done|done|done|].
    revert Hwrite. unfold write. rewrite Hh, Hd.
    destruct (write_loop _ _ _ _ _) as [[cur| |] [st d1]] eqn:Hloop; [done| |done].
    intros [= <- <-]. exists st, d1. split_and!; [done| |done].
    by rewrite put_slot_block_storage.
  - intros bl m n Hok Hdb Hnd Hbl -> Hnm Hnf Hlong Hend.
    destruct (write_loop_overflow n (length data) data (block_storage s) d bl m)
      as (e & st' & ext & Hloop & Hlext & Hbs' & Hnd' & Hnew & Hbl' & _ & Hbytes
          & Hnone & Hfull); try done.
    { intros b Hb. destruct (Hbl b Hb) as [Hb0 Hused]. split; [done|].
      unfold used in Hused. by rewrite get_nonneg in Hused. }
    set (d' := set_direct_blocks d ((bl ++ ext) ++ replicate (m - n) (-1))) in *.
    assert (get_blocks d' = bl ++ ext) as Hgb.
    { unfold get_blocks, d'. cbn [direct_blocks set_direct_blocks].
      apply filter_blocks_app. intros x Hx%Hbl'. lia. }
    exists e, (put_slot (set_block_storage s st') i (Some d')), d', ext.
    split_and!; try done.
    + unfold write. by rewrite Hh, Hd, Hloop.
    + by rewrite put_slot_open_files.
    + intros b Hb. destruct (Hnew b Hb) as [Hb0 Hzero].
      destruct (Hbl' b) as [_ Hone]; [apply elem_of_app; by right|].
      rewrite put_slot_block_storage. unfold is_free, used.
      cbn [block_storage set_block_storage]. by rewrite !get_nonneg.
    + intros k Hk. rewrite put_slot_block_storage, Hgb.
      cbn [block_storage set_block_storage]. by apply Hbytes.
Qed.

Lemma failed_write_keeps_cursor_and_size_witness :
  ∃ s' d' ext,
    write 0 (bytes_of_string "abcdefghijkl") one_open_file_small_blocks
    = (Raise (RuntimeError "No free direct blocks, indirect block needed"), s')
    ∧ open_files s' = open_files one_open_file_small_blocks
    ∧ slot s' 0 = Some d'
    ∧ size d' = 0
    ∧ get_blocks d' = ext
    ∧ length ext = 10%nat
    ∧ ∀ k, (k < 10)%nat →
        file_byte (block_storage s') ext (Z.of_nat k)
        = bytes_of_string "abcdefghijkl" !! k.
Proof.
  destruct (failed_write_keeps_cursor_and_size one_open_file_small_blocks 0
              (bytes_of_string "abcdefghijkl") 0 0
              (FileDescriptor_init "regular" max_direct_blocks_default))
    as [_ Hover].
  - reflexivity.
  - reflexivity.
  - destruct (Hover [] 10%nat 10%nat)
      as (e & s' & d' & ext & Hw & _ & He & Ho & Hs & Hsz & Hgb & Hlen & _ & Hbytes).
    + apply (storage_ok_fresh 12 1 1); lia.
    + reflexivity.
    + apply NoDup_nil_2.
    + intros b Hb. by apply elem_of_nil in Hb.
    + reflexivity.
    + lia.
    + vm_compute. lia.
    + vm_compute. reflexivity.
    + left. reflexivity.
    + cbn [app] in Hgb.
      exists s', d', ext. rewrite <- (He ltac:(vm_compute; lia)).
      split_and!; [exact Hw|exact Ho|exact Hs|exact Hsz|exact Hgb|exact Hlen|].
      intros k Hk. rewrite <- Hgb. rewrite <- (Hbytes k); [reflexivity|].
      change (block_size (block_storage one_open_file_small_blocks)) with 1. lia.
Defined.

(** * Growing again after shrinking *)

(** C8 (the code departs from it): the file of two blocks is truncated to
    two bytes, which frees block 1 and cuts [direct_blocks] down to its first
    entry.  Truncated to eight bytes next, it should get one new block and the
    size 8; instead the call allocates block 1, finds no entry for it and
    raises: the size is still 2, the file still holds the single block 0, and
    block 1 is marked used. *)
Theorem truncate_cannot_regrow :
  let s1 := run two_block_file [Truncate "a" 2] in
  let s2 := (truncate "a" 8 s1).2 in
  (truncate "a" 2 two_block_file).1 = Ret tt
  ∧ descriptor_of "a" s1 = Some (mkFileDescriptor "regular" 1 2 [0] (-1))
  ∧ is_free (block_storage s1) 1
  ∧ ceil_div 8 (block_size (block_storage s1))
    - Z.of_nat (length [0]) = 1
  ∧ (truncate "a" 8 s1).1
    = Raise (RuntimeError "No free direct blocks, indirect block needed")
  ∧ descriptor_of "a" s2 = Some (mkFileDescriptor "regular" 1 2 [0] (-1))
  ∧ used (block_storage s2) 1
  ∧ ¬ (size <$> descriptor_of "a" s2 = Some 8).
Proof. vm_compute. split_and!; try done. Qed.
